(** * Craftora marketplace: cart, checkout, order status and review workflows

    A shallow embedding of the handlers that write to the hosted store:

    - [Checkout.handlePlaceOrder]      (src/pages/Checkout.tsx)
    - [ProductDetail.handleAddToCart]  (ProductDetail page, second document of
                                        src/pages/Onboarding.tsx)
    - [SellerDashboard.updateOrderStatus] and the status buttons it is wired to
                                       (src/pages/SellerDashboard.tsx)
    - [ReviewPage.handleSubmit]        (ReviewPage, unnamed/part_001)

    The store ([blink.db]) and the identity provider ([blink.auth]) are
    external services.  They are modelled by an explicit [World]: the stored
    collections, a schedule saying which of the coming service calls reject,
    the values [Math.random] and the clock will yield, and the log of toasts
    and navigations the page emits.  Handlers are written in a small
    state-and-exception monad over that world, so that [await], [try] /
    [catch] and early [return] read as in the source.

    Conventions of the embedding:
    - a JS [number] that can be fractional (price, amount, average) is a
      rational [Q]; counts and quantities are [Z].  Two amounts are equated
      only when they are computed by the same sequence of additions,
      multiplications and divisions, so that no statement rests on the
      arithmetic being exact or associative;
    - the clock stands still while a handler runs: every
      [new Date().toISOString()] of a run yields [now]; no statement compares
      two timestamps;
    - record identifiers are strings handed out by the store.  The object
      [itemsBySeller] of the checkout is a plain object: [itemsBySeller[k]]
      finds own properties and the members inherited from
      [Object.prototype] ([JS.get]).  The keys of the review form are
      product identifiers, looked up among its own properties;
    - every handler runs with the session user of [useAuth] present: the pages
      redirect to [/auth] before rendering their controls otherwise. *)

From Stdlib Require Import String Ascii List Bool ZArith NArith QArith Lia.
From Stdlib Require Import Permutation DecimalString DecimalNat.
Import ListNotations.

Local Open Scope string_scope.
Local Open Scope list_scope.

(** ** JavaScript helpers *)

Module JS.

(** Truthiness of a string: the empty string is falsy. *)
Definition truthy (s : string) : bool := negb (s =? "").

(** [a || b] on optional strings ([undefined] and [''] are falsy). *)
Definition or (a b : option string) : option string :=
  match a with
  | Some s => if truthy s then a else b
  | None => b
  end.

(** [n || 0] on numbers. *)
Definition orZero (n : Q) : Q := if Qeq_bool n 0 then 0%Q else n.

(** Array-index keys: the canonical decimal strings of 0 .. 2^32 - 2.
    [Object.entries] lists them first, in ascending numeric order. *)
Definition digit (c : ascii) : option N :=
  let n := N_of_ascii c in
  if ((48 <=? n) && (n <=? 57))%N then Some (n - 48)%N else None.

Fixpoint digits (s : string) (acc : N) : option N :=
  match s with
  | EmptyString => Some acc
  | String c s' =>
      match digit c with
      | Some d => digits s' (acc * 10 + d)%N
      | None => None
      end
  end.

Definition arrayIndex (s : string) : option N :=
  match s with
  | EmptyString => None
  | String c s' =>
      if (c =? "0")%char
      then match s' with EmptyString => Some 0%N | _ => None end
      else match digits s 0%N with
           | Some n => if (n <? 4294967295)%N then Some n else None
           | None => None
           end
  end.

(** A plain object used as a dictionary: own string keys in insertion
    order. *)
Definition Obj (V : Type) : Type := list (string * V).

Fixpoint lookup {V} (k : string) (o : Obj V) : option V :=
  match o with
  | [] => None
  | (k', v) :: o' => if k =? k' then Some v else lookup k o'
  end.

Definition keys {V} (o : Obj V) : list string := map fst o.

Fixpoint indexKeys {V} (o : Obj V) : list (N * (string * V)) :=
  match o with
  | [] => []
  | kv :: o' =>
      match arrayIndex (fst kv) with
      | Some n => (n, kv) :: indexKeys o'
      | None => indexKeys o'
      end
  end.

Fixpoint stringKeys {V} (o : Obj V) : Obj V :=
  match o with
  | [] => []
  | kv :: o' =>
      match arrayIndex (fst kv) with
      | Some _ => stringKeys o'
      | None => kv :: stringKeys o'
      end
  end.

Fixpoint insertByIndex {E} (x : N * E) (l : list (N * E)) : list (N * E) :=
  match l with
  | [] => [x]
  | y :: l' => if (fst x <=? fst y)%N then x :: l else y :: insertByIndex x l'
  end.

Definition sortByIndex {E} (l : list (N * E)) : list (N * E) :=
  fold_right insertByIndex [] l.

(** [Object.entries(o)]: array-index keys ascending, then the other keys in
    insertion order. *)
Definition entries {V} (o : Obj V) : list (string * V) :=
  map snd (sortByIndex (indexKeys o)) ++ stringKeys o.

(** [o[k] = v]: an own key keeps its place, a new key comes last. *)
Fixpoint set {V} (k : string) (v : V) (o : Obj V) : Obj V :=
  match o with
  | [] => [(k, v)]
  | (k', v') :: o' => if k =? k' then (k', v) :: o' else (k', v') :: set k v o'
  end.

(** The members a plain object inherits from [Object.prototype].  Each is a
    function or an object: truthy, and without a [push] of its own. *)
Definition inherited : list string :=
  ["constructor"; "hasOwnProperty"; "isPrototypeOf"; "propertyIsEnumerable";
   "toLocaleString"; "toString"; "valueOf"; "__proto__";
   "__defineGetter__"; "__defineSetter__"; "__lookupGetter__";
   "__lookupSetter__"].

Definition inherits (k : string) : bool := existsb (String.eqb k) inherited.

(** What [o[k]] finds on a plain object: an own property, else an inherited
    member, else [undefined]. *)
Inductive Slot (V : Type) : Type :=
| Own (v : V)
| Inherited
| Undefined.
Arguments Own {V}.
Arguments Inherited {V}.
Arguments Undefined {V}.

Definition get {V} (k : string) (o : Obj V) : Slot V :=
  match lookup k o with
  | Some v => Own v
  | None => if inherits k then Inherited else Undefined
  end.

End JS.

(** ** Data model (src/types/index.ts) *)

Inductive VerificationStatus := vs_pending | vs_approved | vs_rejected.

Inductive OrderStatus :=
  pending | confirmed | preparing | ready | delivered | cancelled.

Inductive PaymentMethod := online | cash_on_delivery.

Inductive PaymentStatus := ps_pending | ps_paid | ps_failed.

Definition OrderStatus_eqb (a b : OrderStatus) : bool :=
  match a, b with
  | pending, pending | confirmed, confirmed | preparing, preparing
  | ready, ready | delivered, delivered | cancelled, cancelled => true
  | _, _ => false
  end.

Module User.
Record t := mk {
  id : string; userId : string; email : string;
  displayName : option string; role : string;
  phone : option string; locationAddress : option string;
  createdAt : string; updatedAt : string }.
End User.

(** [AuthUser] of src/hooks/useAuth.ts. *)
Module AuthUser.
Record t := mk {
  id : string; email : string;
  displayName : option string; profile : option User.t }.
End AuthUser.

Module Seller.
Record t := mk {
  id : string; userId : string; businessName : option string;
  verificationStatus : VerificationStatus;
  ratingAverage : Q; totalReviews : Z; totalOrders : Z; totalEarnings : Q;
  isActive : string; createdAt : string; updatedAt : string }.

(** The patch [{ total_reviews: n }]. *)
Definition patchTotalReviews (n : Z) (s : t) : t :=
  mk (id s) (userId s) (businessName s) (verificationStatus s)
     (ratingAverage s) n (totalOrders s) (totalEarnings s)
     (isActive s) (createdAt s) (updatedAt s).


End Seller.

Module Product.
Record t := mk {
  id : string; userId : string; sellerId : string; title : string;
  description : option string; categoryId : option string;
  price : Q; images : option string;
  isAvailable : string; stockQuantity : Z;
  ratingAverage : Q; totalReviews : Z;
  createdAt : string; updatedAt : string }.

(** The patch [{ rating_average: a, total_reviews: n }]. *)
Definition patchRating (a : Q) (n : Z) (p : t) : t :=
  mk (id p) (userId p) (sellerId p) (title p) (description p) (categoryId p)
     (price p) (images p) (isAvailable p) (stockQuantity p)
     a n (createdAt p) (updatedAt p).


End Product.

Module CartItem.
Record t := mk {
  id : string; userId : string; productId : string; quantity : Z;
  createdAt : string; updatedAt : string }.

(** The patch [{ quantity: q, updatedAt: ts }]. *)
Definition patchQuantity (q : Z) (ts : string) (c : t) : t :=
  mk (id c) (userId c) (productId c) q (createdAt c) ts.

(** [{ ...item, quantity: q }] on the page state. *)
Definition withQuantity (q : Z) (c : t) : t :=
  patchQuantity q (updatedAt c) c.
End CartItem.

(** [CartItemWithProduct]: a cart row joined with the product fetched for
    it ([None] when [products.get] returned nothing). *)
Module CartLine.
Record t := mk { item : CartItem.t; product : option Product.t }.
Definition productId (l : t) : string := CartItem.productId (item l).
Definition quantity (l : t) : Z := CartItem.quantity (item l).
Definition id (l : t) : string := CartItem.id (item l).
(** [{ ...item, quantity: q }] on a joined line. *)
Definition withQuantity (q : Z) (l : t) : t :=
  mk (CartItem.withQuantity q (item l)) (product l).
End CartLine.

Module Order.
Record t := mk {
  id : string; userId : string; orderNumber : string; sellerId : string;
  buyerName : string; buyerPhone : string; deliveryAddress : string;
  totalAmount : Q; status : OrderStatus;
  paymentMethod : PaymentMethod; paymentStatus : PaymentStatus;
  createdAt : string; updatedAt : string }.

(** The patch [{ status: s, updatedAt: ts }]. *)
Definition patchStatus (s : OrderStatus) (ts : string) (o : t) : t :=
  mk (id o) (userId o) (orderNumber o) (sellerId o) (buyerName o)
     (buyerPhone o) (deliveryAddress o) (totalAmount o) s
     (paymentMethod o) (paymentStatus o) (createdAt o) ts.

(** [{ ...order, status: s }] on the page state. *)
Definition withStatus (s : OrderStatus) (o : t) : t :=
  patchStatus s (updatedAt o) o.
End Order.

Module OrderItem.
Record t := mk {
  id : string; userId : string; orderId : string; productId : string;
  productTitle : string; productPrice : Q; quantity : Z; subtotal : Q;
  createdAt : string }.
End OrderItem.

Module Review.
Record t := mk {
  id : string; userId : string; orderId : string; productId : string;
  sellerId : string; rating : Z; comment : string; createdAt : string }.
End Review.

(** [OrderWithItems] as the pages hold it: the order and, when loaded, its
    lines. *)
Module OrderWithItems.
Record t := mk { order : Order.t; items : option (list OrderItem.t) }.
End OrderWithItems.

(** ** The hosted store *)

(** Modelled from the spec: the persistent store client [blink.db] (the
    module [@/lib/blink] wraps a hosted service and is not among the
    sources).  Spec section 6 gives its interface: named record collections
    with [get(id)], [list(filter)], [create(fields)], [update(id, fields)],
    [deleteMany(filter)] and [createMany(records)], filters being equalities
    on fields.  Each collection keeps its rows in creation order.  [create]
    and [createMany] append rows under identifiers the store generates;
    [list] filters; [get] returns the first row with the identifier;
    [update] patches the rows with the identifier; [deleteMany] removes the
    rows that match. *)
Module Store.

Record t := mk {
  users : list User.t; sellers : list Seller.t; products : list Product.t;
  cart : list CartItem.t; orders : list Order.t;
  orderItems : list OrderItem.t; reviews : list Review.t;
  nextId : nat }.

(** The identifier the store generates for its [n]-th created row. *)
Definition freshId (n : nat) : string :=
  "rec_" ++ NilEmpty.string_of_uint (Nat.to_uint n).

Definition getById {R} (rid : R -> string) (id : string) (rows : list R)
  : option R :=
  find (fun r => rid r =? id) rows.

Definition updateById {R} (rid : R -> string) (id : string) (patch : R -> R)
    (rows : list R) : list R :=
  map (fun r => if rid r =? id then patch r else r) rows.

Definition deleteWhere {R} (p : R -> bool) (rows : list R) : list R :=
  filter (fun r => negb (p r)) rows.

Fixpoint assignIds {R} (n : nat) (rows : list (string -> R)) : list R :=
  match rows with
  | [] => []
  | r :: rs => r (freshId n) :: assignIds (S n) rs
  end.

Definition set_cart (c : list CartItem.t) (n : nat) (s : t) : t :=
  mk (users s) (sellers s) (products s) c (orders s) (orderItems s)
     (reviews s) n.
Definition set_orders (o : list Order.t) (n : nat) (s : t) : t :=
  mk (users s) (sellers s) (products s) (cart s) o (orderItems s)
     (reviews s) n.
Definition set_orderItems (o : list OrderItem.t) (n : nat) (s : t) : t :=
  mk (users s) (sellers s) (products s) (cart s) (orders s) o
     (reviews s) n.
Definition set_products (p : list Product.t) (s : t) : t :=
  mk (users s) (sellers s) p (cart s) (orders s) (orderItems s)
     (reviews s) (nextId s).
Definition set_sellers (l : list Seller.t) (s : t) : t :=
  mk (users s) l (products s) (cart s) (orders s) (orderItems s)
     (reviews s) (nextId s).
Definition set_reviews (r : list Review.t) (n : nat) (s : t) : t :=
  mk (users s) (sellers s) (products s) (cart s) (orders s) (orderItems s)
     r n.

(** [blink.db.cart] *)
Definition cart_list (p : CartItem.t -> bool) (s : t)
  : list CartItem.t * t := (filter p (cart s), s).
Definition cart_create (row : string -> CartItem.t) (s : t)
  : CartItem.t * t :=
  let r := row (freshId (nextId s)) in
  (r, set_cart (cart s ++ [r]) (S (nextId s)) s).
Definition cart_update (id : string) (patch : CartItem.t -> CartItem.t)
    (s : t) : unit * t :=
  (tt, set_cart (updateById CartItem.id id patch (cart s)) (nextId s) s).
Definition cart_deleteMany (p : CartItem.t -> bool) (s : t) : unit * t :=
  (tt, set_cart (deleteWhere p (cart s)) (nextId s) s).

(** [blink.db.orders] *)
Definition orders_create (row : string -> Order.t) (s : t) : Order.t * t :=
  let r := row (freshId (nextId s)) in
  (r, set_orders (orders s ++ [r]) (S (nextId s)) s).
Definition orders_update (id : string) (patch : Order.t -> Order.t) (s : t)
  : unit * t :=
  (tt, set_orders (updateById Order.id id patch (orders s)) (nextId s) s).

(** [blink.db.orderItems] *)
Definition orderItems_createMany (rows : list (string -> OrderItem.t))
    (s : t) : unit * t :=
  (tt, set_orderItems (orderItems s ++ assignIds (nextId s) rows)
         (nextId s + length rows) s).

(** [blink.db.products] *)
Definition products_get (id : string) (s : t) : option Product.t * t :=
  (getById Product.id id (products s), s).
Definition products_update (id : string) (patch : Product.t -> Product.t)
    (s : t) : unit * t :=
  (tt, set_products (updateById Product.id id patch (products s)) s).

(** [blink.db.sellers] *)
Definition sellers_get (id : string) (s : t) : option Seller.t * t :=
  (getById Seller.id id (sellers s), s).
Definition sellers_update (id : string) (patch : Seller.t -> Seller.t)
    (s : t) : unit * t :=
  (tt, set_sellers (updateById Seller.id id patch (sellers s)) s).

(** [blink.db.reviews] *)
Definition reviews_create (row : string -> Review.t) (s : t)
  : Review.t * t :=
  let r := row (freshId (nextId s)) in
  (r, set_reviews (reviews s ++ [r]) (S (nextId s)) s).

(** [blink.db.cart.delete(id)] *)
Definition cart_delete (id : string) (s : t) : unit * t :=
  (tt, set_cart (deleteWhere (fun c => CartItem.id c =? id) (cart s))
         (nextId s) s).

(** [blink.db.orders.get], [blink.db.orderItems.list] *)
Definition orders_get (id : string) (s : t) : option Order.t * t :=
  (getById Order.id id (orders s), s).
Definition orderItems_list (p : OrderItem.t -> bool) (s : t)
  : list OrderItem.t * t := (filter p (orderItems s), s).

(** [blink.db.users.create], [blink.db.sellers.create] *)
Definition users_create (row : string -> User.t) (s : t) : User.t * t :=
  let r := row (freshId (nextId s)) in
  (r, mk (users s ++ [r]) (sellers s) (products s) (cart s) (orders s)
         (orderItems s) (reviews s) (S (nextId s))).
Definition sellers_create (row : string -> Seller.t) (s : t) : Seller.t * t :=
  let r := row (freshId (nextId s)) in
  (r, mk (users s) (sellers s ++ [r]) (products s) (cart s) (orders s)
         (orderItems s) (reviews s) (S (nextId s))).

End Store.

(** ** The world a handler runs in, and the handler monad *)

Inductive UiEvent :=
| ToastError (msg : string)
| ToastSuccess (msg : string)
| Navigate (path : string).

Inductive exn := StoreError | TypeError.

(** [faults]: one flag per coming service call, [true] when that call
    rejects (an exhausted schedule means no further rejection); a rejected
    call leaves the store as it was.  [entropy]: the suffixes the coming
    [Math.random().toString(36).substr(2, 9).toUpperCase()] yield.  [now]:
    what [new Date().toISOString()] yields.  [session]: what [blink.auth.me()]
    resolves to.  [ui]: toasts and navigations, latest first. *)
Record World := mkWorld {
  db : Store.t; faults : list bool; entropy : list string; now : string;
  session : option AuthUser.t; ui : list UiEvent }.

Definition set_db (s : Store.t) (w : World) : World :=
  mkWorld s (faults w) (entropy w) (now w) (session w) (ui w).
Definition set_faults (f : list bool) (w : World) : World :=
  mkWorld (db w) f (entropy w) (now w) (session w) (ui w).
Definition set_entropy (e : list string) (w : World) : World :=
  mkWorld (db w) (faults w) e (now w) (session w) (ui w).
Definition emit (e : UiEvent) (w : World) : World :=
  mkWorld (db w) (faults w) (entropy w) (now w) (session w) (e :: ui w).

Definition M (A : Type) : Type := World -> (exn + A) * World.

Definition ret {A} (a : A) : M A := fun w => (inr a, w).

Definition bind {A B} (c : M A) (k : A -> M B) : M B :=
  fun w =>
    match c w with
    | (inr a, w') => k a w'
    | (inl e, w') => (inl e, w')
    end.

Definition throw {A} (e : exn) : M A := fun w => (inl e, w).

(** A computation without effect on the world that returns or throws. *)
Definition lift {A} (r : exn + A) : M A := fun w => (r, w).

(** [try { body } catch (error) { handler }] *)
Definition tryCatch {A} (body : M A) (handler : exn -> M A) : M A :=
  fun w =>
    match body w with
    | (inr a, w') => (inr a, w')
    | (inl e, w') => handler e w'
    end.

Declare Scope eff_scope.
Delimit Scope eff_scope with eff.
Notation "x <- c ;; k" := (bind c (fun x => k))
  (at level 61, c at next level, right associativity) : eff_scope.
Notation "c ;; k" := (bind c (fun _ => k))
  (at level 61, right associativity) : eff_scope.
Local Open Scope eff_scope.

(** Modelled from the spec: the outcome of an awaited call to the hosted
    services (spec section 7: a store or network failure surfaces as an
    exception at the call site).  The call rejects when the schedule says
    so. *)
Definition service : M unit :=
  fun w =>
    match faults w with
    | true :: fs => (inl StoreError, set_faults fs w)
    | false :: fs => (inr tt, set_faults fs w)
    | [] => (inr tt, w)
    end.

(** [await blink.db.<collection>.<op>(...)] *)
Definition await {A} (op : Store.t -> A * Store.t) : M A :=
  service ;;
  fun w => let (a, s) := op (db w) in (inr a, set_db s w).

(** Modelled from the spec: the identity provider's current-session user
    (spec section 6), as [await blink.auth.me()] resolves to it. *)
Definition authMe : M (option AuthUser.t) :=
  service ;; fun w => (inr (session w), w).

Definition toastError (msg : string) : M unit :=
  fun w => (inr tt, emit (ToastError msg) w).
Definition toastSuccess (msg : string) : M unit :=
  fun w => (inr tt, emit (ToastSuccess msg) w).
Definition navigate (path : string) : M unit :=
  fun w => (inr tt, emit (Navigate path) w).

Definition random : M string :=
  fun w =>
    match entropy w with
    | s :: e => (inr s, set_entropy e w)
    | [] => (inr "", w)
    end.

Definition isoNow : M string := fun w => (inr (now w), w).

Fixpoint mapM {A B} (f : A -> M B) (l : list A) : M (list B) :=
  match l with
  | [] => ret []
  | a :: l' => b <- f a ;; bs <- mapM f l' ;; ret (b :: bs)
  end.

(** [for (const x of l) { body }] *)
Fixpoint forEachM {A} (body : A -> M unit) (l : list A) : M unit :=
  match l with
  | [] => ret tt
  | a :: l' => body a ;; forEachM body l'
  end.

(** [a || d] where [d] is a string literal. *)
Definition orStr (a : option string) (d : string) : string :=
  match JS.or a (Some d) with
  | Some s => s
  | None => d
  end.

(** ** Checkout page (src/pages/Checkout.tsx) *)

Module Checkout.

(** [loadCart]: the rows of the user's cart, each joined with the product
    its [productId] fetches.  The result is the new [cartItems] state
    ([prev] when the state is not set). *)
Definition loadCart (user : AuthUser.t) (prev : list CartLine.t)
  : M (list CartLine.t) :=
  tryCatch
    (items <- await (Store.cart_list
                (fun c => CartItem.userId c =? AuthUser.id user)) ;;
     match items with
     | [] => navigate "/home" ;; ret prev
     | _ =>
         mapM (fun item =>
                 product <- await (Store.products_get
                              (CartItem.productId item)) ;;
                 ret (CartLine.mk item product))
              items
     end)
    (fun _ => toastError "Failed to load cart" ;; ret prev).

(** [item.product?.sellerId], when truthy *)
Definition sellerIdOf (item : CartLine.t) : option string :=
  match CartLine.product item with
  | Some p =>
      if JS.truthy (Product.sellerId p) then Some (Product.sellerId p)
      else None
  | None => None
  end.

(** [item.product?.price || 0] *)
Definition priceOf (item : CartLine.t) : Q :=
  match CartLine.product item with
  | Some p => JS.orZero (Product.price p)
  | None => 0%Q
  end.

(** [item.product?.title || ''] *)
Definition titleOf (item : CartLine.t) : string :=
  orStr (option_map Product.title (CartLine.product item)) "".

(** [if (!itemsBySeller[sellerId]) itemsBySeller[sellerId] = [];
    itemsBySeller[sellerId].push(item)].  An own array and an inherited
    member are both truthy, so only an [undefined] slot is initialised; an
    inherited member has no [push], and the call throws a TypeError. *)
Definition push (sellerId : string) (item : CartLine.t)
    (itemsBySeller : JS.Obj (list CartLine.t))
  : exn + JS.Obj (list CartLine.t) :=
  match JS.get sellerId itemsBySeller with
  | JS.Own items => inr (JS.set sellerId (items ++ [item]) itemsBySeller)
  | JS.Inherited => inl TypeError
  | JS.Undefined => inr (JS.set sellerId [item] itemsBySeller)
  end.

(** The [cartItems.forEach] over [itemsBySeller]; an exception thrown by
    the callback ends it. *)
Fixpoint fillBySeller (cartItems : list CartLine.t)
    (itemsBySeller : JS.Obj (list CartLine.t))
  : exn + JS.Obj (list CartLine.t) :=
  match cartItems with
  | [] => inr itemsBySeller
  | item :: rest =>
      match sellerIdOf item with
      | Some sellerId =>
          match push sellerId item itemsBySeller with
          | inr itemsBySeller' => fillBySeller rest itemsBySeller'
          | inl e => inl e
          end
      | None => fillBySeller rest itemsBySeller
      end
  end.

(** [const itemsBySeller = {}; cartItems.forEach(...)] *)
Definition groupItems (cartItems : list CartLine.t)
  : exn + JS.Obj (list CartLine.t) :=
  fillBySeller cartItems [].

(** [items.reduce((acc, item) => acc + (item.product?.price || 0)
    * item.quantity, 0)] *)
Definition orderTotal (items : list CartLine.t) : Q :=
  fold_left
    (fun acc item => (acc + priceOf item * inject_Z (CartLine.quantity item))%Q)
    items 0%Q.

Definition newOrder (user : AuthUser.t) (address phone : string)
    (paymentMethod : PaymentMethod) (orderNumber sellerId : string)
    (total : Q) (createdAt updatedAt : string) (id : string) : Order.t :=
  Order.mk id
    (orStr (Some (AuthUser.id user)) "")
    orderNumber sellerId
    (orStr (JS.or (match AuthUser.profile user with
                   | Some p => User.displayName p
                   | None => None
                   end)
                  (AuthUser.displayName user))
           "Customer")
    phone address total pending paymentMethod
    (match paymentMethod with online => ps_paid | _ => ps_pending end)
    createdAt updatedAt.

Definition newOrderItem (user : AuthUser.t) (order : Order.t) (ts : string)
    (item : CartLine.t) (id : string) : OrderItem.t :=
  OrderItem.mk id
    (orStr (Some (AuthUser.id user)) "")
    (Order.id order)
    (CartLine.productId item)
    (titleOf item)
    (priceOf item)
    (CartLine.quantity item)
    (priceOf item * inject_Z (CartLine.quantity item))%Q
    ts.

(** One iteration of [for (const [sellerId, items] of
    Object.entries(itemsBySeller))]. *)
Definition placeOne (user : AuthUser.t) (address phone : string)
    (paymentMethod : PaymentMethod) (entry : string * list CartLine.t)
  : M unit :=
  let (sellerId, items) := entry in
  let total := orderTotal items in
  suffix <- random ;;
  createdAt <- isoNow ;;
  updatedAt <- isoNow ;;
  order <- await (Store.orders_create
             (newOrder user address phone paymentMethod
                ("CRFT-" ++ suffix) sellerId total createdAt updatedAt)) ;;
  ts <- isoNow ;;
  await (Store.orderItems_createMany
           (map (newOrderItem user order ts) items)).

Definition handlePlaceOrder (user : AuthUser.t) (address phone : string)
    (paymentMethod : PaymentMethod) (cartItems : list CartLine.t)
  : M unit :=
  if negb (JS.truthy address) || negb (JS.truthy phone)
  then toastError "Please fill in all delivery details"
  else
    tryCatch
      (itemsBySeller <- lift (groupItems cartItems) ;;
       forEachM (placeOne user address phone paymentMethod)
                (JS.entries itemsBySeller) ;;
       await (Store.cart_deleteMany
                (fun c => CartItem.userId c =? AuthUser.id user)) ;;
       toastSuccess "Order placed successfully!" ;;
       navigate "/orders")
      (fun _ => toastError "Failed to place order").


(** [total]: the amount the page displays,
    [cartItems.reduce((acc, item) => acc + (item.product?.price || 0)
    * item.quantity, 0)]. *)
Definition total (cartItems : list CartLine.t) : Q :=
  fold_left
    (fun acc item => (acc + priceOf item * inject_Z (CartLine.quantity item))%Q)
    cartItems 0%Q.

End Checkout.

(** ** Product page (ProductDetail) *)

Module ProductDetail.

Definition handleAddToCart (isAuthenticated : bool)
    (product : option Product.t) (quantity : Z) : M unit :=
  if negb isAuthenticated
  then toastError "Please login to add items to cart" ;; navigate "/auth"
  else
    match product with
    | None => ret tt
    | Some product =>
        tryCatch
          (me <- authMe ;;
           match JS.or (option_map AuthUser.id me) None with
           | None => toastError "Please login first" ;; navigate "/auth"
           | Some userId =>
               existing <- await (Store.cart_list
                             (fun c => (CartItem.userId c =? userId)
                                       && (CartItem.productId c
                                           =? Product.id product))) ;;
               match existing with
               | e0 :: _ =>
                   ts <- isoNow ;;
                   await (Store.cart_update (CartItem.id e0)
                            (CartItem.patchQuantity
                               (CartItem.quantity e0 + quantity) ts))
               | [] =>
                   ts <- isoNow ;;
                   _ <- await (Store.cart_create
                          (fun id => CartItem.mk id userId
                                       (Product.id product) quantity ts ts)) ;;
                   ret tt
               end ;;
               toastSuccess "Added to cart!"
           end)
          (fun _ => toastError "Failed to add to cart")
    end.

(** Successive clicks on "Add to Cart" with the quantities [qs]. *)
Definition addAll (isAuthenticated : bool) (product : option Product.t)
    (qs : list Z) : M unit :=
  forEachM (handleAddToCart isAuthenticated product) qs.


(** The quantity stepper: [setQuantity(Math.max(1, quantity - 1))] and
    [setQuantity(quantity + 1)]. *)
Definition decreaseQuantity (quantity : Z) : Z := Z.max 1 (quantity - 1).
Definition increaseQuantity (quantity : Z) : Z := (quantity + 1)%Z.

End ProductDetail.

(** ** Seller dashboard (src/pages/SellerDashboard.tsx) *)

Module SellerDashboard.

Definition statusName (s : OrderStatus) : string :=
  match s with
  | pending => "pending" | confirmed => "confirmed"
  | preparing => "preparing" | ready => "ready"
  | delivered => "delivered" | cancelled => "cancelled"
  end.

(** [updateOrderStatus]; the result is the new [orders] page state. *)
Definition updateOrderStatus (orderId : string) (newStatus : OrderStatus)
    (orders : list OrderWithItems.t) : M (list OrderWithItems.t) :=
  tryCatch
    (ts <- isoNow ;;
     await (Store.orders_update orderId (Order.patchStatus newStatus ts)) ;;
     toastSuccess ("Order marked as " ++ statusName newStatus) ;;
     ret (map (fun o =>
                 if Order.id (OrderWithItems.order o) =? orderId
                 then OrderWithItems.mk
                        (Order.withStatus newStatus (OrderWithItems.order o))
                        (OrderWithItems.items o)
                 else o)
              orders))
    (fun _ => toastError "Failed to update order status" ;; ret orders).

(** The buttons rendered on an order card: label and the status its
    [onClick] passes to [updateOrderStatus]. *)
Definition statusButtons (status : OrderStatus)
  : list (string * OrderStatus) :=
  (if OrderStatus_eqb status pending
   then [("Accept Order", confirmed)] else [])
  ++ (if OrderStatus_eqb status confirmed
      then [("Start Preparing", preparing)] else [])
  ++ (if OrderStatus_eqb status preparing
      then [("Ready for Delivery", ready)] else [])
  ++ (if OrderStatus_eqb status ready
      then [("Mark Delivered", delivered)] else []).




End SellerDashboard.

(** ** Review page (ReviewPage) *)

Module ReviewPage.

(** A value of the [reviews] page state. *)
Record Draft := mkDraft { rating : Z; comment : string }.

(** The body of [for (const item of (order.items || []))]. *)
Definition reviewItem (order : Order.t) (user : AuthUser.t)
    (reviews : JS.Obj Draft) (item : OrderItem.t) : M unit :=
  match JS.lookup (OrderItem.productId item) reviews with
  | None => throw TypeError
  | Some review =>
      ts <- isoNow ;;
      _ <- await (Store.reviews_create
             (fun id => Review.mk id (AuthUser.id user) (Order.id order)
                          (OrderItem.productId item) (Order.sellerId order)
                          (rating review) (comment review) ts)) ;;
      product <- await (Store.products_get (OrderItem.productId item)) ;;
      match product with
      | Some product =>
          let newTotalReviews := (Product.totalReviews product + 1)%Z in
          let newRatingAverage :=
            ((Product.ratingAverage product
              * inject_Z (Product.totalReviews product)
              + inject_Z (rating review))
             / inject_Z newTotalReviews)%Q in
          await (Store.products_update (OrderItem.productId item)
                   (Product.patchRating newRatingAverage newTotalReviews))
      | None => ret tt
      end
  end.

Definition itemsOf (order : OrderWithItems.t) : list OrderItem.t :=
  match OrderWithItems.items order with
  | Some items => items
  | None => []
  end.

Definition handleSubmit (order : option OrderWithItems.t)
    (user : option AuthUser.t) (reviews : JS.Obj Draft) : M unit :=
  match order, user with
  | Some order, Some user =>
      let o := OrderWithItems.order order in
      tryCatch
        (forEachM (reviewItem o user reviews) (itemsOf order) ;;
         seller <- await (Store.sellers_get (Order.sellerId o)) ;;
         match seller with
         | Some seller =>
             let newTotalReviews :=
               (Seller.totalReviews seller
                + Z.of_nat (length (itemsOf order)))%Z in
             await (Store.sellers_update (Order.sellerId o)
                      (Seller.patchTotalReviews newTotalReviews))
         | None => ret tt
         end ;;
         toastSuccess "Thank you for your feedback!" ;;
         navigate "/orders")
        (fun _ => toastError "Failed to submit reviews")
  | _, _ => ret tt
  end.


(** [loadOrder]; the result is the new ([order], [reviews]) page state
    ([prev] when the state is not set). *)
Definition loadOrder (orderId : option string)
    (prev : option OrderWithItems.t * JS.Obj Draft)
  : M (option OrderWithItems.t * JS.Obj Draft) :=
  match orderId with
  | None => ret prev
  | Some orderId =>
      tryCatch
        (result <- await (Store.orders_get orderId) ;;
         match result with
         | None =>
             toastError "Order not found" ;; navigate "/orders" ;; ret prev
         | Some result =>
             items <- await (Store.orderItems_list
                        (fun oi => OrderItem.orderId oi =? orderId)) ;;
             let initialReviews :=
               fold_left
                 (fun acc item =>
                    JS.set (OrderItem.productId item) (mkDraft 5 "") acc)
                 items [] in
             ret (Some (OrderWithItems.mk result (Some items)),
                  initialReviews)
         end)
        (fun _ => toastError "Failed to load order" ;; ret prev)
  end.

End ReviewPage.

(** ** Cart page (src/pages/Cart.tsx) *)

Module CartPage.

(** [updateQuantity]; the result is the new [cartItems] page state. *)
Definition updateQuantity (id : string) (newQuantity : Z)
    (cartItems : list CartLine.t) : M (list CartLine.t) :=
  if (newQuantity <? 1)%Z then ret cartItems
  else
    tryCatch
      (ts <- isoNow ;;
       await (Store.cart_update id (CartItem.patchQuantity newQuantity ts)) ;;
       ret (map (fun item =>
                   if CartLine.id item =? id
                   then CartLine.withQuantity newQuantity item
                   else item)
                cartItems))
      (fun _ => toastError "Failed to update quantity" ;; ret cartItems).

(** [removeItem]; the result is the new [cartItems] page state. *)
Definition removeItem (id : string) (cartItems : list CartLine.t)
  : M (list CartLine.t) :=
  tryCatch
    (await (Store.cart_delete id) ;;
     toastSuccess "Item removed" ;;
     ret (filter (fun item => negb (CartLine.id item =? id)) cartItems))
    (fun _ => toastError "Failed to remove item" ;; ret cartItems).

(** The minus and plus buttons of a line:
    [updateQuantity(item.id, item.quantity - 1)] and
    [updateQuantity(item.id, item.quantity + 1)]. *)
Definition clickMinus (item : CartLine.t) (cartItems : list CartLine.t)
  : M (list CartLine.t) :=
  updateQuantity (CartLine.id item) (CartLine.quantity item - 1) cartItems.
Definition clickPlus (item : CartLine.t) (cartItems : list CartLine.t)
  : M (list CartLine.t) :=
  updateQuantity (CartLine.id item) (CartLine.quantity item + 1) cartItems.

End CartPage.

(** ** Admin panel (AdminPanel) *)

Module AdminPanel.






End AdminPanel.

(** ** Sign-in page (src/pages/Auth.tsx) *)

Module AuthPage.

(** [s.split('@')[0]] *)
Fixpoint beforeAt (s : string) : string :=
  match s with
  | EmptyString => EmptyString
  | String c s' => if (c =? "@")%char then EmptyString else String c (beforeAt s')
  end.

(** [(localStorage.getItem('selectedRole') as UserRole) || 'buyer'] *)
Definition selectedRole (stored : option string) : string :=
  orStr stored "buyer".

Definition newUser (user : AuthUser.t) (role ts : string) (id : string)
  : User.t :=
  User.mk id (AuthUser.id user) (AuthUser.email user)
    (Some (orStr (AuthUser.displayName user) (beforeAt (AuthUser.email user))))
    role None None ts ts.

Definition newSeller (user : AuthUser.t) (ts : string) (id : string)
  : Seller.t :=
  Seller.mk id (AuthUser.id user) None vs_pending 0%Q 0%Z 0%Z 0%Q "1" ts ts.

Definition handleProfileCheck (user : option AuthUser.t)
    (stored : option string) : M unit :=
  match user with
  | None => ret tt
  | Some user =>
      match AuthUser.profile user with
      | Some _ => navigate "/home"
      | None =>
          tryCatch
            (ts <- isoNow ;;
             _ <- await (Store.users_create
                    (newUser user (selectedRole stored) ts)) ;;
             (if selectedRole stored =? "seller"
              then ts' <- isoNow ;;
                   _ <- await (Store.sellers_create (newSeller user ts')) ;;
                   ret tt
              else ret tt) ;;
             navigate "/home")
            (fun _ => ret tt)
      end
  end.

End AuthPage.

(** ** Product form (src/pages/EditProduct.tsx): the image lists *)

Module EditProduct.

(** The three image states of the form.  [F] is the browser's [File]. *)
Record Images (F : Type) := mkImages {
  imagePreviews : list string;
  existingImages : list string;
  newImageFiles : list F }.
Arguments mkImages {F}.
Arguments imagePreviews {F}.
Arguments existingImages {F}.
Arguments newImageFiles {F}.

(** [xs.filter((_, i) => i !== index)], [index] any integer *)
Fixpoint dropAt {A} (index : Z) (xs : list A) : list A :=
  match xs with
  | [] => []
  | x :: xs' =>
      if (index =? 0)%Z then dropAt (index - 1) xs' 
      else x :: dropAt (index - 1) xs'
  end.

(** [existingImages.includes(url)] *)
Definition includes (url : string) (xs : list string) : bool :=
  existsb (fun x => x =? url) xs.

Definition removeImage {F} (index : nat) (st : Images F) : Images F :=
  match nth_error (imagePreviews st) index with
  | Some imageUrl =>
      if includes imageUrl (existingImages st)
      then mkImages
             (dropAt (Z.of_nat index) (imagePreviews st))
             (filter (fun img => negb (img =? imageUrl)) (existingImages st))
             (newImageFiles st)
      else mkImages
             (dropAt (Z.of_nat index) (imagePreviews st))
             (existingImages st)
             (dropAt (Z.of_nat index - Z.of_nat (length (existingImages st)))
                     (newImageFiles st))
  | None =>
      (* [imagePreviews[index]] is [undefined], which no list includes *)
      mkImages
        (dropAt (Z.of_nat index) (imagePreviews st))
        (existingImages st)
        (dropAt (Z.of_nat index - Z.of_nat (length (existingImages st)))
                (newImageFiles st))
  end.

(** [handleImageChange] for the picked [files], whose object URLs are
    [urls] ([URL.createObjectURL], one per file). *)
Definition handleImageChange {F} (files : list F) (urls : list string)
    (st : Images F) : Images F :=
  mkImages (imagePreviews st ++ urls) (existingImages st)
           (newImageFiles st ++ files).

End EditProduct.

(** ** Vocabulary of the statements *)

(** No coming service call rejects. *)
Definition calm (w : World) : Prop := Forall (fun b => b = false) (faults w).

Module CheckoutSpec.
Import Checkout.

(** The line resolves to a seller id. *)
Definition resolves (item : CartLine.t) : bool :=
match sellerIdOf item with Some _ => true | None => false end.

(** The product lookup of the line yields no seller id: there is no
    product, or the product has no seller id. *)
Definition unresolved (item : CartLine.t) : Prop :=
match CartLine.product item with
| Some p => Product.sellerId p = ""
| None => True
end.

(** The seller id of the line is the name of an inherited member. *)
Definition clashes (item : CartLine.t) : bool :=
match sellerIdOf item with
| Some sellerId => JS.inherits sellerId
| None => false
end.

(** The lines of the cart that resolve to the seller id [s], in cart
    order. *)
Definition linesOf (s : string) (cartItems : list CartLine.t)
  : list CartLine.t :=
  filter (fun item => match sellerIdOf item with
                      | Some sellerId => sellerId =? s
                      | None => false
                      end) cartItems.

(** The entry of [k] extended by [item]; a new last entry when [k] has
    none. *)
Fixpoint extend (k : string) (item : CartLine.t)
    (o : JS.Obj (list CartLine.t)) : JS.Obj (list CartLine.t) :=
match o with
| [] => [(k, [item])]
| (k', items) :: o' =>
    if k =? k' then (k', items ++ [item]) :: o'
    else (k', items) :: extend k item o'
end.

Definition groupStep (o : JS.Obj (list CartLine.t)) (item : CartLine.t) :=
match sellerIdOf item with
| Some sellerId => extend sellerId item o
| None => o
end.

(** The partition of the resolving lines by seller id, sellers in order of
    first appearance: what [itemsBySeller] holds after the [forEach] when no
    line clashes ([groupItems_spec]). *)
Definition groupBySeller (cartItems : list CartLine.t)
  : JS.Obj (list CartLine.t) :=
  fold_left groupStep cartItems [].

(** [oi] is the snapshot of the cart line [item] under the order [o]. *)
Definition snapshotOf (o : Order.t) (item : CartLine.t) (oi : OrderItem.t)
  : Prop :=
  OrderItem.orderId oi = Order.id o
  /\ OrderItem.productId oi = CartLine.productId item
  /\ OrderItem.productTitle oi = titleOf item
  /\ OrderItem.productPrice oi = priceOf item
  /\ OrderItem.quantity oi = CartLine.quantity item
  /\ OrderItem.subtotal oi
     = (priceOf item * inject_Z (CartLine.quantity item))%Q.

(** The order and the order items one loop iteration stores for an entry
    of [itemsBySeller]. *)
Definition createdFor (entry : string * list CartLine.t)
    (c : Order.t * list OrderItem.t) : Prop :=
  Order.sellerId (fst c) = fst entry
  /\ Order.totalAmount (fst c) = orderTotal (snd entry)
  /\ Order.status (fst c) = pending
  /\ Forall2 (snapshotOf (fst c)) (snd entry) (snd c).

(** Every line of an entry of [itemsBySeller] resolves to the entry's key. *)
Definition scoped (entry : string * list CartLine.t) : Prop :=
  Forall (fun item => sellerIdOf item = Some (fst entry)) (snd entry).

(** What a loop iteration that stored an order leaves behind, completed or
    not: the order of its entry, with the snapshots of the entry or, when
    the batch call rejected, with no order item. *)
Definition filedFor (entry : string * list CartLine.t)
    (c : Order.t * list OrderItem.t) : Prop :=
  Order.sellerId (fst c) = fst entry
  /\ Order.totalAmount (fst c) = orderTotal (snd entry)
  /\ (snd c = [] \/ Forall2 (snapshotOf (fst c)) (snd entry) (snd c)).

Definition filedFrom (entries : list (string * list CartLine.t))
    (c : Order.t * list OrderItem.t) : Prop :=
  exists entry, In entry entries /\ filedFor entry c.

(** The run from [w] to [w'] reported success: its last two UI events. *)
Definition placed (w w' : World) : Prop :=
  ui w' = Navigate "/orders" :: ToastSuccess "Order placed successfully!"
          :: ui w.

(** What a cart line and an order item say about the purchase: product,
    quantity and unit price. *)
Definition lineOfCart (item : CartLine.t) : string * Z * Q :=
  (CartLine.productId item, CartLine.quantity item, priceOf item).

Definition lineOfItem (oi : OrderItem.t) : string * Z * Q :=
  (OrderItem.productId oi, OrderItem.quantity oi, OrderItem.productPrice oi).

(** [sum(orderItem.subtotal)], added left to right from 0. *)
Definition sumSubtotals (ois : list OrderItem.t) : Q :=
  fold_left (fun acc oi => (acc + OrderItem.subtotal oi)%Q) ois 0%Q.

(** The order items stored under an order id. *)
Definition itemsOfOrder (id : string) (ois : list OrderItem.t)
  : list OrderItem.t :=
  filter (fun oi => OrderItem.orderId oi =? id) ois.

(** Two store states agree on every collection that is not [cart], [orders]
    or [orderItems]. *)
Definition sameCatalog (s s' : Store.t) : Prop :=
  Store.users s' = Store.users s
  /\ Store.sellers s' = Store.sellers s
  /\ Store.products s' = Store.products s
  /\ Store.reviews s' = Store.reviews s.

(** The filter [{ where: { user_id: user.id } }]. *)
Definition ofBuyer (user : AuthUser.t) (c : CartItem.t) : bool :=
  CartItem.userId c =? AuthUser.id user.

End CheckoutSpec.

Module DashboardSpec.

(** The status stored for an order id. *)
Definition storedStatus (orderId : string) (w : World) : option OrderStatus :=
  option_map Order.status (Store.getById Order.id orderId (Store.orders (db w))).

End DashboardSpec.

Module CartSpec.

(** The cart rows of a (user, product) pair. *)
Definition rowsOf (userId productId : string) (cart : list CartItem.t)
  : list CartItem.t :=
  filter (fun c => (CartItem.userId c =? userId)
                   && (CartItem.productId c =? productId)) cart.

(** [q1 + ... + qk] *)
Definition total (qs : list Z) : Z := fold_left Z.add qs 0%Z.

End CartSpec.

Module ReviewSpec.

(** The run from [w] to [w'] reported success: its last two UI events. *)
Definition submitted (w w' : World) : Prop :=
  ui w' = Navigate "/orders" :: ToastSuccess "Thank you for your feedback!"
          :: ui w.

(** The product after one review: the patch [products.update] receives,
    computed from the product that [products.get] returned. *)
Definition reviewed (review : ReviewPage.Draft) (product : Product.t)
  : Product.t :=
  Product.patchRating
    ((Product.ratingAverage product * inject_Z (Product.totalReviews product)
      + inject_Z (ReviewPage.rating review))
     / inject_Z (Product.totalReviews product + 1))%Q
    (Product.totalReviews product + 1)%Z
    product.


End ReviewSpec.

Module MoreSpec.

(** What every order created by a checkout carries. *)
Definition stamped (user : AuthUser.t) (address phone : string)
    (pm : PaymentMethod) (o : Order.t) : Prop :=
  Order.userId o = AuthUser.id user
  /\ Order.buyerPhone o = phone
  /\ Order.deliveryAddress o = address
  /\ Order.status o = pending
  /\ Order.paymentMethod o = pm
  /\ Order.paymentStatus o
     = match pm with online => ps_paid | cash_on_delivery => ps_pending end
  /\ Order.buyerName o <> ""
  /\ String.prefix "CRFT-" (Order.orderNumber o) = true.

(** At most one cart row per (user, product) pair. *)
Definition uniquePairs (cart : list CartItem.t) : Prop :=
  NoDup (map (fun c => (CartItem.userId c, CartItem.productId c)) cart).

(** Every cart row has a quantity of at least 1. *)
Definition positive (cart : list CartItem.t) : Prop :=
  Forall (fun c => (1 <= CartItem.quantity c)%Z) cart.

(** The rows with a given identifier. *)
Definition rowsWithId (id : string) (cart : list CartItem.t)
  : list CartItem.t :=
  filter (fun c => CartItem.id c =? id) cart.

(** The quantity shown by the product page's stepper after some clicks
    ([true] is the plus button), starting from [q]. *)
Definition stepper (clicks : list bool) (q : Z) : Z :=
  fold_left (fun q (up : bool) =>
               if up then ProductDetail.increaseQuantity q
               else ProductDetail.decreaseQuantity q)
            clicks q.

(** The page line shows the stored row: the row stored under the line's
    id has the line's product and quantity. *)
Definition shows (cart : list CartItem.t) (line : CartLine.t) : Prop :=
  exists row,
    Store.getById CartItem.id (CartLine.id line) cart = Some row
    /\ CartItem.productId row = CartLine.productId line
    /\ CartItem.quantity row = CartLine.quantity line.

(** The dashboard's [orders] state shows, for each order, the status stored
    under the order's id. *)
Definition agrees (w : World) (pageOrders : list OrderWithItems.t) : Prop :=
  Forall (fun po =>
            DashboardSpec.storedStatus (Order.id (OrderWithItems.order po)) w
            = Some (Order.status (OrderWithItems.order po)))
         pageOrders.





(** The review row stored for an order item: who, which order, product and
    seller, and the rating and comment the form holds for the product. *)
Definition reviewFor (order : Order.t) (user : AuthUser.t)
    (reviews : JS.Obj ReviewPage.Draft) (item : OrderItem.t) (r : Review.t)
  : Prop :=
  Review.userId r = AuthUser.id user
  /\ Review.orderId r = Order.id order
  /\ Review.productId r = OrderItem.productId item
  /\ Review.sellerId r = Order.sellerId order
  /\ exists d, JS.lookup (OrderItem.productId item) reviews = Some d
               /\ Review.rating r = ReviewPage.rating d
               /\ Review.comment r = ReviewPage.comment d.

(** What a review submission never changes of a product. *)
Definition catalogue (p : Product.t)
  : string * string * string * Q * string * Z :=
  (Product.id p, Product.sellerId p, Product.title p, Product.price p,
   Product.isAvailable p, Product.stockQuantity p).


(** Opening the review page for an order and submitting the form as
    loaded. *)
Definition loadAndSubmit (orderId : string) (user : AuthUser.t) : M unit :=
  bind (ReviewPage.loadOrder (Some orderId) (None, []))
       (fun st => ReviewPage.handleSubmit (fst st) (Some user) (snd st)).

(** The image lists of the edit form are aligned: the previews are the
    kept stored images, without repetition, followed by one preview per
    picked file, none of which is a stored image. *)
Definition aligned {F} (st : EditProduct.Images F) (newPreviews : list string)
  : Prop :=
  EditProduct.imagePreviews st = EditProduct.existingImages st ++ newPreviews
  /\ length newPreviews = length (EditProduct.newImageFiles st)
  /\ NoDup (EditProduct.existingImages st)
  /\ Forall (fun u => ~ In u (EditProduct.existingImages st)) newPreviews.

(** The list without its [i]-th element. *)
Definition without {A} (i : nat) (xs : list A) : list A :=
  firstn i xs ++ skipn (S i) xs.

End MoreSpec.

(** * Verification *)

(** ** List and store facts *)

Section ListFacts.
Context {A : Type}.

Lemma filter_map_invariant (p : A -> bool) (f : A -> A) (l : list A) :
  (forall x, p (f x) = p x) ->
  filter p (map f l) = map f (filter p l).
Proof.
  intros Hp. induction l as [|x l IH]; simpl; [reflexivity|].
  rewrite Hp. destruct (p x); simpl; now rewrite IH.
Qed.

Lemma filter_none (p : A -> bool) (l : list A) :
  Forall (fun x => p x = false) l -> filter p l = [].
Proof.
  induction 1 as [|x l Hx _ IH]; simpl; [reflexivity|]. now rewrite Hx.
Qed.

Lemma filter_all (p : A -> bool) (l : list A) :
  Forall (fun x => p x = true) l -> filter p l = l.
Proof.
  induction 1 as [|x l Hx _ IH]; simpl; [reflexivity|].
  rewrite Hx. now f_equal.
Qed.

End ListFacts.

Lemma insertByIndex_perm {E} (x : N * E) (l : list (N * E)) :
  Permutation (JS.insertByIndex x l) (x :: l).
Proof.
  induction l as [|y l IH]; simpl; [reflexivity|].
  destruct (fst x <=? fst y)%N; [reflexivity|].
  rewrite IH. apply perm_swap.
Qed.

Lemma sortByIndex_perm {E} (l : list (N * E)) :
  Permutation (JS.sortByIndex l) l.
Proof.
  induction l as [|x l IH]; simpl; [reflexivity|].
  rewrite insertByIndex_perm. now constructor.
Qed.

(** [Object.entries] enumerates every own entry once. *)
Lemma entries_perm {V} (o : JS.Obj V) : Permutation (JS.entries o) o.
Proof.
  unfold JS.entries. rewrite sortByIndex_perm.
  induction o as [|kv o IH]; simpl; [reflexivity|].
  destruct (JS.arrayIndex (fst kv)); simpl.
  - now constructor.
  - rewrite <- Permutation_middle. now constructor.
Qed.

Lemma freshId_inj (n m : nat) : Store.freshId n = Store.freshId m -> n = m.
Proof.
  unfold Store.freshId. simpl. intros H. injection H as H.
  apply Unsigned.to_uint_inj.
  assert (E : Some (Nat.to_uint n) = Some (Nat.to_uint m))
    by (rewrite <- !NilEmpty.usu; now rewrite H).
  now injection E.
Qed.

Section Collections.
Context {R : Type} (rid : R -> string).

Lemma getById_update (id id' : string) (patch : R -> R) (rows : list R) :
  (forall r, rid (patch r) = rid r) ->
  Store.getById rid id (Store.updateById rid id' patch rows)
  = if id =? id' then option_map patch (Store.getById rid id rows)
    else Store.getById rid id rows.
Proof.
  intros Hid. unfold Store.getById, Store.updateById.
  induction rows as [|r rows IH]; simpl.
  - now destruct (id =? id').
  - destruct (String.eqb_spec (rid r) id') as [E1|E1].
    + rewrite Hid.
      destruct (String.eqb_spec (rid r) id) as [E2|E2].
      * subst. rewrite String.eqb_refl. reflexivity.
      * rewrite IH. reflexivity.
    + destruct (String.eqb_spec (rid r) id) as [E2|E2].
      * subst id. destruct (String.eqb_spec (rid r) id'); congruence.
      * apply IH.
Qed.

Lemma assignIds_length (n : nat) (rows : list (string -> R)) :
  length (Store.assignIds n rows) = length rows.
Proof.
  revert n. induction rows; intros; simpl; [reflexivity|]. now rewrite IHrows.
Qed.

End Collections.

(** ** Equations of the handler monad *)

Lemma service_eq (w : World) :
  service w
  = (if hd false (faults w) then inl StoreError else inr tt,
     set_faults (tl (faults w)) w).
Proof.
  destruct w as [d f e n s u]. unfold service, set_faults; simpl.
  destruct f as [|[] f]; reflexivity.
Qed.

Lemma await_eq {A} (op : Store.t -> A * Store.t) (w : World) :
  await op w
  = if hd false (faults w)
    then (inl StoreError, set_faults (tl (faults w)) w)
    else (inr (fst (op (db w))),
          set_db (snd (op (db w))) (set_faults (tl (faults w)) w)).
Proof.
  unfold await, bind. rewrite service_eq.
  destruct (hd false (faults w)); [reflexivity|].
  simpl. now destruct (op (db w)).
Qed.

Lemma authMe_eq (w : World) :
  authMe w
  = if hd false (faults w)
    then (inl StoreError, set_faults (tl (faults w)) w)
    else (inr (session w), set_faults (tl (faults w)) w).
Proof.
  unfold authMe, bind. rewrite service_eq.
  destruct (hd false (faults w)); reflexivity.
Qed.


(** ** Checkout: grouping by seller *)

Module CheckoutFacts.
Import Checkout CheckoutSpec.

Lemma extend_keys_in k item o k' :
  In k' (JS.keys (extend k item o)) <-> k' = k \/ In k' (JS.keys o).
Proof.
  induction o as [|[k0 items] o IH]; simpl.
  - intuition.
  - destruct (String.eqb_spec k k0) as [->|Hne]; simpl.
    + intuition.
    + rewrite IH. intuition.
Qed.

Lemma extend_keys_nodup k item o :
  NoDup (JS.keys o) -> NoDup (JS.keys (extend k item o)).
Proof.
  induction o as [|[k0 items] o IH]; simpl; intros Hnd.
  - constructor; [intros []|constructor].
  - inversion Hnd as [|? ? Hnotin Hnd']; subst.
    destruct (String.eqb_spec k k0) as [->|Hne]; simpl.
    + now constructor.
    + constructor; [|now apply IH].
      fold (JS.keys (extend k item o)). rewrite extend_keys_in.
      intros [E|Hin]; [congruence|]. now apply Hnotin.
Qed.

Lemma extend_items_perm k item o :
  Permutation (concat (map snd (extend k item o)))
              (item :: concat (map snd o)).
Proof.
  induction o as [|[k0 items] o IH]; simpl.
  - reflexivity.
  - destruct (k =? k0); simpl.
    + rewrite <- app_assoc. simpl. symmetry. apply Permutation_middle.
    + rewrite IH. symmetry. apply Permutation_middle.
Qed.

Lemma group_keys_nodup cart o :
  NoDup (JS.keys o) -> NoDup (JS.keys (fold_left groupStep cart o)).
Proof.
  revert o. induction cart as [|item cart IH]; simpl; intros o Hnd; [easy|].
  apply IH. unfold groupStep. destruct (sellerIdOf item); [|easy].
  now apply extend_keys_nodup.
Qed.

Lemma group_keys_in cart o k :
  In k (JS.keys (fold_left groupStep cart o))
  <-> In k (JS.keys o)
      \/ exists item, In item cart /\ sellerIdOf item = Some k.
Proof.
  revert o. induction cart as [|item cart IH]; simpl; intros o.
  - split; [now left|]. intros [H|(x & [] & _)]; exact H.
  - rewrite IH. unfold groupStep at 1.
    destruct (sellerIdOf item) as [s|] eqn:Es.
    + rewrite extend_keys_in. split.
      * intros [[->|H]|(x & Hx & Hs)]; eauto.
      * intros [H|(x & [<-|Hx] & Hs)]; eauto.
        left; left. congruence.
    + split.
      * intros [H|(x & Hx & Hs)]; eauto.
      * intros [H|(x & [<-|Hx] & Hs)]; eauto. congruence.
Qed.

Lemma group_items_perm cart o :
  Permutation (concat (map snd (fold_left groupStep cart o)))
              (concat (map snd o) ++ filter resolves cart).
Proof.
  revert o. induction cart as [|item cart IH]; simpl; intros o.
  - now rewrite app_nil_r.
  - rewrite IH. unfold groupStep at 1, resolves at 2.
    destruct (sellerIdOf item).
    + rewrite extend_items_perm. simpl. apply Permutation_middle.
    + reflexivity.
Qed.

Lemma groupBySeller_nodup cart : NoDup (JS.keys (groupBySeller cart)).
Proof. apply (group_keys_nodup cart []). constructor. Qed.

Lemma groupBySeller_keys cart k :
  In k (JS.keys (groupBySeller cart))
  <-> exists item, In item cart /\ sellerIdOf item = Some k.
Proof.
  unfold groupBySeller. rewrite group_keys_in. simpl. intuition.
Qed.

Lemma groupBySeller_items cart :
  Permutation (concat (map snd (groupBySeller cart))) (filter resolves cart).
Proof. apply (group_items_perm cart []). Qed.

(** A line without seller id leaves [itemsBySeller] as it is. *)
Lemma groupBySeller_skip l1 item l2 :
  sellerIdOf item = None ->
  groupBySeller (l1 ++ item :: l2) = groupBySeller (l1 ++ l2).
Proof.
  intros Hs. unfold groupBySeller. rewrite !fold_left_app. simpl.
  unfold groupStep at 2. now rewrite Hs.
Qed.

(** The lookup on the guard side of [sellerIdOf]: a line resolves exactly
    when it has a product with a non-empty seller id. *)
Lemma unresolved_sellerIdOf item : unresolved item -> sellerIdOf item = None.
Proof.
  unfold unresolved, sellerIdOf.
  destruct (CartLine.product item) as [p|]; [|reflexivity].
  intros ->. reflexivity.
Qed.

(** *** The assignment and the [push] on a plain object *)

Lemma lookup_notin {V} k (o : JS.Obj V) :
  JS.lookup k o = None <-> ~ In k (JS.keys o).
Proof.
  induction o as [|[k0 v] o IH]; simpl; [tauto|].
  destruct (String.eqb_spec k k0) as [->|Hne].
  - split; [discriminate|]. intros H. exfalso. apply H. now left.
  - rewrite IH. split.
    + intros H [E|Hin]; [congruence|contradiction].
    + intros H Hin. apply H. now right.
Qed.

Lemma lookup_in {V} k (v : V) (o : JS.Obj V) :
  NoDup (JS.keys o) -> In (k, v) o -> JS.lookup k o = Some v.
Proof.
  induction o as [|[k0 v0] o IH]; simpl; intros Hnd Hin; [contradiction|].
  inversion Hnd as [|? ? Hnotin Hnd']; subst.
  destruct Hin as [E|Hin].
  - injection E as -> ->. now rewrite String.eqb_refl.
  - destruct (String.eqb_spec k k0) as [->|Hne]; [|now apply IH].
    exfalso. apply Hnotin. change k0 with (fst (k0, v)). now apply in_map.
Qed.

Lemma extend_set k item o :
  extend k item o
  = match JS.lookup k o with
    | Some items => JS.set k (items ++ [item]) o
    | None => JS.set k [item] o
    end.
Proof.
  induction o as [|[k0 items] o IH]; simpl; [reflexivity|].
  destruct (k =? k0); [reflexivity|].
  rewrite IH. now destruct (JS.lookup k o).
Qed.

(** On a seller id that names no inherited member, [push] extends the
    entry of the seller. *)
Lemma push_extend k item o :
  JS.inherits k = false -> push k item o = inr (extend k item o).
Proof.
  intros Hk. unfold push, JS.get. rewrite extend_set, Hk.
  now destruct (JS.lookup k o).
Qed.

(** On the name of an inherited member, which is no own key, [push]
    throws. *)
Lemma push_clash k item o :
  JS.inherits k = true -> ~ In k (JS.keys o) -> push k item o = inl TypeError.
Proof.
  intros Hk Hnot. apply lookup_notin in Hnot.
  unfold push, JS.get. now rewrite Hnot, Hk.
Qed.

Lemma fillBySeller_spec cart :
  forall o,
    Forall (fun k => JS.inherits k = false) (JS.keys o) ->
    fillBySeller cart o
    = if existsb clashes cart then inl TypeError
      else inr (fold_left groupStep cart o).
Proof.
  induction cart as [|item cart IH]; intros o Ho; simpl; [reflexivity|].
  unfold clashes at 1, groupStep at 2.
  destruct (sellerIdOf item) as [k|]; [|now apply IH].
  destruct (JS.inherits k) eqn:Hk; simpl.
  - rewrite push_clash; trivial.
    intros Hin. rewrite Forall_forall in Ho. specialize (Ho _ Hin).
    congruence.
  - rewrite push_extend by exact Hk. apply IH.
    rewrite Forall_forall in *. intros k' Hk'.
    apply extend_keys_in in Hk'. destruct Hk' as [->|Hk']; auto.
Qed.

(** The [forEach] throws exactly when a line clashes; otherwise it leaves
    the partition by seller id. *)
Lemma groupItems_spec cart :
  groupItems cart
  = if existsb clashes cart then inl TypeError else inr (groupBySeller cart).
Proof. apply fillBySeller_spec. constructor. Qed.

Lemma groupItems_skip l1 item l2 :
  sellerIdOf item = None ->
  groupItems (l1 ++ item :: l2) = groupItems (l1 ++ l2).
Proof.
  intros Hs. rewrite !groupItems_spec, !existsb_app. simpl.
  unfold clashes at 2. rewrite Hs. simpl.
  now rewrite groupBySeller_skip.
Qed.

(** *** The lines of an entry, in cart order *)

Lemma lookup_extend k k' item o :
  JS.lookup k (extend k' item o)
  = if k =? k'
    then Some (match JS.lookup k o with
               | Some items => items ++ [item]
               | None => [item]
               end)
    else JS.lookup k o.
Proof.
  induction o as [|[k0 items] o IH]; simpl.
  - destruct (String.eqb_spec k k'); reflexivity.
  - destruct (String.eqb_spec k' k0) as [->|Hne]; simpl.
    + destruct (String.eqb_spec k k0); reflexivity.
    + destruct (String.eqb_spec k k0) as [->|Hne'].
      * destruct (String.eqb_spec k0 k'); [congruence|reflexivity].
      * exact IH.
Qed.

Lemma group_lookup cart :
  forall o k,
    JS.lookup k (fold_left groupStep cart o)
    = match JS.lookup k o, linesOf k cart with
      | Some items, more => Some (items ++ more)
      | None, [] => None
      | None, more => Some more
      end.
Proof.
  induction cart as [|item cart IH]; intros o k; simpl.
  - destruct (JS.lookup k o); [now rewrite app_nil_r|reflexivity].
  - rewrite IH. unfold groupStep.
    destruct (sellerIdOf item) as [s|]; [|reflexivity].
    rewrite lookup_extend. rewrite (String.eqb_sym s k).
    destruct (k =? s); [|reflexivity].
    destruct (JS.lookup k o) as [items|]; simpl.
    + now rewrite <- app_assoc.
    + reflexivity.
Qed.

(** Every entry of the partition holds the lines of its seller, in cart
    order. *)
Lemma entries_lines cart :
  Forall (fun e => snd e = linesOf (fst e) cart)
         (JS.entries (groupBySeller cart)).
Proof.
  rewrite Forall_forall. intros [k items] He. simpl.
  apply (Permutation_in _ (entries_perm _)) in He.
  apply lookup_in in He; [|apply groupBySeller_nodup].
  unfold groupBySeller in He. rewrite group_lookup in He. simpl in He.
  destruct (linesOf k cart); congruence.
Qed.

End CheckoutFacts.

(** ** Checkout: the order loop *)

Module PlaceFacts.
Import Checkout CheckoutSpec.

Section Loop.
Variables (user : AuthUser.t) (address phone : string)
          (paymentMethod : PaymentMethod).

Local Abbreviation place := (placeOne user address phone paymentMethod).

(** Whatever the outcome, one iteration touches only [orders] and
    [orderItems], and emits no UI event. *)
Lemma placeOne_frame entry w :
  let w1 := snd (place entry w) in
  Store.users (db w1) = Store.users (db w)
  /\ Store.sellers (db w1) = Store.sellers (db w)
  /\ Store.products (db w1) = Store.products (db w)
  /\ Store.cart (db w1) = Store.cart (db w)
  /\ Store.reviews (db w1) = Store.reviews (db w)
  /\ ui w1 = ui w.
Proof.
  destruct entry as [sid items]. unfold place, placeOne, bind, random, isoNow.
  destruct (entropy w); rewrite await_eq; simpl;
    destruct (hd false (faults w)); simpl; auto 10;
    rewrite await_eq; simpl;
    destruct (hd false (tl (faults w))); simpl; auto 10.
Qed.

Lemma snapshots o ts items n :
  Forall2 (snapshotOf o) items
    (Store.assignIds n (map (newOrderItem user o ts) items)).
Proof.
  revert n. induction items as [|item items IH]; intros n; simpl;
    constructor; [|apply IH].
  unfold snapshotOf, newOrderItem; simpl. repeat split.
Qed.

(** A completed iteration appended one order and its snapshots. *)
Lemma placeOne_ok entry w w1 :
  place entry w = (inr tt, w1) ->
  exists o ois,
    Store.orders (db w1) = Store.orders (db w) ++ [o]
    /\ Store.orderItems (db w1) = Store.orderItems (db w) ++ ois
    /\ createdFor entry (o, ois)
    /\ Order.id o = Store.freshId (Store.nextId (db w))
    /\ (Store.nextId (db w) < Store.nextId (db w1))%nat.
Proof.
  destruct entry as [sid items]. unfold place, placeOne, bind, random, isoNow.
  destruct (entropy w); rewrite await_eq; simpl;
    destruct (hd false (faults w)); simpl; try discriminate;
    rewrite await_eq; simpl;
    destruct (hd false (tl (faults w))); simpl; try discriminate;
    intros H; injection H as <-; simpl;
    (do 2 eexists; repeat split; [apply snapshots | lia]).
Qed.

Lemma placeAll_frame entries w :
  let w1 := snd (forEachM place entries w) in
  Store.users (db w1) = Store.users (db w)
  /\ Store.sellers (db w1) = Store.sellers (db w)
  /\ Store.products (db w1) = Store.products (db w)
  /\ Store.cart (db w1) = Store.cart (db w)
  /\ Store.reviews (db w1) = Store.reviews (db w)
  /\ ui w1 = ui w.
Proof.
  revert w. induction entries as [|entry entries IH]; intros w; simpl.
  - auto 10.
  - unfold bind. pose proof (placeOne_frame entry w) as F.
    destruct (place entry w) as [[e|[]] w1]; simpl in F.
    + exact F.
    + specialize (IH w1). simpl in IH.
      destruct F as (F1 & F2 & F3 & F4 & F5 & F6).
      destruct IH as (I1 & I2 & I3 & I4 & I5 & I6).
      repeat split; congruence.
Qed.

(** A completed loop appended, entry by entry, one order and its
    snapshots; the orders carry pairwise distinct fresh identifiers. *)
Lemma placeAll_ok entries w w1 :
  forEachM place entries w = (inr tt, w1) ->
  exists created,
    Store.orders (db w1) = Store.orders (db w) ++ map fst created
    /\ Store.orderItems (db w1)
       = Store.orderItems (db w) ++ concat (map snd created)
    /\ Forall2 createdFor entries created
    /\ Forall (fun c => exists k, (Store.nextId (db w) <= k)%nat
                                  /\ Order.id (fst c) = Store.freshId k)
              created
    /\ NoDup (map (fun c => Order.id (fst c)) created)
    /\ (Store.nextId (db w) <= Store.nextId (db w1))%nat.
Proof.
  revert w. induction entries as [|entry entries IH]; intros w; simpl.
  - unfold ret. intros H; injection H as <-. exists []. simpl.
    rewrite !app_nil_r. repeat split; constructor.
  - unfold bind. destruct (place entry w) as [[e|[]] w0] eqn:E;
      [discriminate|].
    intros H. apply placeOne_ok in E.
    destruct E as (o & ois & Eo & Ei & Hc & Hid & Hlt).
    destruct (IH _ H) as (created & Co & Ci & Cf & Cids & Cnd & Cle).
    exists ((o, ois) :: created). simpl.
    rewrite Co, Ci, Eo, Ei, <- !app_assoc. simpl.
    repeat split; trivial.
    + now constructor.
    + constructor; [exists (Store.nextId (db w)); simpl; split; [lia|easy]|].
      eapply Forall_impl; [|exact Cids]. simpl.
      intros c (k & Hk & Ek). exists k. split; [lia|easy].
    + constructor; [|exact Cnd].
      rewrite in_map_iff. intros (c & Ec & Hin).
      rewrite Forall_forall in Cids. destruct (Cids _ Hin) as (k & Hk & Ek).
      rewrite Hid, Ek in Ec. apply freshId_inj in Ec. lia.
    + lia.
Qed.

(** Whatever the outcome, an iteration appended at most one order, the
    order of its entry, and either the snapshots of the entry or nothing. *)
Lemma placeOne_any entry w :
  let w1 := snd (place entry w) in
  (Store.orders (db w1) = Store.orders (db w)
   /\ Store.orderItems (db w1) = Store.orderItems (db w)
   /\ Store.nextId (db w1) = Store.nextId (db w))
  \/ exists o ois,
       Store.orders (db w1) = Store.orders (db w) ++ [o]
       /\ Store.orderItems (db w1) = Store.orderItems (db w) ++ ois
       /\ filedFor entry (o, ois)
       /\ Order.id o = Store.freshId (Store.nextId (db w))
       /\ (Store.nextId (db w) < Store.nextId (db w1))%nat.
Proof.
  pose proof (placeOne_ok entry w) as Hok.
  destruct entry as [sid items].
  unfold place, placeOne, bind, random, isoNow in *.
  destruct (entropy w); rewrite await_eq in *; simpl in *;
    destruct (hd false (faults w)); simpl in *; auto;
    rewrite await_eq in *; simpl in *;
    destruct (hd false (tl (faults w))); simpl in *;
    right;
    try (destruct (Hok _ eq_refl)
           as (o & ois & Ho & Hi & (Hs & Ht & _ & Hsn) & Hid & Hlt);
         exists o, ois; repeat split; trivial; now right);
    (eexists; exists []; simpl; rewrite app_nil_r;
     repeat split; [now left | lia]).
Qed.

Lemma filedFrom_cons entry entries c :
  filedFrom entries c -> filedFrom (entry :: entries) c.
Proof. intros (e & He & Hf). exists e. split; [now right|exact Hf]. Qed.

Lemma placeAll_any entries w :
  let w1 := snd (forEachM place entries w) in
  exists created,
    Store.orders (db w1) = Store.orders (db w) ++ map fst created
    /\ Store.orderItems (db w1)
       = Store.orderItems (db w) ++ concat (map snd created)
    /\ Forall (filedFrom entries) created
    /\ Forall (fun c => exists k, (Store.nextId (db w) <= k)%nat
                                  /\ Order.id (fst c) = Store.freshId k)
              created
    /\ NoDup (map (fun c => Order.id (fst c)) created)
    /\ (Store.nextId (db w) <= Store.nextId (db w1))%nat.
Proof.
  revert w. induction entries as [|entry entries IH]; intros w; simpl.
  - exists []. simpl. rewrite !app_nil_r. repeat split; constructor.
  - unfold bind. pose proof (placeOne_any entry w) as H1.
    destruct (place entry w) as [[e|[]] w0]; simpl in H1.
    + destruct H1 as [(Ho & Hi & Hn)|(o & ois & Ho & Hi & Hc & Hid & Hlt)].
      * exists []. simpl. rewrite !app_nil_r.
        repeat split; trivial; try constructor. lia.
      * exists [(o, ois)]. simpl. rewrite app_nil_r.
        repeat split; trivial.
        -- constructor; [|constructor].
           exists entry. split; [now left|exact Hc].
        -- constructor; [|constructor].
           exists (Store.nextId (db w)). now split.
        -- constructor; [intros []|constructor].
        -- lia.
    + specialize (IH w0). simpl in IH.
      destruct IH as (created & Co & Ci & Cf & Cids & Cnd & Cle).
      assert (Cf' : Forall (filedFrom (entry :: entries)) created).
      { eapply Forall_impl; [|exact Cf]. intros c. apply filedFrom_cons. }
      destruct H1 as [(Ho & Hi & Hn)|(o & ois & Ho & Hi & Hc & Hid & Hlt)].
      * exists created. rewrite Co, Ci, Ho, Hi. repeat split; trivial.
        -- eapply Forall_impl; [|exact Cids]. simpl.
           intros c (k & Hk & Ek). exists k. split; [lia|easy].
        -- lia.
      * exists ((o, ois) :: created). simpl.
        rewrite Co, Ci, Ho, Hi, <- !app_assoc. simpl.
        repeat split; trivial.
        -- constructor; [|exact Cf'].
           exists entry. split; [now left|exact Hc].
        -- constructor;
             [exists (Store.nextId (db w)); simpl; split; [lia|easy]|].
           eapply Forall_impl; [|exact Cids]. simpl.
           intros c (k & Hk & Ek). exists k. split; [lia|easy].
        -- constructor; [|exact Cnd].
           rewrite in_map_iff. intros (c & Ec & Hin).
           rewrite Forall_forall in Cids.
           destruct (Cids _ Hin) as (k & Hk & Ek).
           rewrite Hid, Ek in Ec. apply freshId_inj in Ec. lia.
        -- lia.
Qed.

End Loop.
End PlaceFacts.

(** ** Checkout: the three outcomes of [handlePlaceOrder] *)

Module RunFacts.
Import Checkout CheckoutSpec.

Lemma truthy_false s : JS.truthy s = false <-> s = "".
Proof.
  unfold JS.truthy. destruct (String.eqb_spec s ""); simpl; split;
    congruence.
Qed.

Lemma truthy_true s : JS.truthy s = true <-> s <> "".
Proof.
  unfold JS.truthy. destruct (String.eqb_spec s ""); simpl; split;
    congruence.
Qed.

(** With both fields filled in, the run throws while grouping when a line
    clashes, and otherwise runs the loop over the partition by seller. *)
Lemma handlePlaceOrder_eq user address phone pm cartItems w :
  handlePlaceOrder user address phone pm cartItems w
  = if negb (JS.truthy address) || negb (JS.truthy phone)
    then toastError "Please fill in all delivery details" w
    else if existsb clashes cartItems
    then toastError "Failed to place order" w
    else tryCatch
           (forEachM (placeOne user address phone pm)
                     (JS.entries (groupBySeller cartItems)) ;;
            await (Store.cart_deleteMany
                     (fun c => CartItem.userId c =? AuthUser.id user)) ;;
            toastSuccess "Order placed successfully!" ;;
            navigate "/orders")
           (fun _ => toastError "Failed to place order") w.
Proof.
  unfold handlePlaceOrder.
  destruct (negb (JS.truthy address) || negb (JS.truthy phone));
    [reflexivity|].
  unfold tryCatch, bind at 1, lift.
  rewrite CheckoutFacts.groupItems_spec.
  destruct (existsb clashes cartItems); reflexivity.
Qed.

(** Every run is of one of three kinds: rejected by the validation gate,
    aborted by an exception inside [try], or completed. *)
Lemma handlePlaceOrder_run user address phone pm cartItems w :
  let w' := snd (handlePlaceOrder user address phone pm cartItems w) in
  ((address = "" \/ phone = "")
   /\ w' = emit (ToastError "Please fill in all delivery details") w)
  \/ (address <> "" /\ phone <> ""
      /\ ui w' = ToastError "Failed to place order" :: ui w
      /\ Store.cart (db w') = Store.cart (db w)
      /\ sameCatalog (db w) (db w'))
  \/ (address <> "" /\ phone <> ""
      /\ placed w w'
      /\ exists w1,
           forEachM (placeOne user address phone pm)
             (JS.entries (groupBySeller cartItems)) w = (inr tt, w1)
           /\ db w' = snd (Store.cart_deleteMany (ofBuyer user) (db w1))
           /\ Store.cart (db w1) = Store.cart (db w)
           /\ sameCatalog (db w) (db w1)).
Proof.
  rewrite handlePlaceOrder_eq.
  destruct (JS.truthy address) eqn:Ea; simpl.
  2:{ left. apply truthy_false in Ea. split; [now left|reflexivity]. }
  destruct (JS.truthy phone) eqn:Ep; simpl.
  2:{ left. apply truthy_false in Ep. split; [now right|reflexivity]. }
  apply truthy_true in Ea, Ep. right.
  destruct (existsb clashes cartItems); simpl.
  { left. unfold sameCatalog. auto 10. }
  unfold tryCatch, bind.
  pose proof (PlaceFacts.placeAll_frame user address phone pm
                (JS.entries (groupBySeller cartItems)) w) as F.
  destruct (forEachM _ _ w) as [[e|[]] w1]; simpl in F;
    destruct F as (F1 & F2 & F3 & F4 & F5 & F6).
  - left. unfold sameCatalog; simpl. rewrite F6. repeat split; assumption.
  - rewrite await_eq. fold (ofBuyer user).
    destruct (hd false (faults w1)); simpl.
    + left. unfold sameCatalog; simpl. rewrite F6. repeat split; assumption.
    + right. unfold placed; simpl. repeat split; trivial.
      * now rewrite F6.
      * exists w1. unfold sameCatalog. repeat split; assumption.
Qed.

(** A run that reported success went through the whole loop and the
    clearing call. *)
Lemma placed_inv user address phone pm cartItems w :
  let w' := snd (handlePlaceOrder user address phone pm cartItems w) in
  placed w w' ->
  address <> "" /\ phone <> ""
  /\ exists w1,
       forEachM (placeOne user address phone pm)
         (JS.entries (groupBySeller cartItems)) w = (inr tt, w1)
       /\ db w' = snd (Store.cart_deleteMany (ofBuyer user) (db w1))
       /\ Store.cart (db w1) = Store.cart (db w)
       /\ sameCatalog (db w) (db w1).
Proof.
  intros w' Hp.
  destruct (handlePlaceOrder_run user address phone pm cartItems w)
    as [(_ & E)|[(_ & _ & E & _)|(Ha & Hph & _ & H)]]; fold w' in E || idtac.
  - unfold placed in Hp. rewrite E in Hp. simpl in Hp. discriminate.
  - unfold placed in Hp. rewrite E in Hp. discriminate.
  - auto.
Qed.

End RunFacts.

(** ** Checkout: what the created records say *)

Module CreatedFacts.
Import Checkout CheckoutSpec.

Lemma snapshots_lines o items ois :
  Forall2 (snapshotOf o) items ois ->
  map lineOfItem ois = map lineOfCart items.
Proof.
  induction 1 as [|item oi items ois (_ & Hp & _ & Hpr & Hq & _) _ IH];
    simpl; [reflexivity|].
  rewrite IH. unfold lineOfItem, lineOfCart. now rewrite Hp, Hpr, Hq.
Qed.

Lemma snapshots_orderId o items ois :
  Forall2 (snapshotOf o) items ois ->
  Forall (fun oi => OrderItem.orderId oi = Order.id o) ois.
Proof.
  induction 1 as [|item oi items ois (Ho & _) _ IH]; constructor; auto.
Qed.

Lemma snapshots_sum o items ois acc :
  Forall2 (snapshotOf o) items ois ->
  fold_left (fun a oi => (a + OrderItem.subtotal oi)%Q) ois acc
  = fold_left
      (fun a item => (a + priceOf item * inject_Z (CartLine.quantity item))%Q)
      items acc.
Proof.
  intros H. revert acc.
  induction H as [|item oi items ois (_ & _ & _ & _ & _ & Hs) _ IH];
    intros acc; simpl; [reflexivity|].
  now rewrite Hs, IH.
Qed.

Lemma snapshots_subtotal o items ois :
  Forall2 (snapshotOf o) items ois ->
  Forall (fun oi => OrderItem.subtotal oi
                    = (OrderItem.productPrice oi
                       * inject_Z (OrderItem.quantity oi))%Q) ois.
Proof.
  induction 1 as [|item oi items ois (_ & _ & _ & Hp & Hq & Hs) _ IH];
    constructor; auto.
  now rewrite Hs, Hp, Hq.
Qed.

Lemma created_lines entries created :
  Forall2 createdFor entries created ->
  map lineOfItem (concat (map snd created))
  = map lineOfCart (concat (map snd entries)).
Proof.
  induction 1 as [|entry c entries created (_ & _ & _ & Hs) _ IH]; simpl;
    [reflexivity|].
  rewrite !map_app, IH. f_equal. eapply snapshots_lines; eassumption.
Qed.

Lemma created_sellers entries created :
  Forall2 createdFor entries created ->
  map Order.sellerId (map fst created) = map fst entries.
Proof.
  induction 1 as [|entry c entries created (Hs & _) _ IH]; simpl;
    [reflexivity|].
  now rewrite IH, Hs.
Qed.

Lemma created_orderIds entries created :
  Forall2 createdFor entries created ->
  Forall (fun c => Forall (fun oi => OrderItem.orderId oi = Order.id (fst c))
                          (snd c)) created.
Proof.
  induction 1 as [|entry c entries created (_ & _ & _ & Hs) _ IH];
    constructor; auto.
  eapply snapshots_orderId; eassumption.
Qed.

Lemma created_totals entries created :
  Forall2 createdFor entries created ->
  Forall (fun c => sumSubtotals (snd c) = Order.totalAmount (fst c)
                   /\ Forall (fun oi => OrderItem.subtotal oi
                                = (OrderItem.productPrice oi
                                   * inject_Z (OrderItem.quantity oi))%Q)
                        (snd c)) created.
Proof.
  induction 1 as [|entry c entries created (_ & Ht & _ & Hs) _ IH];
    constructor; auto.
  split.
  - rewrite Ht. unfold sumSubtotals, orderTotal.
    eapply snapshots_sum; eassumption.
  - eapply snapshots_subtotal; eassumption.
Qed.

(** With pairwise distinct order ids, filtering the created order items by
    an order id gives back that order's block. *)
Lemma itemsOfOrder_block (created : list (Order.t * list OrderItem.t)) c :
  NoDup (map (fun c => Order.id (fst c)) created) ->
  Forall (fun c => Forall (fun oi => OrderItem.orderId oi = Order.id (fst c))
                          (snd c)) created ->
  In c created ->
  itemsOfOrder (Order.id (fst c)) (concat (map snd created)) = snd c.
Proof.
  unfold itemsOfOrder.
  induction created as [|c0 created IH]; simpl; intros Hnd Hall Hin;
    [contradiction|].
  inversion Hnd as [|? ? Hnotin Hnd']; subst.
  inversion Hall as [|? ? Hc0 Hall']; subst.
  rewrite filter_app. destruct Hin as [->|Hin].
  - rewrite filter_all.
    2:{ eapply Forall_impl; [|exact Hc0]. simpl. intros oi ->.
        apply String.eqb_refl. }
    rewrite filter_none; [apply app_nil_r|].
    rewrite Forall_forall. intros oi Hoi.
    apply in_concat in Hoi. destruct Hoi as (blk & Hblk & Hoi).
    apply in_map_iff in Hblk. destruct Hblk as (c1 & <- & Hc1).
    rewrite Forall_forall in Hall'. specialize (Hall' _ Hc1).
    rewrite Forall_forall in Hall'. rewrite (Hall' _ Hoi).
    apply String.eqb_neq. intros E. apply Hnotin.
    apply in_map_iff. exists c1. split; [exact E|exact Hc1].
  - rewrite filter_none; [simpl; now apply IH|].
    eapply Forall_impl; [|exact Hc0]. simpl. intros oi ->.
    apply String.eqb_neq. intros E. apply Hnotin.
    apply in_map_iff. exists c. split; [now symmetry|exact Hin].
Qed.



End CreatedFacts.

(** ** Checkout: runs in which no service call rejects *)

Lemma all_false_hd (l : list bool) :
  Forall (fun b => b = false) l -> hd false l = false.
Proof. destruct 1; simpl; auto. Qed.

Lemma all_false_tl (l : list bool) :
  Forall (fun b => b = false) l -> Forall (fun b => b = false) (tl l).
Proof. destruct 1; simpl; auto. Qed.

Lemma placeOne_calm user address phone pm entry w :
  calm w ->
  exists w1, Checkout.placeOne user address phone pm entry w = (inr tt, w1)
             /\ calm w1.
Proof.
  unfold calm. intros Hc. destruct entry as [sid items].
  pose proof (all_false_hd _ Hc) as H1.
  pose proof (all_false_tl _ Hc) as Hc'.
  pose proof (all_false_hd _ Hc') as H2.
  pose proof (all_false_tl _ Hc') as Hc''.
  unfold Checkout.placeOne, bind, random, isoNow.
  destruct (entropy w); rewrite await_eq; simpl; rewrite H1; simpl;
    rewrite await_eq; simpl; rewrite H2; simpl;
    eexists; (split; [reflexivity|exact Hc'']).
Qed.

Lemma placeAll_calm user address phone pm entries w :
  calm w ->
  exists w1,
    forEachM (Checkout.placeOne user address phone pm) entries w = (inr tt, w1)
    /\ calm w1.
Proof.
  revert w. induction entries as [|entry entries IH]; intros w Hc; simpl.
  - exists w. split; [reflexivity|exact Hc].
  - unfold bind.
    destruct (placeOne_calm user address phone pm entry w Hc)
      as (w0 & -> & Hc0).
    apply IH, Hc0.
Qed.

(** With both delivery fields filled in and no rejecting call, the run
    reports success. *)
Lemma calm_placed user address phone pm cartItems w :
  address <> "" -> phone <> "" -> calm w ->
  existsb CheckoutSpec.clashes cartItems = false ->
  CheckoutSpec.placed w
    (snd (Checkout.handlePlaceOrder user address phone pm cartItems w)).
Proof.
  intros Ha Hp Hc Hsafe. rewrite RunFacts.handlePlaceOrder_eq.
  apply RunFacts.truthy_true in Ha, Hp. rewrite Ha, Hp, Hsafe. simpl.
  unfold tryCatch, bind.
  destruct (placeAll_calm user address phone pm
              (JS.entries (CheckoutSpec.groupBySeller cartItems)) w Hc)
    as (w1 & E & Hc1).
  pose proof (PlaceFacts.placeAll_frame user address phone pm
                (JS.entries (CheckoutSpec.groupBySeller cartItems)) w) as F.
  rewrite E in *. simpl in F. destruct F as (_ & _ & _ & _ & _ & F6).
  rewrite await_eq. unfold calm in Hc1. rewrite (all_false_hd _ Hc1). simpl.
  unfold CheckoutSpec.placed. simpl. now rewrite F6.
Qed.

Lemma deleteWhere_none {R} (p : R -> bool) (rows : list R) :
  Forall (fun r => p r = false) (Store.deleteWhere p rows).
Proof.
  unfold Store.deleteWhere. rewrite Forall_forall. intros r Hr.
  apply filter_In in Hr. destruct Hr as (_ & Hr).
  now destruct (p r).
Qed.

(** Every entry of [itemsBySeller] holds at least one line, so every loop
    iteration files at least one order item. *)
Lemma extend_nonempty k item o :
  Forall (fun e => snd e <> []) o ->
  Forall (fun e => snd e <> []) (CheckoutSpec.extend k item o).
Proof.
  induction 1 as [|[k0 items] o Hx Ho IH]; simpl.
  - constructor; [discriminate|constructor].
  - destruct (k =? k0); constructor; trivial.
    simpl. destruct items; discriminate.
Qed.

Lemma group_nonempty cart o :
  Forall (fun e => snd e <> []) o ->
  Forall (fun e => snd e <> []) (fold_left CheckoutSpec.groupStep cart o).
Proof.
  revert o. induction cart as [|item cart IH]; simpl; intros o Ho; [easy|].
  apply IH. unfold CheckoutSpec.groupStep.
  destruct (Checkout.sellerIdOf item); [now apply extend_nonempty|easy].
Qed.

Lemma entries_nonempty cart :
  Forall (fun e => snd e <> []) (JS.entries (CheckoutSpec.groupBySeller cart)).
Proof.
  eapply Permutation_Forall.
  - symmetry. apply entries_perm.
  - apply (group_nonempty cart []). constructor.
Qed.

Lemma created_nonempty entries created :
  Forall2 CheckoutSpec.createdFor entries created ->
  Forall (fun e => snd e <> []) entries ->
  Forall (fun c => snd c <> []) created.
Proof.
  induction 1 as [|entry c entries created (_ & _ & _ & Hs) _ IH];
    intros Hne; constructor.
  - inversion Hne as [|? ? Hn _]; subst.
    destruct Hs; [contradiction|discriminate].
  - apply IH. now inversion Hne.
Qed.

(** Orders and order items after a run are those the loop left, whatever
    the outcome (none when the validation gate rejected or the grouping
    threw). *)
Lemma handlePlaceOrder_created user address phone pm cartItems w :
  let w' := snd (Checkout.handlePlaceOrder user address phone pm cartItems w) in
  exists created,
    Store.orders (db w') = Store.orders (db w) ++ map fst created
    /\ Store.orderItems (db w')
       = Store.orderItems (db w) ++ concat (map snd created)
    /\ Forall (CheckoutSpec.filedFrom
                 (JS.entries (CheckoutSpec.groupBySeller cartItems))) created
    /\ NoDup (map (fun c => Order.id (fst c)) created).
Proof.
  rewrite RunFacts.handlePlaceOrder_eq.
  destruct (negb (JS.truthy address) || negb (JS.truthy phone)); simpl.
  { exists []. simpl. rewrite !app_nil_r. repeat split; constructor. }
  destruct (existsb CheckoutSpec.clashes cartItems); simpl.
  { exists []. simpl. rewrite !app_nil_r. repeat split; constructor. }
  unfold tryCatch, bind.
  destruct (PlaceFacts.placeAll_any user address phone pm
              (JS.entries (CheckoutSpec.groupBySeller cartItems)) w)
    as (created & Co & Ci & Cf & _ & Cnd & _).
  exists created.
  destruct (forEachM _ _ w) as [[e|[]] w1]; simpl in *.
  + auto.
  + rewrite await_eq. destruct (hd false (faults w1)); simpl; auto.
Qed.

Lemma filed_orderIds entries created :
  Forall (CheckoutSpec.filedFrom entries) created ->
  Forall (fun c => Forall (fun oi => OrderItem.orderId oi = Order.id (fst c))
                          (snd c)) created.
Proof.
  intros H. eapply Forall_impl; [|exact H]. simpl.
  intros c (entry & _ & _ & _ & [-> | Hs]); [constructor|].
  eapply CreatedFacts.snapshots_orderId; eassumption.
Qed.

Lemma filed_totals entries created :
  Forall (CheckoutSpec.filedFrom entries) created ->
  Forall (fun c => (snd c <> [] ->
                    CheckoutSpec.sumSubtotals (snd c)
                    = Order.totalAmount (fst c))
                   /\ Forall (fun oi => OrderItem.subtotal oi
                                = (OrderItem.productPrice oi
                                   * inject_Z (OrderItem.quantity oi))%Q)
                        (snd c)) created.
Proof.
  intros H. eapply Forall_impl; [|exact H]. simpl.
  intros c (entry & _ & _ & Ht & [E | Hs]).
  - rewrite E. split; [congruence|constructor].
  - split.
    + intros _. rewrite Ht.
      unfold CheckoutSpec.sumSubtotals, Checkout.orderTotal.
      eapply CreatedFacts.snapshots_sum; eassumption.
    + eapply CreatedFacts.snapshots_subtotal; eassumption.
Qed.

(** Each entry of [itemsBySeller] holds lines of its own seller only, all
    taken from the cart. *)
Lemma extend_scoped k item o :
  Checkout.sellerIdOf item = Some k ->
  Forall CheckoutSpec.scoped o ->
  Forall CheckoutSpec.scoped (CheckoutSpec.extend k item o).
Proof.
  intros Hk. induction 1 as [|[k0 items] o Hx Ho IH]; simpl.
  - repeat constructor. exact Hk.
  - destruct (String.eqb_spec k k0) as [->|]; constructor; trivial.
    unfold CheckoutSpec.scoped in *. simpl in *.
    apply Forall_app. split; [exact Hx|]. now repeat constructor.
Qed.

Lemma group_scoped cart o :
  Forall CheckoutSpec.scoped o ->
  Forall CheckoutSpec.scoped (fold_left CheckoutSpec.groupStep cart o).
Proof.
  revert o. induction cart as [|item cart IH]; simpl; intros o Ho; [easy|].
  apply IH. unfold CheckoutSpec.groupStep.
  destruct (Checkout.sellerIdOf item) eqn:E; [now apply extend_scoped|easy].
Qed.

Lemma entries_scoped cart :
  Forall CheckoutSpec.scoped (JS.entries (CheckoutSpec.groupBySeller cart)).
Proof.
  eapply Permutation_Forall.
  - symmetry. apply entries_perm.
  - apply (group_scoped cart []). constructor.
Qed.

Lemma entries_from_cart cart :
  Forall (fun e => incl (snd e) cart)
         (JS.entries (CheckoutSpec.groupBySeller cart)).
Proof.
  rewrite Forall_forall. intros e He item Hitem.
  assert (Hin : In item (concat (map snd (CheckoutSpec.groupBySeller cart)))).
  { apply in_concat. exists (snd e). split; [|exact Hitem].
    apply in_map. apply (Permutation_in _ (entries_perm _) He). }
  apply (Permutation_in _ (CheckoutFacts.groupBySeller_items cart)) in Hin.
  apply filter_In in Hin. tauto.
Qed.

(** The snapshots of an entry are snapshots of cart lines of the entry's
    seller. *)
Lemma snapshots_scoped cart entry (c : Order.t * list OrderItem.t) :
  Order.sellerId (fst c) = fst entry ->
  Forall2 (CheckoutSpec.snapshotOf (fst c)) (snd entry) (snd c) ->
  CheckoutSpec.scoped entry ->
  incl (snd entry) cart ->
  Forall (fun oi =>
            exists item,
              In item cart
              /\ Checkout.sellerIdOf item = Some (Order.sellerId (fst c))
              /\ OrderItem.orderId oi = Order.id (fst c)
              /\ CheckoutSpec.lineOfItem oi = CheckoutSpec.lineOfCart item)
         (snd c).
Proof.
  intros Hs Hsn Hsc0 Hin0. unfold CheckoutSpec.scoped in Hsc0. rewrite Hs.
  revert Hsc0 Hin0.
  induction Hsn as [|item oi items ois Hsnap _ IHs]; intros Hsc0 Hin0;
    constructor.
  - exists item. inversion Hsc0; subst.
    destruct Hsnap as (Ho & Hp & _ & Hpr & Hq & _).
    repeat split; trivial.
    + apply Hin0. now left.
    + unfold CheckoutSpec.lineOfItem, CheckoutSpec.lineOfCart.
      now rewrite Hp, Hpr, Hq.
  - apply IHs; [now inversion Hsc0|].
    intros x Hx. apply Hin0. now right.
Qed.


(** The same of the order items of any run, completed or not. *)
Lemma filed_scoped cart entries created :
  Forall (CheckoutSpec.filedFrom entries) created ->
  Forall CheckoutSpec.scoped entries ->
  Forall (fun e => incl (snd e) cart) entries ->
  Forall (fun c =>
            Forall (fun oi =>
                      exists item,
                        In item cart
                        /\ Checkout.sellerIdOf item
                           = Some (Order.sellerId (fst c))
                        /\ OrderItem.orderId oi = Order.id (fst c)
                        /\ CheckoutSpec.lineOfItem oi
                           = CheckoutSpec.lineOfCart item)
                   (snd c))
         created.
Proof.
  intros H Hsc Hincl. eapply Forall_impl; [|exact H]. simpl.
  intros c (entry & He & Hs & _ & [-> | Hsn]); [constructor|].
  rewrite Forall_forall in Hsc, Hincl.
  now apply snapshots_scoped with (entry := entry); auto.
Qed.

(** Every order of any run, completed or not, is the order of a seller of
    the partition, and its total is the displayed-total formula on the
    lines of that seller. *)
Lemma filed_sellers cart created :
  Forall (CheckoutSpec.filedFrom (JS.entries (CheckoutSpec.groupBySeller cart)))
         created ->
  Forall (fun c =>
            In (Order.sellerId (fst c))
               (JS.keys (CheckoutSpec.groupBySeller cart))
            /\ Order.totalAmount (fst c)
               = Checkout.total
                   (CheckoutSpec.linesOf (Order.sellerId (fst c)) cart))
         created.
Proof.
  intros H. eapply Forall_impl; [|exact H]. simpl.
  intros c (entry & He & Hs & Ht & _).
  pose proof (CheckoutFacts.entries_lines cart) as Hl.
  rewrite Forall_forall in Hl. specialize (Hl _ He).
  rewrite Hs, Ht, Hl. split; [|reflexivity].
  apply (Permutation_in _ (entries_perm _)) in He.
  unfold JS.keys. now apply in_map.
Qed.

(** * The claims *)

Import Checkout CheckoutSpec.

(** C8.  When the delivery address or the phone is empty, [handlePlaceOrder]
    stops at the validation gate: it only shows the error toast.  No service
    call is attempted, so the store is exactly as before: no Order and no
    OrderItem is created and no CartItem is deleted. *)
Theorem validation_gate_blocks_writes user address phone pm cartItems w :
  address = "" \/ phone = "" ->
  let w' := snd (handlePlaceOrder user address phone pm cartItems w) in
  w' = emit (ToastError "Please fill in all delivery details") w
  /\ db w' = db w
  /\ Store.orders (db w') = Store.orders (db w)
  /\ Store.orderItems (db w') = Store.orderItems (db w)
  /\ Store.cart (db w') = Store.cart (db w)
  /\ faults w' = faults w.
Proof.
  intros H w'. subst w'. unfold handlePlaceOrder.
  assert (E : negb (JS.truthy address) || negb (JS.truthy phone) = true).
  { destruct H as [->| ->]; simpl; [reflexivity|].
    apply orb_true_r. }
  rewrite E. simpl. repeat split.
Qed.

Lemma validation_gate_blocks_writes_witness :
  let u := AuthUser.mk "u1" "ann@example.org" (Some "Ann") None in
  let c := CartItem.mk "c1" "u1" "pA" 2 "t0" "t0" in
  let s := Store.mk [] [] [] [c] [] [] [] 7 in
  let w := mkWorld s [] ["K3J9"] "t1" (Some u) [] in
  let w' := snd (handlePlaceOrder u "12 Hill Road" "" online
                   [CartLine.mk c None] w) in
  db w' = db w /\ Store.cart (db w') = [c].
Proof.
  intros u c s w.
  pose proof (validation_gate_blocks_writes u "12 Hill Road" "" online
                [CartLine.mk c None] w (or_intror eq_refl)) as H.
  simpl in H. destruct H as (_ & H & _ & _ & Hc & _).
  split; [exact H|exact Hc].
Defined.

(** C10.  Whatever the outcome, [handlePlaceOrder] leaves the products and
    the sellers (and the users and the reviews) exactly as stored: stock,
    availability, totalOrders and totalEarnings are not touched; only
    [orders], [orderItems] and [cart] can differ. *)
Theorem place_order_frame user address phone pm cartItems w :
  let w' := snd (handlePlaceOrder user address phone pm cartItems w) in
  Store.products (db w') = Store.products (db w)
  /\ Store.sellers (db w') = Store.sellers (db w)
  /\ Store.users (db w') = Store.users (db w)
  /\ Store.reviews (db w') = Store.reviews (db w).
Proof.
  intros w'.
  destruct (RunFacts.handlePlaceOrder_run user address phone pm cartItems w)
    as [(_ & E)|[(_ & _ & _ & _ & F)|(_ & _ & _ & w1 & _ & E & _ & F)]];
    fold w' in E || idtac.
  - rewrite E. simpl. auto.
  - fold w' in F. destruct F as (F1 & F2 & F3 & F4). auto.
  - rewrite E. simpl. destruct F as (F1 & F2 & F3 & F4). auto.
Qed.

(** C3, as stated, fails: the clearing call is the last store call inside
    [try], so it is skipped when a creation rejects.  Here the Order is
    created, the OrderItem batch rejects, and the buyer's CartItem is still
    stored afterwards. *)
Lemma cart_kept_when_creation_fails :
  let u := AuthUser.mk "u1" "ann@example.org" (Some "Ann") None in
  let pA := Product.mk "pA" "u7" "seller1" "Plum jam" None None (100 # 1) None
              "1" 5 (4 # 1) 2 "t0" "t0" in
  let c := CartItem.mk "c1" "u1" "pA" 2 "t0" "t0" in
  let s := Store.mk [] [] [pA] [c] [] [] [] 7 in
  let w := mkWorld s [false; true] ["K3J9"] "t1" (Some u) [] in
  let w' := snd (handlePlaceOrder u "12 Hill Road" "555-0101" online
                   [CartLine.mk c (Some pA)] w) in
  map Order.sellerId (Store.orders (db w')) = ["seller1"]
  /\ Store.orderItems (db w') = []
  /\ ui w' = [ToastError "Failed to place order"]
  /\ In c (Store.cart (db w'))
  /\ CartItem.userId c = AuthUser.id u.
Proof. vm_compute. repeat split. now left. Qed.

(** C3, amended.  The cart-clearing call runs only at the end of a run in
    which validation passed and no call inside [try] threw.  Every run is of
    one of two kinds: it reports success, and then the stored cart is the
    previous one without the buyer's CartItems (other users' rows are kept);
    or it shows an error toast, and then the stored cart is unchanged.  In
    particular, when an Order or OrderItem creation throws inside the loop,
    the clearing call is skipped and the cart is left as it was. *)
Theorem cart_cleared_only_when_run_completes
    user address phone pm cartItems w :
  let w' := snd (handlePlaceOrder user address phone pm cartItems w) in
  ((placed w w'
    /\ Store.cart (db w')
       = Store.deleteWhere (ofBuyer user) (Store.cart (db w))
    /\ Forall (fun c => CartItem.userId c <> AuthUser.id user)
              (Store.cart (db w')))
   \/ ((ui w' = ToastError "Failed to place order" :: ui w
        \/ ui w' = ToastError "Please fill in all delivery details" :: ui w)
       /\ Store.cart (db w') = Store.cart (db w)))
  /\ (forall e w1,
        address <> "" -> phone <> "" ->
        forEachM (placeOne user address phone pm)
          (JS.entries (groupBySeller cartItems)) w = (inl e, w1) ->
        ui w' = ToastError "Failed to place order" :: ui w
        /\ Store.cart (db w') = Store.cart (db w)).
Proof.
  intros w'. split.
  - destruct (RunFacts.handlePlaceOrder_run user address phone pm cartItems w)
      as [(_ & E)|[(_ & _ & E & Ec & _)|(_ & _ & Hp & w1 & _ & E & Ec & _)]];
      fold w' in E || idtac.
    + right. rewrite E. simpl. auto.
    + right. fold w' in Ec. auto.
    + left. fold w' in Hp. split; [exact Hp|].
      rewrite E. simpl. rewrite Ec. split; [reflexivity|].
      eapply Forall_impl; [|apply (deleteWhere_none (ofBuyer user))].
      unfold ofBuyer. intros c Hc. now apply String.eqb_neq.
  - intros e w1 Ha Hp E. subst w'. rewrite RunFacts.handlePlaceOrder_eq.
    apply RunFacts.truthy_true in Ha, Hp. rewrite Ha, Hp. simpl.
    destruct (existsb clashes cartItems); [simpl; auto|].
    unfold tryCatch, bind.
    pose proof (PlaceFacts.placeAll_frame user address phone pm
                  (JS.entries (groupBySeller cartItems)) w) as F.
    rewrite E in *. simpl in *.
    destruct F as (_ & _ & _ & F4 & _ & F6). now rewrite F4, F6.
Qed.

Lemma cart_cleared_only_when_run_completes_witness :
  let u := AuthUser.mk "u1" "ann@example.org" (Some "Ann") None in
  let pA := Product.mk "pA" "u7" "seller1" "Plum jam" None None (100 # 1) None
              "1" 5 (4 # 1) 2 "t0" "t0" in
  let c := CartItem.mk "c1" "u1" "pA" 2 "t0" "t0" in
  let s := Store.mk [] [] [pA] [c] [] [] [] 7 in
  let w := mkWorld s [false; true] ["K3J9"] "t1" (Some u) [] in
  let w' := snd (handlePlaceOrder u "12 Hill Road" "555-0101" online
                   [CartLine.mk c (Some pA)] w) in
  ui w' = ToastError "Failed to place order" :: ui w
  /\ Store.cart (db w') = Store.cart (db w).
Proof.
  intros u pA c s w.
  refine (proj2 (cart_cleared_only_when_run_completes u "12 Hill Road"
                   "555-0101" online [CartLine.mk c (Some pA)] w)
                StoreError _ _ _ _).
  - discriminate.
  - discriminate.
  - vm_compute. reflexivity.
Defined.

(** C9.  A cart line whose product lookup yields no seller id (there is no
    product, or the product has no seller id) is skipped by the grouping:
    the run is the very run of the cart without that line.  Whatever the
    outcome, every order the run creates is the order of a seller of
    another line, and every order item it creates snapshots another line,
    one that resolves to the seller of its order: no order and no order item
    is created for the line.  A run that reports success has nevertheless
    deleted every CartItem of the buyer, the row of the skipped line
    included, and the order items it created are, as a multiset, the other
    resolving lines.  Success is reported whenever both delivery fields are
    filled in, no service call rejects and no seller id of another line is
    the name of a member of [Object.prototype]: nothing tells the buyer
    that the line was lost. *)
Theorem unresolved_line_is_lost user address phone pm l1 item l2 w :
  unresolved item ->
  let w' := snd (handlePlaceOrder user address phone pm
                   (l1 ++ item :: l2) w) in
  handlePlaceOrder user address phone pm (l1 ++ item :: l2) w
  = handlePlaceOrder user address phone pm (l1 ++ l2) w
  /\ (exists newOrders newItems,
        Store.orders (db w') = Store.orders (db w) ++ newOrders
        /\ Store.orderItems (db w') = Store.orderItems (db w) ++ newItems
        /\ Forall (fun o => exists line,
                      In line (l1 ++ l2)
                      /\ sellerIdOf line = Some (Order.sellerId o))
                  newOrders
        /\ Forall (fun oi => exists o line,
                      In o newOrders
                      /\ OrderItem.orderId oi = Order.id o
                      /\ In line (l1 ++ l2)
                      /\ sellerIdOf line = Some (Order.sellerId o)
                      /\ lineOfItem oi = lineOfCart line)
                  newItems
        /\ (placed w w' ->
            Permutation (map Order.sellerId newOrders)
                        (JS.keys (groupBySeller (l1 ++ l2)))
            /\ Permutation (map lineOfItem newItems)
                           (map lineOfCart (filter resolves (l1 ++ l2)))))
  /\ (placed w w' ->
      Forall (fun c => CartItem.userId c <> AuthUser.id user)
             (Store.cart (db w'))
      /\ (CartItem.userId (CartLine.item item) = AuthUser.id user ->
          ~ In (CartLine.item item) (Store.cart (db w'))))
  /\ (address <> "" -> phone <> "" -> calm w ->
      Forall (fun line => clashes line = false) (l1 ++ l2) ->
      placed w w').
Proof.
  intros Hu w'.
  pose proof (CheckoutFacts.unresolved_sellerIdOf item Hu) as Hs.
  assert (Erun : handlePlaceOrder user address phone pm (l1 ++ item :: l2) w
                 = handlePlaceOrder user address phone pm (l1 ++ l2) w).
  { unfold handlePlaceOrder.
    now rewrite (CheckoutFacts.groupItems_skip l1 item l2 Hs). }
  subst w'. rewrite Erun.
  set (cart := l1 ++ l2).
  set (w' := snd (handlePlaceOrder user address phone pm cart w)).
  split; [reflexivity|].
  assert (Hgone : placed w w' ->
                  Forall (fun c => CartItem.userId c <> AuthUser.id user)
                         (Store.cart (db w'))).
  { intros Hpl.
    destruct (RunFacts.placed_inv user address phone pm cart w Hpl)
      as (_ & _ & w1 & _ & Edb & _). fold w' in Edb.
    rewrite Edb. simpl.
    eapply Forall_impl; [|apply (deleteWhere_none (ofBuyer user))].
    unfold ofBuyer. intros c Hc'. now apply String.eqb_neq. }
  split; [|split].
  - destruct (handlePlaceOrder_created user address phone pm cart w)
      as (created & Co & Ci & Cf & Cnd). fold w' in Co, Ci.
    exists (map fst created), (concat (map snd created)).
    split; [exact Co|]. split; [exact Ci|]. split; [|split].
    + pose proof (filed_sellers cart created Cf) as Hsel.
      rewrite Forall_forall in Hsel |- *. intros o Ho.
      apply in_map_iff in Ho. destruct Ho as (c & <- & Hc).
      destruct (Hsel _ Hc) as (Hk & _).
      now apply CheckoutFacts.groupBySeller_keys in Hk.
    + pose proof (filed_scoped cart _ _ Cf (entries_scoped cart)
                    (entries_from_cart cart)) as Hsc.
      rewrite Forall_forall in Hsc |- *. intros oi Hoi.
      apply in_concat in Hoi. destruct Hoi as (blk & Hblk & Hoi).
      apply in_map_iff in Hblk. destruct Hblk as (c & <- & Hc).
      specialize (Hsc _ Hc). rewrite Forall_forall in Hsc.
      destruct (Hsc _ Hoi) as (line & Hi1 & Hi2 & Hi3 & Hi4).
      exists (fst c), line. repeat split; trivial. now apply in_map.
    + intros Hpl.
      destruct (RunFacts.placed_inv user address phone pm cart w Hpl)
        as (_ & _ & w1 & Eloop & Edb & _). fold w' in Edb.
      destruct (PlaceFacts.placeAll_ok _ _ _ _ _ _ _ Eloop)
        as (created' & Co' & Ci' & Cf' & _).
      assert (Ec : map fst created = map fst created'
                   /\ concat (map snd created) = concat (map snd created')).
      { rewrite Edb in Co, Ci. simpl in Co, Ci.
        rewrite Co' in Co. rewrite Ci' in Ci.
        apply app_inv_head in Co, Ci. now split. }
      destruct Ec as (-> & ->). split.
      * rewrite (CreatedFacts.created_sellers _ _ Cf').
        apply Permutation_map, entries_perm.
      * rewrite (CreatedFacts.created_lines _ _ Cf').
        apply Permutation_map.
        rewrite <- !flat_map_concat_map.
        rewrite (Permutation_flat_map snd (entries_perm _)).
        rewrite flat_map_concat_map.
        apply CheckoutFacts.groupBySeller_items.
  - intros Hpl. split; [now apply Hgone|].
    intros Hui Hin. specialize (Hgone Hpl).
    rewrite Forall_forall in Hgone. exact (Hgone _ Hin Hui).
  - intros Ha Hp Hc Hsafe. apply calm_placed; trivial.
    destruct (existsb clashes cart) eqn:E; [|reflexivity].
    apply existsb_exists in E. destruct E as (line & Hin & Hcl).
    rewrite Forall_forall in Hsafe. rewrite (Hsafe _ Hin) in Hcl.
    discriminate.
Qed.

Lemma unresolved_line_is_lost_witness :
  let u := AuthUser.mk "u1" "ann@example.org" (Some "Ann") None in
  let pA := Product.mk "pA" "u7" "seller1" "Plum jam" None None (100 # 1) None
              "1" 5 (4 # 1) 2 "t0" "t0" in
  let pY := Product.mk "pY" "u9" "" "Fig chutney" None None (80 # 1) None
              "1" 3 0 0 "t0" "t0" in
  let cA := CartItem.mk "c1" "u1" "pA" 2 "t0" "t0" in
  let cX := CartItem.mk "c2" "u1" "pGone" 3 "t0" "t0" in
  let cY := CartItem.mk "c3" "u1" "pY" 1 "t0" "t0" in
  let cart := [CartLine.mk cA (Some pA); CartLine.mk cX None;
               CartLine.mk cY (Some pY)] in
  let s := Store.mk [] [] [pA; pY] [cA; cX; cY] [] [] [] 7 in
  let w := mkWorld s [] ["K3J9"] "t1" (Some u) [] in
  let w' := snd (handlePlaceOrder u "12 Hill Road" "555-0101" online cart w) in
  fst (loadCart u [] w) = inr cart
  /\ placed w w'
  /\ ~ In cX (Store.cart (db w'))
  /\ ~ In cY (Store.cart (db w'))
  /\ map OrderItem.productId (Store.orderItems (db w')) = ["pA"].
Proof.
  intros u pA pY cA cX cY cart s w.
  destruct (unresolved_line_is_lost u "12 Hill Road" "555-0101" online
              [CartLine.mk cA (Some pA)] (CartLine.mk cX None)
              [CartLine.mk cY (Some pY)] w I)
    as (_ & _ & HgoneX & Hpl).
  destruct (unresolved_line_is_lost u "12 Hill Road" "555-0101" online
              [CartLine.mk cA (Some pA); CartLine.mk cX None]
              (CartLine.mk cY (Some pY)) [] w eq_refl)
    as (_ & _ & HgoneY & _).
  assert (P : placed w
                (snd (handlePlaceOrder u "12 Hill Road" "555-0101" online
                        cart w))).
  { apply Hpl.
    - discriminate.
    - discriminate.
    - constructor.
    - repeat constructor. }
  split; [vm_compute; reflexivity|].
  split; [exact P|].
  split; [apply (proj2 (HgoneX P)); reflexivity|].
  split; [apply (proj2 (HgoneY P)); reflexivity|].
  vm_compute. reflexivity.
Defined.



(** C2, as stated, fails: an order whose OrderItem batch is rejected stays
    in the store with its total and without any order item.  Here the order
    is created with total 200, the batch call rejects, and the subtotals
    filed under the order add up to 0. *)
Lemma order_left_without_items :
  let u := AuthUser.mk "u1" "ann@example.org" (Some "Ann") None in
  let pA := Product.mk "pA" "u7" "seller1" "Plum jam" None None (100 # 1) None
              "1" 5 (4 # 1) 2 "t0" "t0" in
  let c := CartItem.mk "c1" "u1" "pA" 2 "t0" "t0" in
  let s := Store.mk [] [] [pA] [c] [] [] [] 7 in
  let w := mkWorld s [false; true] ["K3J9"] "t1" (Some u) [] in
  let w' := snd (handlePlaceOrder u "12 Hill Road" "555-0101" online
                   [CartLine.mk c (Some pA)] w) in
  exists o,
    Store.orders (db w') = [o]
    /\ Order.totalAmount o = 200 # 1
    /\ itemsOfOrder (Order.id o) (Store.orderItems (db w')) = []
    /\ ~ (sumSubtotals (itemsOfOrder (Order.id o) (Store.orderItems (db w')))
          == Order.totalAmount o)%Q.
Proof.
  eexists. split; [vm_compute; reflexivity|].
  split; [reflexivity|]. split; [reflexivity|].
  vm_compute. discriminate.
Qed.

(** C2, amended.  Take any run of [handlePlaceOrder] and the orders and
    order items it appended to the store.  Every one of these orders either
    has no order item at all (its batch call was rejected) or has order
    items whose subtotals, added up left to right from 0 as [orderTotal]
    is, give the order's [totalAmount].  Each of these order items has
    [subtotal] equal to its snapshot [productPrice] times its [quantity],
    and carries the product, the quantity and the unit price
    ([item.product?.price || 0]) of a line of the page's cart as it was
    loaded: the price is not read again when the order is created.  In a
    run that reports success every created order has order items, so the
    equation holds for every created order. *)
Theorem subtotals_sum_to_total
    user address phone pm cartItems w newOrders newItems :
  let w' := snd (handlePlaceOrder user address phone pm cartItems w) in
  Store.orders (db w') = Store.orders (db w) ++ newOrders ->
  Store.orderItems (db w') = Store.orderItems (db w) ++ newItems ->
  forall o, In o newOrders ->
    let filed := itemsOfOrder (Order.id o) newItems in
    (filed = [] \/ sumSubtotals filed = Order.totalAmount o)
    /\ Forall (fun oi => OrderItem.subtotal oi
                         = (OrderItem.productPrice oi
                            * inject_Z (OrderItem.quantity oi))%Q)
              filed
    /\ Forall (fun oi => exists item,
                  In item cartItems
                  /\ sellerIdOf item = Some (Order.sellerId o)
                  /\ lineOfItem oi = lineOfCart item)
              filed
    /\ (placed w w' ->
        filed <> [] /\ sumSubtotals filed = Order.totalAmount o).
Proof.
  intros w' Ho Hi o Hin filed.
  destruct (handlePlaceOrder_created user address phone pm cartItems w)
    as (created & Co & Ci & Cf & Cnd). fold w' in Co, Ci.
  rewrite Co in Ho. rewrite Ci in Hi.
  apply app_inv_head in Ho, Hi. subst newOrders newItems.
  apply in_map_iff in Hin. destruct Hin as (c & <- & Hc).
  assert (Ef : filed = snd c).
  { apply CreatedFacts.itemsOfOrder_block;
      [exact Cnd | now apply (filed_orderIds _ _ Cf) | exact Hc]. }
  pose proof (filed_totals _ _ Cf) as Ht.
  rewrite Forall_forall in Ht. destruct (Ht _ Hc) as (Hsum & Hsub).
  pose proof (filed_scoped cartItems _ _ Cf (entries_scoped cartItems)
                (entries_from_cart cartItems)) as Hsc.
  rewrite Forall_forall in Hsc. specialize (Hsc _ Hc).
  rewrite Ef. split; [|split; [exact Hsub|split]].
  { destruct (snd c) as [|oi ois] eqn:Es; [now left|right].
    apply Hsum. discriminate. }
  { eapply Forall_impl; [|exact Hsc]. simpl.
    intros oi (item & H1 & H2 & _ & H4). eauto. }
  intros Hpl.
  destruct (RunFacts.placed_inv user address phone pm cartItems w Hpl)
    as (_ & _ & w1 & Eloop & Edb & _). fold w' in Edb.
  destruct (PlaceFacts.placeAll_ok _ _ _ _ _ _ _ Eloop)
    as (created' & Co' & Ci' & Cf' & _ & Cnd' & _).
  assert (Ec : map fst created = map fst created'
               /\ concat (map snd created) = concat (map snd created')).
  { rewrite Edb in Co, Ci. simpl in Co, Ci.
    rewrite Co' in Co. rewrite Ci' in Ci.
    apply app_inv_head in Co, Ci. now split. }
  destruct Ec as (Eo & Ei).
  assert (Hc' : exists c', In c' created' /\ fst c' = fst c).
  { assert (Hf : In (fst c) (map fst created')).
    { rewrite <- Eo. now apply in_map. }
    apply in_map_iff in Hf. destruct Hf as (c' & E & Hc'). eauto. }
  destruct Hc' as (c' & Hc' & Efst).
  assert (Ef' : filed = snd c').
  { unfold filed. rewrite Ei, <- Efst.
    apply CreatedFacts.itemsOfOrder_block;
      [exact Cnd' | eapply CreatedFacts.created_orderIds; exact Cf'
       | exact Hc']. }
  pose proof (created_nonempty _ _ Cf' (entries_nonempty cartItems)) as Hne.
  rewrite Forall_forall in Hne. specialize (Hne _ Hc').
  rewrite <- Ef', Ef in Hne. split; [exact Hne|]. now apply Hsum.
Qed.

Lemma subtotals_sum_to_total_witness :
  let u := AuthUser.mk "u1" "ann@example.org" (Some "Ann") None in
  let pA := Product.mk "pA" "u7" "seller1" "Plum jam" None None (100 # 1) None
              "1" 5 (4 # 1) 2 "t0" "t0" in
  let pB := Product.mk "pB" "u8" "seller2" "Olive soap" None None (50 # 1) None
              "1" 9 0 0 "t0" "t0" in
  let cA := CartItem.mk "c1" "u1" "pA" 2 "t0" "t0" in
  let cB := CartItem.mk "c2" "u1" "pB" 1 "t0" "t0" in
  let cart := [CartLine.mk cA (Some pA); CartLine.mk cB (Some pB)] in
  let s := Store.mk [] [] [pA; pB] [cA; cB] [] [] [] 7 in
  let w := mkWorld s [] ["K3J9"; "Q0ZT"] "t1" (Some u) [] in
  let w' := snd (handlePlaceOrder u "12 Hill Road" "555-0101" online cart w) in
  Forall (fun o => sumSubtotals (itemsOfOrder (Order.id o)
                                   (Store.orderItems (db w')))
                   = Order.totalAmount o)
         (Store.orders (db w'))
  /\ map Order.totalAmount (Store.orders (db w')) = [200 # 1; 50 # 1].
Proof.
  intros u pA pB cA cB cart s w w'. split.
  - rewrite Forall_forall. intros o Ho.
    destruct (subtotals_sum_to_total u "12 Hill Road" "555-0101" online cart w
                (Store.orders (db w')) (Store.orderItems (db w'))
                eq_refl eq_refl o Ho) as (_ & _ & _ & Hp).
    apply Hp. vm_compute. reflexivity.
  - vm_compute. reflexivity.
Defined.

(** ** Seller dashboard *)

Import SellerDashboard DashboardSpec.

Lemma patchStatus_id s ts o : Order.id (Order.patchStatus s ts o) = Order.id o.
Proof. reflexivity. Qed.

(** When the update call is served, the stored status of an existing order
    becomes the requested one, whatever it was. *)
Lemma updateOrderStatus_overwrites orderId newStatus pageOrders w o :
  Store.getById Order.id orderId (Store.orders (db w)) = Some o ->
  hd false (faults w) = false ->
  let w' := snd (updateOrderStatus orderId newStatus pageOrders w) in
  storedStatus orderId w' = Some newStatus
  /\ ui w' = ToastSuccess ("Order marked as " ++ statusName newStatus) :: ui w.
Proof.
  intros Hget Hf. unfold updateOrderStatus, tryCatch, bind, isoNow.
  rewrite await_eq, Hf. simpl. unfold storedStatus. simpl.
  rewrite (getById_update Order.id orderId orderId _ _
             (patchStatus_id newStatus (now w))).
  rewrite String.eqb_refl, Hget. simpl. split; reflexivity.
Qed.

(** C4, as stated, fails: [updateOrderStatus] performs no check of the
    current status.  Called on a delivered order with [pending], it is not
    rejected and the stored status becomes [pending]. *)
Lemma delivered_order_overwritten :
  let o := Order.mk "o1" "u1" "CRFT-K3J9" "seller1" "Ann" "555-0101"
             "12 Hill Road" (200 # 1) delivered online ps_paid "t0" "t0" in
  let s := Store.mk [] [] [] [] [o] [] [] 7 in
  let w := mkWorld s [] [] "t1" None [] in
  let w' := snd (updateOrderStatus "o1" pending [] w) in
  storedStatus "o1" w = Some delivered
  /\ storedStatus "o1" w' = Some pending
  /\ ui w' = [ToastSuccess "Order marked as pending"].
Proof. vm_compute. repeat split. Qed.

(** C4, amended.  For an order whose status is delivered or cancelled the
    dashboard renders no status button, so the page offers no further
    status-changing call for it (each earlier stage renders exactly the
    button of the next stage).  [updateOrderStatus] itself checks nothing:
    called for such an order with any new status, and served by the store,
    it overwrites the stored status with the new one and reports success. *)
Theorem terminal_status_guarded_by_ui_only status :
  status = delivered \/ status = cancelled ->
  statusButtons status = []
  /\ (map snd (statusButtons pending) = [confirmed]
      /\ map snd (statusButtons confirmed) = [preparing]
      /\ map snd (statusButtons preparing) = [ready]
      /\ map snd (statusButtons ready) = [delivered])
  /\ forall orderId newStatus pageOrders w o,
       Store.getById Order.id orderId (Store.orders (db w)) = Some o ->
       Order.status o = status ->
       hd false (faults w) = false ->
       let w' := snd (updateOrderStatus orderId newStatus pageOrders w) in
       storedStatus orderId w' = Some newStatus
       /\ ui w' = ToastSuccess ("Order marked as " ++ statusName newStatus)
                  :: ui w.
Proof.
  intros Hs. split; [destruct Hs as [-> | ->]; reflexivity|].
  split; [repeat split|].
  intros orderId newStatus pageOrders w o Hget _ Hf.
  now apply (updateOrderStatus_overwrites orderId newStatus pageOrders w o).
Qed.

Lemma terminal_status_guarded_by_ui_only_witness :
  let o := Order.mk "o1" "u1" "CRFT-K3J9" "seller1" "Ann" "555-0101"
             "12 Hill Road" (200 # 1) cancelled online ps_paid "t0" "t0" in
  let s := Store.mk [] [] [] [] [o] [] [] 7 in
  let w := mkWorld s [] [] "t1" None [] in
  statusButtons cancelled = []
  /\ storedStatus "o1" (snd (updateOrderStatus "o1" confirmed [] w))
     = Some confirmed.
Proof.
  intros o s w.
  destruct (terminal_status_guarded_by_ui_only cancelled (or_intror eq_refl))
    as (Hb & _ & Hu).
  split; [exact Hb|].
  apply (Hu "o1" confirmed [] w o); reflexivity.
Defined.

(** ** Product page: adding to the cart *)

Import ProductDetail CartSpec.

(** One served click: the first row of the pair gets the quantity added,
    or, when the pair has no row, a row is created. *)
Lemma handleAddToCart_calm me p q w :
  session w = Some me -> AuthUser.id me <> "" -> calm w ->
  exists w1,
    handleAddToCart true (Some p) q w = (inr tt, w1)
    /\ session w1 = Some me /\ calm w1
    /\ Store.cart (db w1)
       = match rowsOf (AuthUser.id me) (Product.id p) (Store.cart (db w)) with
         | e0 :: _ =>
             Store.updateById CartItem.id (CartItem.id e0)
               (CartItem.patchQuantity (CartItem.quantity e0 + q) (now w))
               (Store.cart (db w))
         | [] =>
             Store.cart (db w)
             ++ [CartItem.mk (Store.freshId (Store.nextId (db w)))
                   (AuthUser.id me) (Product.id p) q (now w) (now w)]
         end.
Proof.
  unfold calm. intros Hs Hid Hc.
  pose proof (all_false_hd _ Hc) as H1.
  pose proof (all_false_tl _ Hc) as Hc1.
  pose proof (all_false_hd _ Hc1) as H2.
  pose proof (all_false_tl _ Hc1) as Hc2.
  pose proof (all_false_hd _ Hc2) as H3.
  pose proof (all_false_tl _ Hc2) as Hc3.
  apply RunFacts.truthy_true in Hid.
  unfold handleAddToCart, tryCatch, bind. simpl.
  rewrite authMe_eq, H1. simpl. rewrite Hs. simpl. rewrite Hid.
  rewrite await_eq. simpl. rewrite H2. simpl.
  unfold rowsOf.
  destruct (filter _ (Store.cart (db w))) as [|e0 rest]; unfold isoNow;
    rewrite await_eq; simpl; rewrite H3; simpl;
    eexists; repeat split; trivial.
Qed.

Lemma rowsOf_update uid pid id q ts cart :
  rowsOf uid pid (Store.updateById CartItem.id id
                    (CartItem.patchQuantity q ts) cart)
  = map (fun r => if CartItem.id r =? id
                  then CartItem.patchQuantity q ts r else r)
        (rowsOf uid pid cart).
Proof.
  unfold rowsOf, Store.updateById. apply filter_map_invariant.
  intros r. now destruct (CartItem.id r =? id).
Qed.

(** Clicks on a pair that has exactly one row keep it the only row and add
    their quantities to it; the cart gains no row. *)
Lemma addAll_existing me p qs :
  forall w e0,
    session w = Some me -> AuthUser.id me <> "" -> calm w ->
    rowsOf (AuthUser.id me) (Product.id p) (Store.cart (db w)) = [e0] ->
    let w' := snd (addAll true (Some p) qs w) in
    exists row,
      rowsOf (AuthUser.id me) (Product.id p) (Store.cart (db w')) = [row]
      /\ CartItem.quantity row = fold_left Z.add qs (CartItem.quantity e0)
      /\ length (Store.cart (db w')) = length (Store.cart (db w)).
Proof.
  induction qs as [|q qs IH]; intros w e0 Hs Hid Hc Hrow; simpl.
  - exists e0. auto.
  - unfold addAll in *. simpl. unfold bind.
    destruct (handleAddToCart_calm me p q w Hs Hid Hc)
      as (w1 & -> & Hs1 & Hc1 & Ecart).
    rewrite Hrow in Ecart.
    assert (Hrow1 : rowsOf (AuthUser.id me) (Product.id p)
                      (Store.cart (db w1))
                    = [CartItem.patchQuantity (CartItem.quantity e0 + q)
                         (now w) e0]).
    { rewrite Ecart, rowsOf_update, Hrow. simpl.
      now rewrite String.eqb_refl. }
    destruct (IH w1 _ Hs1 Hid Hc1 Hrow1) as (row & Hr & Hq & Hl).
    exists row. repeat split; trivial.
    rewrite Hl, Ecart. unfold Store.updateById. apply length_map.
Qed.

Lemma fold_add_from (qs : list Z) (a : Z) :
  fold_left Z.add qs a = (a + total qs)%Z.
Proof.
  unfold total. revert a. induction qs as [|q qs IH]; intros a; simpl.
  - lia.
  - rewrite IH, (IH q). lia.
Qed.

(** C6.  The same signed-in user clicks "Add to Cart" on the same product
    with the quantities q1 .. qk, one click after the other, every service
    call being served.  If the cart held no row for the pair and k >= 1,
    the store afterwards holds exactly one CartItem for the pair, its
    quantity is q1 + ... + qk, and the cart has grown by that one row only.
    If the cart already held one row for the pair, that row stays the only
    one, its quantity is its former quantity + q1 + ... + qk, and the cart
    has gained no row: an existing row's quantity is replaced by
    [existing.quantity + q], no second row is inserted. *)
Theorem add_to_cart_accumulates me p qs w :
  session w = Some me -> AuthUser.id me <> "" -> calm w ->
  let w' := snd (addAll true (Some p) qs w) in
  let rows c := rowsOf (AuthUser.id me) (Product.id p) c in
  (rows (Store.cart (db w)) = [] -> qs <> [] ->
   exists row,
     rows (Store.cart (db w')) = [row]
     /\ CartItem.quantity row = total qs
     /\ length (Store.cart (db w')) = S (length (Store.cart (db w))))
  /\ (forall e0,
        rows (Store.cart (db w)) = [e0] ->
        exists row,
          rows (Store.cart (db w')) = [row]
          /\ CartItem.quantity row = (CartItem.quantity e0 + total qs)%Z
          /\ length (Store.cart (db w')) = length (Store.cart (db w))).
Proof.
  intros Hs Hid Hc w' rows. split.
  - intros Hrow Hne. subst w' rows. simpl in *.
    destruct qs as [|q qs]; [contradiction|].
    unfold addAll. simpl. unfold bind.
    destruct (handleAddToCart_calm me p q w Hs Hid Hc)
      as (w1 & -> & Hs1 & Hc1 & Ecart).
    rewrite Hrow in Ecart.
    set (r := CartItem.mk (Store.freshId (Store.nextId (db w)))
                (AuthUser.id me) (Product.id p) q (now w) (now w)) in *.
    assert (Hrow1 : rowsOf (AuthUser.id me) (Product.id p)
                      (Store.cart (db w1)) = [r]).
    { rewrite Ecart. unfold rowsOf in *. rewrite filter_app, Hrow. simpl.
      now rewrite !String.eqb_refl. }
    destruct (addAll_existing me p qs w1 r Hs1 Hid Hc1 Hrow1)
      as (row & Hr & Hq & Hl).
    exists row. split; [exact Hr|]. split.
    + rewrite Hq. reflexivity.
    + unfold addAll in Hl. rewrite Hl, Ecart, length_app. simpl. lia.
  - intros e0 Hrow.
    destruct (addAll_existing me p qs w e0 Hs Hid Hc Hrow)
      as (row & Hr & Hq & Hl).
    exists row. repeat split; trivial.
    rewrite Hq. apply fold_add_from.
Qed.

Lemma add_to_cart_accumulates_witness :
  let u := AuthUser.mk "u1" "ann@example.org" (Some "Ann") None in
  let pB := Product.mk "pB" "u8" "seller2" "Olive soap" None None (50 # 1) None
              "1" 9 0 0 "t0" "t0" in
  let other := CartItem.mk "c9" "u2" "pB" 6 "t0" "t0" in
  let s := Store.mk [] [] [pB] [other] [] [] [] 7 in
  let w := mkWorld s [] [] "t1" (Some u) [] in
  let w' := snd (addAll true (Some pB) [2; 3; 4]%Z w) in
  exists row,
    rowsOf "u1" "pB" (Store.cart (db w')) = [row]
    /\ CartItem.quantity row = 9%Z
    /\ length (Store.cart (db w')) = 2%nat.
Proof.
  intros u pB other s w.
  destruct (add_to_cart_accumulates u pB [2; 3; 4]%Z w) as (H & _).
  - reflexivity.
  - discriminate.
  - constructor.
  - destruct H as (row & Hr & Hq & Hl).
    + reflexivity.
    + discriminate.
    + exists row. repeat split; assumption.
Defined.

(** ** Review page *)

Import ReviewPage ReviewSpec.

(** A completed iteration: the product of the line, when stored, has been
    patched from its fetched state; other products and all sellers are as
    before. *)
Lemma reviewItem_ok o user reviews item w w1 :
  reviewItem o user reviews item w = (inr tt, w1) ->
  exists review,
    JS.lookup (OrderItem.productId item) reviews = Some review
    /\ Store.sellers (db w1) = Store.sellers (db w)
    /\ forall pid,
         Store.getById Product.id pid (Store.products (db w1))
         = if pid =? OrderItem.productId item
           then option_map (reviewed review)
                  (Store.getById Product.id pid (Store.products (db w)))
           else Store.getById Product.id pid (Store.products (db w)).
Proof.
  unfold reviewItem.
  destruct (JS.lookup (OrderItem.productId item) reviews) as [review|];
    [|discriminate].
  unfold bind, isoNow. rewrite await_eq. simpl.
  destruct (hd false (faults w)); [discriminate|]. simpl.
  rewrite await_eq. simpl.
  destruct (hd false (tl (faults w))); [discriminate|]. simpl.
  destruct (Store.getById Product.id (OrderItem.productId item)
              (Store.products (db w))) as [product|] eqn:G.
  - rewrite await_eq. simpl.
    destruct (hd false (tl (tl (faults w)))); [discriminate|]. simpl.
    intros H. injection H as <-. exists review. simpl.
    repeat split. intros pid.
    rewrite getById_update by reflexivity.
    destruct (String.eqb_spec pid (OrderItem.productId item)) as [->|];
      [|reflexivity].
    rewrite G. reflexivity.
  - unfold ret. intros H. injection H as <-. exists review. simpl.
    repeat split. intros pid.
    destruct (String.eqb_spec pid (OrderItem.productId item)) as [->|];
      [|reflexivity].
    rewrite G. reflexivity.
Qed.

Lemma reviewItems_ok o user reviews items :
  forall w w1,
    forEachM (reviewItem o user reviews) items w = (inr tt, w1) ->
    Store.sellers (db w1) = Store.sellers (db w)
    /\ (forall pid,
          ~ In pid (map OrderItem.productId items) ->
          Store.getById Product.id pid (Store.products (db w1))
          = Store.getById Product.id pid (Store.products (db w)))
    /\ (NoDup (map OrderItem.productId items) ->
        forall item review,
          In item items ->
          JS.lookup (OrderItem.productId item) reviews = Some review ->
          Store.getById Product.id (OrderItem.productId item)
            (Store.products (db w1))
          = option_map (reviewed review)
              (Store.getById Product.id (OrderItem.productId item)
                 (Store.products (db w)))).
Proof.
  induction items as [|it items IH]; intros w w1; simpl.
  - unfold ret. intros H. injection H as <-.
    repeat split; trivial. intros _ item review [].
  - unfold bind.
    destruct (reviewItem o user reviews it w) as [[e|[]] w0] eqn:E;
      [discriminate|].
    intros H. apply reviewItem_ok in E.
    destruct E as (rv & Hrv & Es & Ep).
    destruct (IH _ _ H) as (Is & Iother & Inodup).
    split; [congruence|]. split.
    + intros pid Hnot. rewrite Iother by tauto. rewrite Ep.
      destruct (String.eqb_spec pid (OrderItem.productId it)); [|reflexivity].
      subst. tauto.
    + intros Hnd item review Hin Hl.
      inversion Hnd as [|? ? Hnotin Hnd']; subst.
      destruct Hin as [->|Hin].
      * rewrite Iother by exact Hnotin. rewrite Ep, String.eqb_refl.
        congruence.
      * rewrite (Inodup Hnd' _ _ Hin Hl). rewrite Ep.
        destruct (String.eqb_spec (OrderItem.productId item)
                    (OrderItem.productId it)) as [E|]; [|reflexivity].
        exfalso. apply Hnotin. rewrite <- E. now apply in_map.
Qed.

(** A submission that reported success ran the whole loop, then fetched the
    seller and, when found, patched its [total_reviews]. *)
Lemma submitted_inv order user reviews w :
  let w' := snd (handleSubmit (Some order) (Some user) reviews w) in
  let sid := Order.sellerId (OrderWithItems.order order) in
  submitted w w' ->
  exists w1,
    forEachM (reviewItem (OrderWithItems.order order) user reviews)
      (itemsOf order) w = (inr tt, w1)
    /\ Store.products (db w') = Store.products (db w1)
    /\ Store.sellers (db w')
       = match Store.getById Seller.id sid (Store.sellers (db w1)) with
         | Some seller =>
             Store.updateById Seller.id sid
               (Seller.patchTotalReviews
                  (Seller.totalReviews seller
                   + Z.of_nat (length (itemsOf order)))%Z)
               (Store.sellers (db w1))
         | None => Store.sellers (db w1)
         end.
Proof.
  cbv zeta. unfold submitted, handleSubmit, tryCatch, bind.
  destruct (forEachM _ (itemsOf order) w) as [[e|[]] w1]; simpl;
    [discriminate|].
  rewrite await_eq. simpl.
  destruct (hd false (faults w1)); simpl; [discriminate|].
  destruct (Store.getById Seller.id _ (Store.sellers (db w1)))
    as [seller|] eqn:G.
  - rewrite await_eq. simpl.
    destruct (hd false (tl (faults w1))); simpl; [discriminate|].
    intros _. exists w1. rewrite G. repeat split.
  - simpl. intros _. exists w1. rewrite G. repeat split.
Qed.

(** An iteration that throws leaves the products as they were: the product
    update is its last call. *)
Lemma reviewItem_fail o user reviews item w e w0 :
  reviewItem o user reviews item w = (inl e, w0) ->
  Store.products (db w0) = Store.products (db w)
  /\ Store.sellers (db w0) = Store.sellers (db w)
  /\ ui w0 = ui w.
Proof.
  unfold reviewItem.
  destruct (JS.lookup (OrderItem.productId item) reviews) as [review|].
  2:{ unfold throw. intros H. injection H as _ <-. auto. }
  unfold bind, isoNow. rewrite await_eq. simpl.
  destruct (hd false (faults w)); simpl.
  { intros H. injection H as _ <-. auto. }
  rewrite await_eq. simpl.
  destruct (hd false (tl (faults w))); simpl.
  { intros H. injection H as _ <-. auto. }
  destruct (Store.getById Product.id (OrderItem.productId item)
              (Store.products (db w))) as [product|].
  - rewrite await_eq. simpl.
    destruct (hd false (tl (tl (faults w)))); simpl; [|discriminate].
    intros H. injection H as _ <-. auto.
  - discriminate.
Qed.





(** Whatever its outcome, the loop leaves the sellers and the UI log as
    they were. *)
Lemma reviewItems_sellers o user reviews items :
  forall w,
    let w1 := snd (forEachM (reviewItem o user reviews) items w) in
    Store.sellers (db w1) = Store.sellers (db w) /\ ui w1 = ui w.
Proof.
  induction items as [|it items IH]; intros w; simpl; [auto|].
  unfold bind.
  destruct (reviewItem o user reviews it w) as [[e|[]] w0] eqn:E; simpl.
  - apply reviewItem_fail in E. tauto.
  - specialize (IH w0). simpl in IH. destruct IH as (I1 & I2).
    assert (F : Store.sellers (db w0) = Store.sellers (db w) /\ ui w0 = ui w).
    { revert E. unfold reviewItem.
      destruct (JS.lookup (OrderItem.productId it) reviews) as [review|];
        [|discriminate].
      unfold bind, isoNow. rewrite await_eq. simpl.
      destruct (hd false (faults w)); [discriminate|]. simpl.
      rewrite await_eq. simpl.
      destruct (hd false (tl (faults w))); [discriminate|]. simpl.
      destruct (Store.getById Product.id (OrderItem.productId it)
                  (Store.products (db w))) as [product|].
      - rewrite await_eq. simpl.
        destruct (hd false (tl (tl (faults w)))); [discriminate|]. simpl.
        intros H. injection H as <-. auto.
      - unfold ret. intros H. injection H as <-. auto. }
    destruct F as (F1 & F2). split; congruence.
Qed.

(** The sellers are patched by a run that reports success only. *)
Lemma handleSubmit_sellers_kept order user reviews w :
  let w' := snd (handleSubmit (Some order) (Some user) reviews w) in
  submitted w w' \/ Store.sellers (db w') = Store.sellers (db w).
Proof.
  cbv zeta. unfold handleSubmit, tryCatch, bind.
  pose proof (reviewItems_sellers (OrderWithItems.order order) user reviews
                (itemsOf order) w) as F.
  destruct (forEachM _ (itemsOf order) w) as [[e|[]] w1]; simpl in F;
    destruct F as (F1 & F2); simpl.
  { now right. }
  rewrite await_eq. simpl.
  destruct (hd false (faults w1)); simpl; [now right|].
  destruct (Store.getById Seller.id _ (Store.sellers (db w1))) as [seller|].
  - rewrite await_eq. simpl.
    destruct (hd false (tl (faults w1))); simpl; [now right|].
    left. unfold submitted. simpl. now rewrite F2.
  - simpl. left. unfold submitted. simpl. now rewrite F2.
Qed.




(** C7, as stated, fails: a submission in which a call after the review
    loop rejects has stored its reviews and re-rated the product, and leaves
    the seller's [totalReviews] at 10. *)
Lemma seller_not_counted_when_run_aborts :
  let u := AuthUser.mk "u1" "ann@example.org" (Some "Ann") None in
  let sl := Seller.mk "seller1" "u7" (Some "Ann's pantry") vs_approved
              (9 # 2) 10 4 (800 # 1) "1" "t0" "t0" in
  let pA := Product.mk "pA" "u7" "seller1" "Plum jam" None None (100 # 1) None
              "1" 5 (4 # 1) 2 "t0" "t0" in
  let o := Order.mk "o1" "u1" "CRFT-K3J9" "seller1" "Ann" "555-0101"
             "12 Hill Road" (200 # 1) delivered online ps_paid "t0" "t0" in
  let i1 := OrderItem.mk "i1" "u1" "o1" "pA" "Plum jam" (100 # 1) 2 (200 # 1)
              "t0" in
  let s := Store.mk [] [sl] [pA] [] [o] [i1] [] 7 in
  let w := mkWorld s [false; false; false; true] [] "t1" (Some u) [] in
  let w' := snd (handleSubmit (Some (OrderWithItems.mk o (Some [i1])))
                   (Some u) [("pA", mkDraft 5 "Lovely")] w) in
  ui w' = [ToastError "Failed to submit reviews"]
  /\ map Review.productId (Store.reviews (db w')) = ["pA"]
  /\ map Product.totalReviews (Store.products (db w')) = [3%Z]
  /\ map Seller.totalReviews (Store.sellers (db w')) = [10%Z]
  /\ Store.sellers (db w') = [sl].
Proof. vm_compute. repeat split. Qed.

(** C7, amended.  The seller is patched by the last store call of a
    submission, after the review loop.  In a submission that reports
    success, the stored seller of the reviewed order ends with totalReviews
    = old totalReviews + the number of order items of the order (the length
    of [order.items]); in a submission that does not report success the
    seller is exactly as before, whatever reviews were stored.  In both
    cases its ratingAverage, like every field other than totalReviews, is
    as it was. *)
Theorem seller_total_reviews_adds_item_count order user reviews w seller :
  let w' := snd (handleSubmit (Some order) (Some user) reviews w) in
  let sid := Order.sellerId (OrderWithItems.order order) in
  Store.getById Seller.id sid (Store.sellers (db w)) = Some seller ->
  exists seller',
    Store.getById Seller.id sid (Store.sellers (db w')) = Some seller'
    /\ Seller.ratingAverage seller' = Seller.ratingAverage seller
    /\ seller' = Seller.patchTotalReviews (Seller.totalReviews seller') seller
    /\ (submitted w w' ->
        Seller.totalReviews seller'
        = (Seller.totalReviews seller + Z.of_nat (length (itemsOf order)))%Z)
    /\ (~ submitted w w' -> seller' = seller).
Proof.
  intros w' sid Hget.
  assert (Hsub : submitted w w' ->
                 Store.getById Seller.id sid (Store.sellers (db w'))
                 = Some (Seller.patchTotalReviews
                           (Seller.totalReviews seller
                            + Z.of_nat (length (itemsOf order)))
                           seller)).
  { intros Hs.
    destruct (submitted_inv order user reviews w Hs)
      as (w1 & Eloop & _ & Es). fold w' sid in Es.
    destruct (reviewItems_ok _ _ _ _ _ _ Eloop) as (Hsl & _).
    rewrite Hsl, Hget in Es.
    rewrite Es, getById_update by reflexivity.
    now rewrite String.eqb_refl, Hget. }
  destruct (handleSubmit_sellers_kept order user reviews w) as [Hs|Hkept];
    fold w' in Hs || fold w' in Hkept.
  - exists (Seller.patchTotalReviews
              (Seller.totalReviews seller + Z.of_nat (length (itemsOf order)))
              seller).
    split; [now apply Hsub|]. repeat split. intros Hn. contradiction.
  - exists seller. rewrite Hkept. split; [exact Hget|].
    split; [reflexivity|]. split; [now destruct seller|].
    split; [|reflexivity].
    intros Hs. specialize (Hsub Hs). rewrite Hkept, Hget in Hsub.
    injection Hsub as E. rewrite E at 1. reflexivity.
Qed.

Lemma seller_total_reviews_adds_item_count_witness :
  let u := AuthUser.mk "u1" "ann@example.org" (Some "Ann") None in
  let sl := Seller.mk "seller1" "u7" (Some "Ann's pantry") vs_approved
              (9 # 2) 10 4 (800 # 1) "1" "t0" "t0" in
  let pA := Product.mk "pA" "u7" "seller1" "Plum jam" None None (100 # 1) None
              "1" 5 (4 # 1) 2 "t0" "t0" in
  let pB := Product.mk "pB" "u7" "seller1" "Quince jelly" None None (60 # 1)
              None "1" 5 0 0 "t0" "t0" in
  let o := Order.mk "o1" "u1" "CRFT-K3J9" "seller1" "Ann" "555-0101"
             "12 Hill Road" (260 # 1) delivered online ps_paid "t0" "t0" in
  let i1 := OrderItem.mk "i1" "u1" "o1" "pA" "Plum jam" (100 # 1) 2 (200 # 1)
              "t0" in
  let i2 := OrderItem.mk "i2" "u1" "o1" "pB" "Quince jelly" (60 # 1) 1
              (60 # 1) "t0" in
  let s := Store.mk [] [sl] [pA; pB] [] [o] [i1; i2] [] 7 in
  let w := mkWorld s [] [] "t1" (Some u) [] in
  let w' := snd (handleSubmit (Some (OrderWithItems.mk o (Some [i1; i2])))
                   (Some u)
                   [("pA", mkDraft 5 "Lovely"); ("pB", mkDraft 2 "")] w) in
  exists seller',
    Store.getById Seller.id "seller1" (Store.sellers (db w')) = Some seller'
    /\ Seller.totalReviews seller' = 12%Z
    /\ Seller.ratingAverage seller' = 9 # 2.
Proof.
  intros u sl pA pB o i1 i2 s w.
  destruct (seller_total_reviews_adds_item_count
              (OrderWithItems.mk o (Some [i1; i2])) u
              [("pA", mkDraft 5 "Lovely"); ("pB", mkDraft 2 "")] w sl)
    as (s' & Hg & Ha & _ & Ht & _).
  - reflexivity.
  - exists s'. split; [exact Hg|]. split; [|exact Ha].
    apply Ht. vm_compute. reflexivity.
Defined.

(** * Further properties of the pages *)

Import MoreSpec.

(** ** Checkout: the displayed total and the order snapshots *)

Lemma nodup_all_same {A} (s : A) (l : list A) :
  NoDup l -> (forall x, In x l -> x = s) -> In s l -> l = [s].
Proof.
  intros Hnd Hall Hin. destruct l as [|a [|b l]].
  - contradiction.
  - now rewrite (Hall a (or_introl eq_refl)).
  - exfalso. inversion Hnd as [|? ? Hnot _]; subst. apply Hnot.
    rewrite (Hall a), <- (Hall b); simpl; auto.
Qed.

(** On a cart all of whose lines resolve to [s], the lines of [s] are the
    whole cart and [s] is the only seller of the partition. *)
Lemma single_seller_lines s cart :
  Forall (fun item => sellerIdOf item = Some s) cart ->
  linesOf s cart = cart.
Proof.
  intros H. unfold linesOf. apply filter_all.
  eapply Forall_impl; [|exact H]. simpl. intros item ->.
  apply String.eqb_refl.
Qed.

Lemma single_seller_keys s cart :
  cart <> [] ->
  Forall (fun item => sellerIdOf item = Some s) cart ->
  JS.keys (groupBySeller cart) = [s].
Proof.
  intros Hne H. rewrite Forall_forall in H.
  apply nodup_all_same.
  - apply CheckoutFacts.groupBySeller_nodup.
  - intros k Hk. apply CheckoutFacts.groupBySeller_keys in Hk.
    destruct Hk as (item & Hin & Hs). rewrite (H _ Hin) in Hs. congruence.
  - apply CheckoutFacts.groupBySeller_keys.
    destruct cart as [|item cart]; [contradiction|].
    exists item. split; [now left|]. apply H. now left.
Qed.

(** X1.  Whatever the outcome of a checkout, the [totalAmount] of every
    order it stored is the page's displayed-total formula applied to the
    cart lines of the order's seller, taken in cart order: the same
    multiplications and additions in the same order.  So for a cart all of
    whose lines resolve to one seller, every order stored bears the total
    the page displayed, and a run that reports success stores exactly one
    order, for that seller. *)
Theorem order_total_is_displayed_total_of_its_lines
    user address phone pm cartItems w newOrders :
  let w' := snd (handlePlaceOrder user address phone pm cartItems w) in
  Store.orders (db w') = Store.orders (db w) ++ newOrders ->
  Forall (fun o => Order.totalAmount o
                   = Checkout.total (linesOf (Order.sellerId o) cartItems))
         newOrders
  /\ (forall s,
        cartItems <> [] ->
        Forall (fun item => sellerIdOf item = Some s) cartItems ->
        Forall (fun o => Order.sellerId o = s
                         /\ Order.totalAmount o = Checkout.total cartItems)
               newOrders
        /\ (placed w w' -> length newOrders = 1%nat)).
Proof.
  intros w' Ho.
  destruct (handlePlaceOrder_created user address phone pm cartItems w)
    as (created & Co & _ & Cf & _). fold w' in Co.
  rewrite Co in Ho. apply app_inv_head in Ho. subst newOrders.
  pose proof (filed_sellers cartItems created Cf) as Hsel.
  rewrite Forall_forall in Hsel.
  assert (Hall : Forall (fun o => In (Order.sellerId o)
                                     (JS.keys (groupBySeller cartItems))
                                  /\ Order.totalAmount o
                                     = Checkout.total
                                         (linesOf (Order.sellerId o) cartItems))
                        (map fst created)).
  { rewrite Forall_forall. intros o Hin.
    apply in_map_iff in Hin. destruct Hin as (c & <- & Hc). now apply Hsel. }
  split.
  - eapply Forall_impl; [|exact Hall]. simpl. tauto.
  - intros s Hne Hone. split.
    + eapply Forall_impl; [|exact Hall]. simpl. intros o (Hk & Ht).
      rewrite (single_seller_keys s cartItems Hne Hone) in Hk.
      destruct Hk as [E|[]]. rewrite <- E in Ht.
      rewrite (single_seller_lines s cartItems Hone) in Ht. now split.
    + intros Hpl.
      destruct (RunFacts.placed_inv user address phone pm cartItems w Hpl)
        as (_ & _ & w1 & Eloop & Edb & _). fold w' in Edb.
      destruct (PlaceFacts.placeAll_ok _ _ _ _ _ _ _ Eloop)
        as (created' & Co' & _ & Cf' & _).
      rewrite Edb in Co. simpl in Co. rewrite Co' in Co.
      apply app_inv_head in Co. rewrite <- Co.
      pose proof (CreatedFacts.created_sellers _ _ Cf') as Es.
      apply (f_equal (@length string)) in Es.
      rewrite !length_map in Es. rewrite length_map, Es.
      rewrite (Permutation_length (entries_perm (groupBySeller cartItems))).
      pose proof (single_seller_keys s cartItems Hne Hone) as Ek.
      apply (f_equal (@length string)) in Ek.
      unfold JS.keys in Ek. now rewrite length_map in Ek.
Qed.

Lemma order_total_is_displayed_total_of_its_lines_witness :
  let u := AuthUser.mk "u1" "ann@example.org" (Some "Ann") None in
  let pA := Product.mk "pA" "u7" "seller1" "Plum jam" None None (1 # 10) None
              "1" 5 (4 # 1) 2 "t0" "t0" in
  let pB := Product.mk "pB" "u7" "seller1" "Quince jelly" None None (2 # 10)
              None "1" 9 0 0 "t0" "t0" in
  let pC := Product.mk "pC" "u7" "seller1" "Fig chutney" None None (3 # 10)
              None "1" 9 0 0 "t0" "t0" in
  let cA := CartItem.mk "c1" "u1" "pA" 1 "t0" "t0" in
  let cB := CartItem.mk "c2" "u1" "pB" 1 "t0" "t0" in
  let cC := CartItem.mk "c3" "u1" "pC" 1 "t0" "t0" in
  let cart := [CartLine.mk cA (Some pA); CartLine.mk cB (Some pB);
               CartLine.mk cC (Some pC)] in
  let s := Store.mk [] [] [pA; pB; pC] [cA; cB; cC] [] [] [] 7 in
  let w := mkWorld s [] ["K3J9"] "t1" (Some u) [] in
  let w' := snd (handlePlaceOrder u "12 Hill Road" "555-0101" online cart w) in
  Forall (fun o => Order.sellerId o = "seller1"
                   /\ Order.totalAmount o = Checkout.total cart)
         (Store.orders (db w'))
  /\ length (Store.orders (db w')) = 1%nat.
Proof.
  intros u pA pB pC cA cB cC cart s w w'.
  destruct (order_total_is_displayed_total_of_its_lines u "12 Hill Road"
              "555-0101" online cart w (Store.orders (db w')) eq_refl)
    as (_ & H).
  destruct (H "seller1") as (Hall & Hone).
  - discriminate.
  - repeat constructor.
  - split; [exact Hall|]. apply Hone. vm_compute. reflexivity.
Defined.

Lemma orStr_some (s d : string) : d = "" -> orStr (Some s) d = s.
Proof.
  intros ->. unfold orStr, JS.or.
  destruct (JS.truthy s) eqn:E; [reflexivity|].
  apply RunFacts.truthy_false in E. now subst.
Qed.

Lemma orStr_nonempty (a : option string) (d : string) :
  d <> "" -> orStr a d <> "".
Proof.
  intros Hd. unfold orStr, JS.or. destruct a as [s|]; [|exact Hd].
  destruct (JS.truthy s) eqn:E; [|exact Hd].
  now apply RunFacts.truthy_true in E.
Qed.

Lemma newOrder_stamped user address phone pm suffix sid total0 ts ts' id :
  stamped user address phone pm
    (newOrder user address phone pm ("CRFT-" ++ suffix) sid total0 ts ts' id).
Proof.
  unfold stamped, newOrder; simpl. repeat split.
  - now apply orStr_some.
  - apply orStr_nonempty. discriminate.
  - now destruct suffix.
Qed.

Lemma placeOne_stamped user address phone pm entry w :
  let w1 := snd (placeOne user address phone pm entry w) in
  Store.orders (db w1) = Store.orders (db w)
  \/ exists o, Store.orders (db w1) = Store.orders (db w) ++ [o]
               /\ stamped user address phone pm o.
Proof.
  destruct entry as [sid items]. unfold placeOne, bind, random, isoNow.
  destruct (entropy w); rewrite await_eq; simpl;
    destruct (hd false (faults w)); simpl; auto;
    rewrite await_eq; simpl;
    destruct (hd false (tl (faults w))); simpl;
    right; eexists; (split; [reflexivity|apply newOrder_stamped]).
Qed.

Lemma placeAll_stamped user address phone pm entries w :
  let w1 := snd (forEachM (placeOne user address phone pm) entries w) in
  exists newOrders,
    Store.orders (db w1) = Store.orders (db w) ++ newOrders
    /\ Forall (stamped user address phone pm) newOrders.
Proof.
  revert w. induction entries as [|entry entries IH]; intros w; simpl.
  - exists []. now rewrite app_nil_r.
  - unfold bind. pose proof (placeOne_stamped user address phone pm entry w) as H.
    destruct (placeOne user address phone pm entry w) as [[e|[]] w0];
      simpl in H.
    + destruct H as [H|(o & H & Hs)].
      * exists []. now rewrite app_nil_r.
      * exists [o]. split; [exact H|now constructor].
    + specialize (IH w0). simpl in IH. destruct IH as (rest & Er & Hr).
      destruct H as [H|(o & H & Hs)].
      * exists rest. now rewrite Er, H.
      * exists (o :: rest). rewrite Er, H, <- app_assoc. simpl.
        split; [reflexivity|now constructor].
Qed.

(** X2.  Whatever the outcome of a checkout, every order it stored is a
    snapshot of the form: it belongs to the buyer, carries the phone and the
    address entered and the chosen payment method, starts as [pending], is
    marked [paid] exactly when the method is [online] (no payment call is
    made) and [pending] for cash on delivery, has a non-empty buyer name
    (the profile name, else the account name, else "Customer"), and bears a
    number that starts with "CRFT-". *)
Theorem created_orders_are_stamped
    user address phone pm cartItems w newOrders :
  let w' := snd (handlePlaceOrder user address phone pm cartItems w) in
  Store.orders (db w') = Store.orders (db w) ++ newOrders ->
  Forall (stamped user address phone pm) newOrders.
Proof.
  intros w' Ho. subst w'. rewrite RunFacts.handlePlaceOrder_eq in Ho.
  destruct (negb (JS.truthy address) || negb (JS.truthy phone)).
  { simpl in Ho. rewrite <- (app_nil_r (Store.orders (db w))) in Ho at 1.
    apply app_inv_head in Ho. subst. constructor. }
  destruct (existsb clashes cartItems).
  - simpl in Ho. rewrite <- (app_nil_r (Store.orders (db w))) in Ho at 1.
    apply app_inv_head in Ho. subst. constructor.
  - unfold tryCatch, bind in Ho.
    destruct (placeAll_stamped user address phone pm
                (JS.entries (groupBySeller cartItems)) w) as (l & El & Hl).
    destruct (forEachM _ _ w) as [[e|[]] w1]; simpl in *.
    + rewrite El in Ho. apply app_inv_head in Ho. now subst.
    + rewrite await_eq in Ho.
      destruct (hd false (faults w1)); simpl in Ho;
        rewrite El in Ho; apply app_inv_head in Ho; now subst.
Qed.

Lemma created_orders_are_stamped_witness :
  let u := AuthUser.mk "u1" "ann@example.org" None None in
  let pA := Product.mk "pA" "u7" "seller1" "Plum jam" None None (100 # 1) None
              "1" 5 (4 # 1) 2 "t0" "t0" in
  let cA := CartItem.mk "c1" "u1" "pA" 2 "t0" "t0" in
  let s := Store.mk [] [] [pA] [cA] [] [] [] 7 in
  let w := mkWorld s [false; true] ["K3J9"] "t1" (Some u) [] in
  let w' := snd (handlePlaceOrder u "12 Hill Road" "555-0101" online
                   [CartLine.mk cA (Some pA)] w) in
  Forall (stamped u "12 Hill Road" "555-0101" online) (Store.orders (db w'))
  /\ map Order.buyerName (Store.orders (db w')) = ["Customer"]
  /\ map Order.paymentStatus (Store.orders (db w')) = [ps_paid].
Proof.
  intros u pA cA s w w'. split.
  - apply (created_orders_are_stamped u "12 Hill Road" "555-0101" online
             [CartLine.mk cA (Some pA)] w). reflexivity.
  - vm_compute. split; reflexivity.
Defined.

(** ** Checkout: loading the cart *)

Section LoadCart.
Variable user : AuthUser.t.

Local Abbreviation join :=
  (fun item : CartItem.t =>
     product <- await (Store.products_get (CartItem.productId item)) ;;
     ret (CartLine.mk item product)).

Lemma mapM_join_cons c items w :
  mapM join (c :: items) w
  = if hd false (faults w)
    then (inl StoreError, set_faults (tl (faults w)) w)
    else
      match mapM join items (set_db (db w) (set_faults (tl (faults w)) w))
      with
      | (inr bs, w1) =>
          (inr (CartLine.mk c
                  (Store.getById Product.id (CartItem.productId c)
                     (Store.products (db w))) :: bs), w1)
      | (inl e, w1) => (inl e, w1)
      end.
Proof.
  simpl. unfold bind. rewrite await_eq.
  destruct (hd false (faults w)); simpl; [reflexivity|].
  destruct (mapM _ items _) as [[e|bs] w1]; reflexivity.
Qed.

Lemma joinAll_frame items :
  forall w,
    let r := mapM join items w in
    db (snd r) = db w /\ ui (snd r) = ui w
    /\ forall ls,
         fst r = inr ls ->
         ls = map (fun c => CartLine.mk c
                     (Store.getById Product.id (CartItem.productId c)
                        (Store.products (db w)))) items.
Proof.
  induction items as [|c items IH]; intros w r; subst r.
  - simpl. split; [reflexivity|]. split; [reflexivity|].
    intros ls H. now injection H as <-.
  - rewrite mapM_join_cons.
    destruct (hd false (faults w)); simpl.
    + split; [reflexivity|]. split; [reflexivity|]. discriminate.
    + set (w0 := set_db (db w) (set_faults (tl (faults w)) w)).
      destruct (IH w0) as (Idb & Iui & Ires).
      destruct (mapM _ items w0) as [[e|bs] w1]; simpl in *.
      * split; [exact Idb|]. split; [exact Iui|]. discriminate.
      * split; [exact Idb|]. split; [exact Iui|].
        intros ls H. injection H as <-. now rewrite (Ires bs eq_refl).
Qed.

Lemma joinAll_calm items :
  forall w, calm w -> exists ls w1, mapM join items w = (inr ls, w1).
Proof.
  induction items as [|c items IH]; intros w Hc.
  - now exists [], w.
  - rewrite mapM_join_cons.
    unfold calm in Hc. rewrite (all_false_hd _ Hc).
    set (w0 := set_db (db w) (set_faults (tl (faults w)) w)).
    destruct (IH w0) as (bs & w1 & E).
    { unfold calm, w0. simpl. now apply all_false_tl. }
    rewrite E. eauto.
Qed.

(** X3.  [loadCart] never writes to the store.  The [cartItems] state it
    yields is never a partial list: it is either the previous state, or all
    the rows of the user's cart, in stored order, each joined with the
    product currently stored under its [productId] (no product when none is
    stored).  When no call rejects and the user has rows, it is the latter,
    and nothing is shown; with no row the page navigates to [/home]. *)
Theorem loadCart_joins_rows_with_products prev w :
  let r := loadCart user prev w in
  let rows := filter (fun c => CartItem.userId c =? AuthUser.id user)
                     (Store.cart (db w)) in
  let joined :=
    map (fun c => CartLine.mk c
                    (Store.getById Product.id (CartItem.productId c)
                       (Store.products (db w)))) rows in
  db (snd r) = db w
  /\ (fst r = inr prev \/ fst r = inr joined)
  /\ (calm w -> rows <> [] -> fst r = inr joined /\ ui (snd r) = ui w)
  /\ (calm w -> rows = [] ->
      fst r = inr prev /\ ui (snd r) = Navigate "/home" :: ui w).
Proof.
  intros r rows joined. subst r. unfold loadCart, tryCatch, bind.
  rewrite await_eq. simpl. fold rows.
  destruct (hd false (faults w)) eqn:Hf; simpl.
  - split; [reflexivity|]. split; [now left|].
    split; intros Hc; apply all_false_hd in Hc; congruence.
  - destruct rows as [|c rows'] eqn:Er.
    + simpl. split; [reflexivity|]. split; [now left|].
      split; [congruence|]. intros _ _. now split.
    + set (w0 := set_db (db w) (set_faults (tl (faults w)) w)).
      pose proof (joinAll_frame (c :: rows') w0) as J.
      pose proof (joinAll_calm (c :: rows') w0) as Jc.
      cbv zeta in J.
      destruct (mapM _ (c :: rows') w0) as [[e|ls] w1]; simpl in J |- *;
        destruct J as (Jdb & Jui & Jres).
      * split; [exact Jdb|]. split; [now left|].
        split; [|discriminate].
        intros Hc _. exfalso. destruct Jc as (ls & w2 & E).
        { unfold calm, w0. simpl. now apply all_false_tl. }
        discriminate.
      * rewrite (Jres ls eq_refl). subst joined. simpl.
        split; [exact Jdb|]. split; [now right|].
        split; [|discriminate]. intros _ _. now split.
Qed.

End LoadCart.

Lemma loadCart_joins_rows_with_products_witness :
  let u := AuthUser.mk "u1" "ann@example.org" (Some "Ann") None in
  let pA := Product.mk "pA" "u7" "seller1" "Plum jam" None None (100 # 1) None
              "1" 5 (4 # 1) 2 "t0" "t0" in
  let cA := CartItem.mk "c1" "u1" "pA" 2 "t0" "t0" in
  let cX := CartItem.mk "c2" "u1" "pGone" 3 "t0" "t0" in
  let cO := CartItem.mk "c3" "u2" "pA" 1 "t0" "t0" in
  let s := Store.mk [] [] [pA] [cA; cO; cX] [] [] [] 7 in
  let w := mkWorld s [] [] "t1" (Some u) [] in
  fst (loadCart u [] w)
  = inr [CartLine.mk cA (Some pA); CartLine.mk cX None].
Proof.
  intros u pA cA cX cO s w.
  destruct (loadCart_joins_rows_with_products u [] w) as (_ & _ & H & _).
  apply H; [constructor | discriminate].
Defined.

(** ** Product page: what [handleAddToCart] can do to the store *)

(** The store after a click differs from the store before in one of two
    ways only, both reported by the success toast: the first row of the pair
    has its quantity raised, or, the pair having no row, one row is
    appended. *)
Lemma handleAddToCart_effect auth product q w :
  let w' := snd (handleAddToCart auth product q w) in
  db w' = db w
  \/ (ui w' = ToastSuccess "Added to cart!" :: ui w
      /\ exists p uid,
           product = Some p
           /\ JS.or (option_map AuthUser.id (session w)) None = Some uid
           /\ ((exists e0 rest,
                  rowsOf uid (Product.id p) (Store.cart (db w)) = e0 :: rest
                  /\ Store.cart (db w')
                     = Store.updateById CartItem.id (CartItem.id e0)
                         (CartItem.patchQuantity (CartItem.quantity e0 + q)
                            (now w))
                         (Store.cart (db w)))
               \/ (rowsOf uid (Product.id p) (Store.cart (db w)) = []
                   /\ Store.cart (db w')
                      = Store.cart (db w)
                        ++ [CartItem.mk (Store.freshId (Store.nextId (db w)))
                              uid (Product.id p) q (now w) (now w)]))).
Proof.
  unfold handleAddToCart. destruct auth; simpl; [|now left].
  destruct product as [p|]; [|now left].
  unfold tryCatch, bind. rewrite authMe_eq.
  destruct (hd false (faults w)); simpl; [now left|].
  destruct (JS.or (option_map AuthUser.id (session w)) None) as [uid|] eqn:Eu;
    simpl; [|now left].
  rewrite await_eq. simpl.
  destruct (hd false (tl (faults w))); simpl; [now left|].
  unfold rowsOf.
  destruct (filter _ (Store.cart (db w))) as [|e0 rest] eqn:Er;
    unfold isoNow; rewrite await_eq; simpl;
    destruct (hd false (tl (tl (faults w)))); simpl; try (now left);
    right; (split; [reflexivity|]); exists p, uid;
    (split; [reflexivity|]); (split; [reflexivity|]).
  - right. now split.
  - left. exists e0, rest. now split.
Qed.

(** X4.  [handleAddToCart] changes the store only in a run that ends with
    the toast "Added to cart!".  A visitor who is not authenticated is sent
    to [/auth] without any service call; an authenticated visitor whose
    session yields no user id is sent to [/auth] after the session lookup
    alone; in both cases, and when any call rejects, the store is as it
    was. *)
Theorem add_to_cart_writes_only_on_success auth product q w :
  let w' := snd (handleAddToCart auth product q w) in
  (db w' = db w \/ ui w' = ToastSuccess "Added to cart!" :: ui w)
  /\ (auth = false ->
      w' = emit (Navigate "/auth")
             (emit (ToastError "Please login to add items to cart") w))
  /\ (auth = true -> product <> None ->
      hd false (faults w) = false ->
      JS.or (option_map AuthUser.id (session w)) None = None ->
      db w' = db w
      /\ ui w' = Navigate "/auth" :: ToastError "Please login first" :: ui w)
  /\ (auth = true -> product <> None ->
      hd false (faults w) = true ->
      db w' = db w /\ ui w' = ToastError "Failed to add to cart" :: ui w).
Proof.
  intros w'. split.
  { destruct (handleAddToCart_effect auth product q w) as [H|(H & _)];
      fold w' in H; auto. }
  subst w'. unfold handleAddToCart. split; [intros ->; reflexivity|].
  split.
  - intros -> Hp Hf Hs. destruct product as [p|]; [|congruence]. simpl.
    unfold tryCatch, bind. rewrite authMe_eq, Hf. simpl. rewrite Hs.
    simpl. now split.
  - intros -> Hp Hf. destruct product as [p|]; [|congruence]. simpl.
    unfold tryCatch, bind. rewrite authMe_eq, Hf. simpl. now split.
Qed.

Lemma add_to_cart_writes_only_on_success_witness :
  let pB := Product.mk "pB" "u8" "seller2" "Olive soap" None None (50 # 1) None
              "1" 9 0 0 "t0" "t0" in
  let s := Store.mk [] [] [pB] [] [] [] [] 7 in
  let w := mkWorld s [] [] "t1" None [] in
  let w' := snd (handleAddToCart true (Some pB) 2 w) in
  db w' = db w
  /\ ui w' = [Navigate "/auth"; ToastError "Please login first"].
Proof.
  intros pB s w.
  destruct (add_to_cart_writes_only_on_success true (Some pB) 2 w)
    as (_ & _ & H & _).
  apply H; [reflexivity | discriminate | reflexivity | reflexivity].
Defined.

Lemma NoDup_map_same {A K} (key : A -> K) (f : A -> A) (l : list A) :
  (forall x, key (f x) = key x) ->
  map key (map f l) = map key l.
Proof.
  intros H. rewrite map_map. apply map_ext. exact H.
Qed.

Lemma rowsOf_nil_notin uid pid cart :
  rowsOf uid pid cart = [] ->
  ~ In (uid, pid)
       (map (fun c => (CartItem.userId c, CartItem.productId c)) cart).
Proof.
  unfold rowsOf. intros Hr Hin. apply in_map_iff in Hin.
  destruct Hin as (c & E & Hc). injection E as E1 E2.
  assert (Hf : In c (filter (fun c => (CartItem.userId c =? uid)
                                     && (CartItem.productId c =? pid)) cart)).
  { apply filter_In. split; [exact Hc|].
    rewrite E1, E2, !String.eqb_refl. reflexivity. }
  rewrite Hr in Hf. exact Hf.
Qed.

(** X5.  Whatever its outcome, [handleAddToCart] keeps the cart free of
    duplicate (user, product) rows: a click never creates a second row for
    a pair that has one. *)
Theorem add_to_cart_keeps_pairs_unique auth product q w :
  uniquePairs (Store.cart (db w)) ->
  uniquePairs (Store.cart (db (snd (handleAddToCart auth product q w)))).
Proof.
  intros Hu.
  destruct (handleAddToCart_effect auth product q w)
    as [->|(_ & p & uid & _ & _ & [(e0 & rest & _ & ->)|(Hr & ->)])];
    [exact Hu| |].
  - unfold uniquePairs, Store.updateById in *.
    rewrite NoDup_map_same; [exact Hu|].
    intros c. now destruct (CartItem.id c =? CartItem.id e0).
  - unfold uniquePairs in *. rewrite map_app. simpl.
    apply NoDup_app_remove_l with (l := []). simpl.
    apply Permutation_NoDup with
      (l := (uid, Product.id p)
            :: map (fun c => (CartItem.userId c, CartItem.productId c))
                   (Store.cart (db w))).
    + apply Permutation_cons_append.
    + constructor; [now apply rowsOf_nil_notin|exact Hu].
Qed.

Lemma add_to_cart_keeps_pairs_unique_witness :
  let u := AuthUser.mk "u1" "ann@example.org" (Some "Ann") None in
  let pB := Product.mk "pB" "u8" "seller2" "Olive soap" None None (50 # 1) None
              "1" 9 0 0 "t0" "t0" in
  let c1 := CartItem.mk "c1" "u1" "pB" 2 "t0" "t0" in
  let c2 := CartItem.mk "c2" "u2" "pB" 1 "t0" "t0" in
  let s := Store.mk [] [] [pB] [c1; c2] [] [] [] 7 in
  let w := mkWorld s [] [] "t1" (Some u) [] in
  let w' := snd (handleAddToCart true (Some pB) 3 w) in
  uniquePairs (Store.cart (db w'))
  /\ map CartItem.quantity (Store.cart (db w')) = [5; 1]%Z.
Proof.
  intros u pB c1 c2 s w. split.
  - apply (add_to_cart_keeps_pairs_unique true (Some pB) 3 w).
    unfold uniquePairs. simpl.
    repeat constructor; simpl; intuition congruence.
  - vm_compute. reflexivity.
Defined.

Lemma stepper_positive clicks q : (1 <= q)%Z -> (1 <= stepper clicks q)%Z.
Proof.
  unfold stepper. revert q.
  induction clicks as [|up clicks IH]; intros q Hq; simpl; [exact Hq|].
  apply IH. destruct up; unfold increaseQuantity, decreaseQuantity; lia.
Qed.

(** X6.  The stepper of the product page never shows less than 1, whatever
    buttons are pressed; and a click on "Add to Cart" with the quantity it
    shows keeps every stored cart quantity at 1 or more, whatever the
    outcome of the click. *)
Theorem add_to_cart_keeps_quantities_positive auth product clicks w :
  positive (Store.cart (db w)) ->
  let q := stepper clicks 1 in
  (1 <= q)%Z
  /\ positive (Store.cart (db (snd (handleAddToCart auth product q w)))).
Proof.
  intros Hp q.
  assert (Hq : (1 <= q)%Z) by (apply stepper_positive; lia).
  split; [exact Hq|].
  destruct (handleAddToCart_effect auth product q w)
    as [->|(_ & p & uid & _ & _ & [(e0 & rest & He & ->)|(Hr & ->)])];
    [exact Hp| |].
  - assert (H0 : (1 <= CartItem.quantity e0)%Z).
    { unfold positive in Hp. rewrite Forall_forall in Hp. apply Hp.
      assert (Hin : In e0 (rowsOf uid (Product.id p) (Store.cart (db w))))
        by (rewrite He; now left).
      unfold rowsOf in Hin. apply filter_In in Hin. tauto. }
    unfold positive, Store.updateById in *. rewrite Forall_forall in *.
    intros c Hc. apply in_map_iff in Hc. destruct Hc as (c0 & <- & Hc0).
    destruct (CartItem.id c0 =? CartItem.id e0); simpl; [lia|now apply Hp].
  - unfold positive in *. apply Forall_app. split; [exact Hp|].
    constructor; [exact Hq|constructor].
Qed.

Lemma add_to_cart_keeps_quantities_positive_witness :
  let u := AuthUser.mk "u1" "ann@example.org" (Some "Ann") None in
  let pB := Product.mk "pB" "u8" "seller2" "Olive soap" None None (50 # 1) None
              "1" 9 0 0 "t0" "t0" in
  let c1 := CartItem.mk "c1" "u2" "pB" 2 "t0" "t0" in
  let s := Store.mk [] [] [pB] [c1] [] [] [] 7 in
  let w := mkWorld s [] [] "t1" (Some u) [] in
  let q := stepper [false; false; true; false; false] 1 in
  q = 1%Z
  /\ map CartItem.quantity
       (Store.cart (db (snd (handleAddToCart true (Some pB) q w))))
     = [2; 1]%Z.
Proof.
  intros u pB c1 s w q.
  destruct (add_to_cart_keeps_quantities_positive true (Some pB)
              [false; false; true; false; false] w) as (H & _).
  - repeat constructor. simpl. lia.
  - split; vm_compute; reflexivity.
Defined.

(** ** Cart page *)

Import CartPage.

(** X7.  [updateQuantity] refuses a quantity below 1 before doing anything:
    no service call, no toast, same page state; so the minus button of a
    line that shows 1 (or less) is without effect.  When the update call
    rejects, the store and the page state are unchanged and the failure is
    reported. *)
Theorem update_quantity_guard id newQuantity cartItems w :
  ((newQuantity < 1)%Z ->
   updateQuantity id newQuantity cartItems w = (inr cartItems, w))
  /\ (forall item, (CartLine.quantity item <= 1)%Z ->
                   clickMinus item cartItems w = (inr cartItems, w))
  /\ ((1 <= newQuantity)%Z -> hd false (faults w) = true ->
      let r := updateQuantity id newQuantity cartItems w in
      fst r = inr cartItems /\ db (snd r) = db w
      /\ ui (snd r) = ToastError "Failed to update quantity" :: ui w).
Proof.
  assert (G : forall i n, (n < 1)%Z ->
                          updateQuantity i n cartItems w = (inr cartItems, w)).
  { intros i n Hn. unfold updateQuantity.
    apply Z.ltb_lt in Hn. now rewrite Hn. }
  split; [apply G|]. split.
  - intros item Hq. apply G. lia.
  - intros Hq Hf. unfold updateQuantity.
    assert (E : (newQuantity <? 1)%Z = false) by (apply Z.ltb_ge; lia).
    rewrite E. unfold tryCatch, bind, isoNow. rewrite await_eq, Hf. simpl.
    repeat split.
Qed.

Lemma update_quantity_guard_witness :
  let pA := Product.mk "pA" "u7" "seller1" "Plum jam" None None (100 # 1) None
              "1" 5 (4 # 1) 2 "t0" "t0" in
  let cA := CartItem.mk "c1" "u1" "pA" 1 "t0" "t0" in
  let line := CartLine.mk cA (Some pA) in
  let s := Store.mk [] [] [pA] [cA] [] [] [] 7 in
  let w := mkWorld s [] [] "t1" None [] in
  clickMinus line [line] w = (inr [line], w)
  /\ updateQuantity "c1" (-3) [line] w = (inr [line], w).
Proof.
  intros pA cA line s w.
  destruct (update_quantity_guard "c1" (-3) [line] w) as (H1 & H2 & _).
  split; [apply H2; cbv; discriminate | apply H1; lia].
Defined.

(** X8.  A served [updateQuantity] with a quantity of at least 1 sets the
    quantity of the stored rows with that id and of no other row: rows keep
    their place, user and product; rows with another id are untouched.  The
    page state follows the store: if every displayed line showed its stored
    row before, it does so afterwards. *)
Theorem update_quantity_sets_row id newQuantity cartItems w :
  (1 <= newQuantity)%Z -> hd false (faults w) = false ->
  let r := updateQuantity id newQuantity cartItems w in
  let cart := Store.cart (db w) in
  let cart' := Store.cart (db (snd r)) in
  Forall (fun c => CartItem.quantity c = newQuantity) (rowsWithId id cart')
  /\ map (fun c => (CartItem.id c, CartItem.userId c, CartItem.productId c))
         cart'
     = map (fun c => (CartItem.id c, CartItem.userId c, CartItem.productId c))
           cart
  /\ filter (fun c => negb (CartItem.id c =? id)) cart'
     = filter (fun c => negb (CartItem.id c =? id)) cart
  /\ ui (snd r) = ui w
  /\ exists cartItems',
       fst r = inr cartItems'
       /\ map CartLine.id cartItems' = map CartLine.id cartItems
       /\ (Forall (shows cart) cartItems -> Forall (shows cart') cartItems').
Proof.
  intros Hq Hf r cart cart'. subst r cart cart'. unfold updateQuantity.
  assert (E : (newQuantity <? 1)%Z = false) by (apply Z.ltb_ge; lia).
  rewrite E. unfold tryCatch, bind, isoNow. rewrite await_eq, Hf. simpl.
  set (patch := CartItem.patchQuantity newQuantity (now w)).
  split.
  { unfold rowsWithId, Store.updateById. rewrite Forall_forall.
    intros c Hc. apply filter_In in Hc. destruct Hc as (Hc & Hid).
    apply in_map_iff in Hc. destruct Hc as (c0 & <- & _).
    destruct (CartItem.id c0 =? id) eqn:E0; [reflexivity|].
    rewrite E0 in Hid. discriminate. }
  split.
  { unfold Store.updateById. rewrite map_map. apply map_ext.
    intros c. now destruct (CartItem.id c =? id). }
  split.
  { unfold Store.updateById.
    induction (Store.cart (db w)) as [|c l IH]; simpl; [reflexivity|].
    destruct (CartItem.id c =? id) eqn:E0; simpl.
    - rewrite E0. simpl. exact IH.
    - rewrite E0. simpl. now rewrite IH. }
  split; [reflexivity|].
  eexists. split; [reflexivity|]. split.
  { rewrite map_map. apply map_ext.
    intros l. now destruct (CartLine.id l =? id). }
  intros Hs. rewrite Forall_forall in *. intros l' Hl'.
  apply in_map_iff in Hl'. destruct Hl' as (l & <- & Hl).
  destruct (Hs _ Hl) as (row & Hg & Hp & Hqty).
  unfold shows.
  destruct (String.eqb_spec (CartLine.id l) id) as [Eid|Eid].
  - exists (patch row). unfold CartLine.id in *. simpl.
    rewrite getById_update by reflexivity.
    rewrite <- Eid, String.eqb_refl, Hg. simpl. repeat split. exact Hp.
  - exists row. rewrite getById_update by reflexivity.
    destruct (String.eqb_spec (CartLine.id l) id); [contradiction|].
    now repeat split.
Qed.

Lemma update_quantity_sets_row_witness :
  let pA := Product.mk "pA" "u7" "seller1" "Plum jam" None None (100 # 1) None
              "1" 5 (4 # 1) 2 "t0" "t0" in
  let cA := CartItem.mk "c1" "u1" "pA" 1 "t0" "t0" in
  let cB := CartItem.mk "c2" "u1" "pB" 4 "t0" "t0" in
  let line := CartLine.mk cA (Some pA) in
  let s := Store.mk [] [] [pA] [cA; cB] [] [] [] 7 in
  let w := mkWorld s [] [] "t1" None [] in
  let r := clickPlus line [line] w in
  map CartItem.quantity (Store.cart (db (snd r))) = [2; 4]%Z
  /\ Forall (fun c => CartItem.quantity c = 2%Z)
            (rowsWithId "c1" (Store.cart (db (snd r)))).
Proof.
  intros pA cA cB line s w r. split; [vm_compute; reflexivity|].
  destruct (update_quantity_sets_row "c1" 2 [line] w) as (H & _).
  - lia.
  - reflexivity.
  - exact H.
Defined.

(** X9.  A served [removeItem] deletes exactly the stored rows with that id
    (the other rows stay, in order) and drops the lines with that id from
    the page; a second removal of the same id changes nothing more.  When
    the delete call rejects, the store and the page state are unchanged and
    the failure is reported. *)
Theorem remove_item_deletes_row id cartItems w :
  let r := removeItem id cartItems w in
  (hd false (faults w) = false ->
   Store.cart (db (snd r))
   = filter (fun c => negb (CartItem.id c =? id)) (Store.cart (db w))
   /\ rowsWithId id (Store.cart (db (snd r))) = []
   /\ fst r = inr (filter (fun l => negb (CartLine.id l =? id)) cartItems)
   /\ ui (snd r) = ToastSuccess "Item removed" :: ui w
   /\ (hd false (tl (faults w)) = false ->
       forall cartItems2,
         Store.cart (db (snd (removeItem id cartItems2 (snd r))))
         = Store.cart (db (snd r))))
  /\ (hd false (faults w) = true ->
      fst r = inr cartItems /\ db (snd r) = db w
      /\ ui (snd r) = ToastError "Failed to remove item" :: ui w).
Proof.
  intros r. subst r. unfold removeItem, tryCatch, bind.
  rewrite await_eq. split; intros Hf; rewrite Hf; simpl.
  - unfold Store.deleteWhere.
    split; [reflexivity|]. split.
    { unfold rowsWithId. apply filter_none. rewrite Forall_forall.
      intros c Hc. apply filter_In in Hc. destruct Hc as (_ & Hc).
      now destruct (CartItem.id c =? id). }
    split; [reflexivity|]. split; [reflexivity|].
    intros Hf2 cartItems2. rewrite await_eq. simpl. rewrite Hf2. simpl.
    unfold Store.deleteWhere.
    induction (Store.cart (db w)) as [|c l IH]; simpl; [reflexivity|].
    destruct (CartItem.id c =? id) eqn:E0; simpl; [exact IH|].
    rewrite E0. simpl. now rewrite IH.
  - repeat split.
Qed.

Lemma remove_item_deletes_row_witness :
  let pA := Product.mk "pA" "u7" "seller1" "Plum jam" None None (100 # 1) None
              "1" 5 (4 # 1) 2 "t0" "t0" in
  let cA := CartItem.mk "c1" "u1" "pA" 1 "t0" "t0" in
  let cB := CartItem.mk "c2" "u1" "pB" 4 "t0" "t0" in
  let s := Store.mk [] [] [pA] [cA; cB] [] [] [] 7 in
  let w := mkWorld s [] [] "t1" None [] in
  let r := removeItem "c1" [CartLine.mk cA (Some pA); CartLine.mk cB None] w in
  Store.cart (db (snd r)) = [cB] /\ fst r = inr [CartLine.mk cB None].
Proof.
  intros pA cA cB s w r.
  destruct (remove_item_deletes_row "c1"
              [CartLine.mk cA (Some pA); CartLine.mk cB None] w) as (H & _).
  destruct H as (H1 & _ & H3 & _); [reflexivity|].
  split; [exact H1|exact H3].
Defined.

Lemma uniquePairs_filter (p : CartItem.t -> bool) cart :
  uniquePairs cart -> uniquePairs (filter p cart).
Proof.
  unfold uniquePairs. induction cart as [|c cart IH]; simpl; intros Hu;
    [exact Hu|].
  inversion Hu as [|? ? Hnotin Hu']; subst.
  destruct (p c); simpl; [|now apply IH].
  constructor; [|now apply IH].
  intros Hin. apply Hnotin. apply in_map_iff in Hin.
  destruct Hin as (c0 & E & Hc0). apply filter_In in Hc0.
  apply in_map_iff. exists c0. tauto.
Qed.

Lemma positive_filter (p : CartItem.t -> bool) cart :
  positive cart -> positive (filter p cart).
Proof.
  unfold positive. rewrite !Forall_forall. intros H c Hc.
  apply filter_In in Hc. now apply H.
Qed.

(** X10.  The cart keeps its two invariants, at most one row per
    (user, product) pair and every quantity at least 1, under
    [updateQuantity] and [removeItem] with any arguments and under
    [handlePlaceOrder], whatever the outcome of the run. *)
Theorem cart_invariants_are_kept w :
  uniquePairs (Store.cart (db w)) -> positive (Store.cart (db w)) ->
  (forall id newQuantity cartItems,
     let w' := snd (updateQuantity id newQuantity cartItems w) in
     uniquePairs (Store.cart (db w')) /\ positive (Store.cart (db w')))
  /\ (forall id cartItems,
        let w' := snd (removeItem id cartItems w) in
        uniquePairs (Store.cart (db w')) /\ positive (Store.cart (db w')))
  /\ (forall user address phone pm cartItems,
        let w' := snd (handlePlaceOrder user address phone pm cartItems w) in
        uniquePairs (Store.cart (db w')) /\ positive (Store.cart (db w'))).
Proof.
  intros Hu Hp. split; [|split].
  - intros id q cartItems. unfold updateQuantity.
    destruct (q <? 1)%Z eqn:E; simpl; [now split|].
    apply Z.ltb_ge in E.
    unfold tryCatch, bind, isoNow. rewrite await_eq.
    destruct (hd false (faults w)); simpl; [now split|].
    split.
    + unfold uniquePairs, Store.updateById in *.
      rewrite NoDup_map_same; [exact Hu|].
      intros c. now destruct (CartItem.id c =? id).
    + unfold positive, Store.updateById in *. rewrite Forall_forall in *.
      intros c Hc. apply in_map_iff in Hc. destruct Hc as (c0 & <- & Hc0).
      destruct (CartItem.id c0 =? id); simpl; [lia|now apply Hp].
  - intros id cartItems. unfold removeItem, tryCatch, bind.
    rewrite await_eq. destruct (hd false (faults w)); simpl; [now split|].
    unfold Store.deleteWhere.
    split; [now apply uniquePairs_filter|now apply positive_filter].
  - intros user address phone pm cartItems w'.
    destruct (RunFacts.handlePlaceOrder_run user address phone pm cartItems w)
      as [(_ & E)|[(_ & _ & _ & E & _)|(_ & _ & _ & w1 & _ & E & Ec & _)]];
      fold w' in E.
    + rewrite E. simpl. now split.
    + rewrite E. now split.
    + rewrite E. simpl. rewrite Ec. unfold Store.deleteWhere.
      split; [now apply uniquePairs_filter|now apply positive_filter].
Qed.

Lemma cart_invariants_are_kept_witness :
  let cA := CartItem.mk "c1" "u1" "pA" 1 "t0" "t0" in
  let cB := CartItem.mk "c2" "u1" "pB" 4 "t0" "t0" in
  let s := Store.mk [] [] [] [cA; cB] [] [] [] 7 in
  let w := mkWorld s [] [] "t1" None [] in
  let w' := snd (updateQuantity "c2" 0 [] w) in
  positive (Store.cart (db w'))
  /\ map CartItem.quantity (Store.cart (db w')) = [1; 4]%Z.
Proof.
  intros cA cB s w.
  destruct (cart_invariants_are_kept w) as (H & _).
  - unfold uniquePairs. simpl.
    repeat constructor; simpl; intuition congruence.
  - repeat constructor; simpl; lia.
  - destruct (H "c2" 0%Z []) as (_ & Hp). split; [exact Hp|reflexivity].
Defined.

(** X11.  Adding a product that has no row in the user's cart and then
    removing the row that was created gives back the stored cart, row for
    row, provided the store hands out an identifier that no stored cart row
    bears (every call being served). *)
Theorem add_then_remove_restores_cart me p q lines w :
  session w = Some me -> AuthUser.id me <> "" -> calm w ->
  rowsOf (AuthUser.id me) (Product.id p) (Store.cart (db w)) = [] ->
  ~ In (Store.freshId (Store.nextId (db w)))
       (map CartItem.id (Store.cart (db w))) ->
  let w1 := snd (handleAddToCart true (Some p) q w) in
  exists row,
    rowsOf (AuthUser.id me) (Product.id p) (Store.cart (db w1)) = [row]
    /\ CartItem.quantity row = q
    /\ Store.cart (db (snd (removeItem (CartItem.id row) lines w1)))
       = Store.cart (db w).
Proof.
  intros Hs Hid Hc Hrow Hfresh.
  destruct (handleAddToCart_calm me p q w Hs Hid Hc)
    as (w1 & E & _ & Hc1 & Ecart).
  rewrite E. simpl. rewrite Hrow in Ecart.
  set (r := CartItem.mk (Store.freshId (Store.nextId (db w))) (AuthUser.id me)
              (Product.id p) q (now w) (now w)) in *.
  exists r. split.
  { rewrite Ecart. unfold rowsOf in *. rewrite filter_app, Hrow. simpl.
    now rewrite !String.eqb_refl. }
  split; [reflexivity|].
  unfold removeItem, tryCatch, bind. rewrite await_eq.
  unfold calm in Hc1. rewrite (all_false_hd _ Hc1). simpl.
  rewrite Ecart. unfold Store.deleteWhere. rewrite filter_app. simpl.
  rewrite String.eqb_refl. simpl. rewrite app_nil_r.
  apply filter_all. rewrite Forall_forall. intros c Hin.
  destruct (String.eqb_spec (CartItem.id c)
              (Store.freshId (Store.nextId (db w)))) as [Eid|]; [|reflexivity].
  exfalso. apply Hfresh. rewrite <- Eid. now apply in_map.
Qed.

Lemma add_then_remove_restores_cart_witness :
  let u := AuthUser.mk "u1" "ann@example.org" (Some "Ann") None in
  let pB := Product.mk "pB" "u8" "seller2" "Olive soap" None None (50 # 1) None
              "1" 9 0 0 "t0" "t0" in
  let c1 := CartItem.mk "c1" "u2" "pB" 2 "t0" "t0" in
  let s := Store.mk [] [] [pB] [c1] [] [] [] 7 in
  let w := mkWorld s [] [] "t1" (Some u) [] in
  let w1 := snd (handleAddToCart true (Some pB) 3 w) in
  length (Store.cart (db w1)) = 2%nat
  /\ exists row,
       rowsOf "u1" "pB" (Store.cart (db w1)) = [row]
       /\ Store.cart (db (snd (removeItem (CartItem.id row) [] w1))) = [c1].
Proof.
  intros u pB c1 s w w1. split; [reflexivity|].
  destruct (add_then_remove_restores_cart u pB 3 [] w)
    as (row & Hr & _ & Hc).
  - reflexivity.
  - discriminate.
  - constructor.
  - reflexivity.
  - vm_compute. intuition discriminate.
  - exists row. split; [exact Hr|exact Hc].
Defined.

(** ** Seller dashboard: visibility toggle and status display *)





(** X13.  The dashboard's [orders] state stays in agreement with the
    store under [updateOrderStatus], served or rejected: if each displayed
    order showed the status stored under its id before the call, it does so
    after it.  A rejected call changes neither the store nor the page state
    and is reported. *)
Theorem order_status_display_stays_in_sync
    orderId newStatus pageOrders w :
  agrees w pageOrders ->
  let r := updateOrderStatus orderId newStatus pageOrders w in
  (exists pageOrders',
     fst r = inr pageOrders' /\ agrees (snd r) pageOrders'
     /\ map (fun po => Order.id (OrderWithItems.order po)) pageOrders'
        = map (fun po => Order.id (OrderWithItems.order po)) pageOrders)
  /\ (hd false (faults w) = true ->
      fst r = inr pageOrders /\ db (snd r) = db w
      /\ ui (snd r) = ToastError "Failed to update order status" :: ui w).
Proof.
  intros Ha r. subst r. unfold updateOrderStatus, tryCatch, bind, isoNow.
  rewrite await_eq. destruct (hd false (faults w)); simpl.
  - split; [|intros _; repeat split].
    exists pageOrders. repeat split. exact Ha.
  - split; [|discriminate]. eexists. split; [reflexivity|]. split.
    + unfold agrees in *. rewrite Forall_forall in *. intros po' Hpo'.
      apply in_map_iff in Hpo'. destruct Hpo' as (po & <- & Hpo).
      specialize (Ha _ Hpo). unfold storedStatus in *. simpl.
      rewrite getById_update by reflexivity.
      destruct (String.eqb_spec (Order.id (OrderWithItems.order po)) orderId)
        as [E|E]; simpl.
      * rewrite E, String.eqb_refl. rewrite E in Ha.
        destruct (Store.getById Order.id orderId (Store.orders (db w)));
          [reflexivity|discriminate].
      * destruct (String.eqb_spec (Order.id (OrderWithItems.order po)) orderId);
          [contradiction|exact Ha].
    + rewrite map_map. apply map_ext. intros po.
      now destruct (Order.id (OrderWithItems.order po) =? orderId).
Qed.

Lemma order_status_display_stays_in_sync_witness :
  let o := Order.mk "o1" "u1" "CRFT-K3J9" "seller1" "Ann" "555-0101"
             "12 Hill Road" (200 # 1) pending online ps_paid "t0" "t0" in
  let s := Store.mk [] [] [] [] [o] [] [] 7 in
  let w := mkWorld s [] [] "t1" None [] in
  let r := updateOrderStatus "o1" confirmed [OrderWithItems.mk o None] w in
  exists pageOrders',
    fst r = inr pageOrders' /\ agrees (snd r) pageOrders'
    /\ storedStatus "o1" (snd r) = Some confirmed.
Proof.
  intros o s w r.
  destruct (order_status_display_stays_in_sync "o1" confirmed
              [OrderWithItems.mk o None] w) as ((po & H1 & H2 & _) & _).
  - repeat constructor.
  - exists po. split; [exact H1|]. split; [exact H2|reflexivity].
Defined.

(** ** Admin panel: seller verification *)

Import AdminPanel.





(** ** Sign-in page: creating the profile *)

Import AuthPage.

(** X15.  [handleProfileCheck] writes nothing for a visitor without
    session user and for a user who has a profile (who is sent to [/home]).
    For a user without profile, when the calls are served, it appends one
    user row for the account with the role kept from onboarding ("buyer"
    when none is kept) and a display name that is the account's name or,
    failing that, the part of the email before the first "@"; for the role
    "seller" it also appends one seller row for the account, pending
    verification, with rating and totals at 0; for any other role it
    appends no seller row.  Then it navigates to [/home]. *)
Theorem profile_is_created_once user stored w :
  let w' := snd (handleProfileCheck user stored w) in
  (user = None -> w' = w)
  /\ (forall u, user = Some u -> AuthUser.profile u <> None ->
                w' = emit (Navigate "/home") w)
  /\ (forall u, user = Some u -> AuthUser.profile u = None -> calm w ->
        let role := selectedRole stored in
        exists row,
          Store.users (db w') = Store.users (db w) ++ [row]
          /\ User.userId row = AuthUser.id u
          /\ User.email row = AuthUser.email u
          /\ User.role row = role
          /\ User.displayName row
             = Some (orStr (AuthUser.displayName u)
                       (beforeAt (AuthUser.email u)))
          /\ ui w' = Navigate "/home" :: ui w
          /\ (role <> "seller" ->
              Store.sellers (db w') = Store.sellers (db w))
          /\ (role = "seller" ->
              exists seller,
                Store.sellers (db w') = Store.sellers (db w) ++ [seller]
                /\ Seller.userId seller = AuthUser.id u
                /\ Seller.verificationStatus seller = vs_pending
                /\ Seller.totalReviews seller = 0%Z
                /\ Seller.totalOrders seller = 0%Z
                /\ Seller.ratingAverage seller = 0%Q
                /\ Seller.totalEarnings seller = 0%Q
                /\ Seller.id seller <> User.id row)).
Proof.
  intros w'. subst w'. split; [intros ->; reflexivity|]. split.
  - intros u -> Hp. simpl. destruct (AuthUser.profile u); [reflexivity|].
    congruence.
  - intros u -> Hp Hc role. simpl. rewrite Hp.
    unfold calm in Hc.
    pose proof (all_false_hd _ Hc) as H1.
    pose proof (all_false_tl _ Hc) as Hc1.
    pose proof (all_false_hd _ Hc1) as H2.
    unfold tryCatch, bind, isoNow. rewrite await_eq, H1. simpl.
    fold role. destruct (String.eqb_spec role "seller") as [Er|Er].
    + rewrite await_eq. simpl. rewrite H2. simpl.
      eexists. repeat split; try congruence.
      eexists. repeat split.
      simpl. intros E. apply freshId_inj in E. lia.
    + simpl. eexists. repeat split; congruence.
Qed.

Lemma profile_is_created_once_witness :
  let u := AuthUser.mk "u1" "ann@example.org" None None in
  let s := Store.mk [] [] [] [] [] [] [] 7 in
  let w := mkWorld s [] [] "t1" None [] in
  let w' := snd (handleProfileCheck (Some u) (Some "seller") w) in
  map User.displayName (Store.users (db w')) = [Some "ann"]
  /\ exists row, Store.users (db w') = Store.users (db w) ++ [row]
                 /\ User.role row = "seller".
Proof.
  intros u s w. split; [vm_compute; reflexivity|].
  destruct (profile_is_created_once (Some u) (Some "seller") w)
    as (_ & _ & H).
  destruct (H u eq_refl eq_refl) as (row & Hr & _ & _ & Hrole & _).
  - constructor.
  - exists row. split; [exact Hr|exact Hrole].
Defined.

(** X16.  When the user row is stored but the creation of the seller row
    rejects, [handleProfileCheck] keeps the user row (role "seller"), stores
    no seller row, shows nothing and does not navigate: the failure is
    silent and nothing is rolled back.  When the creation of the user row
    itself rejects, nothing is stored and nothing is shown. *)
Theorem seller_profile_can_be_left_half_created u stored w :
  AuthUser.profile u = None ->
  let w' := snd (handleProfileCheck (Some u) stored w) in
  (hd false (faults w) = true -> db w' = db w /\ ui w' = ui w)
  /\ (selectedRole stored = "seller" ->
      hd false (faults w) = false -> hd false (tl (faults w)) = true ->
      exists row,
        Store.users (db w') = Store.users (db w) ++ [row]
        /\ User.userId row = AuthUser.id u
        /\ User.role row = "seller"
        /\ Store.sellers (db w') = Store.sellers (db w)
        /\ ui w' = ui w).
Proof.
  intros Hp w'. subst w'. simpl. rewrite Hp.
  unfold tryCatch, bind, isoNow. rewrite await_eq. split.
  - intros ->. simpl. now split.
  - intros Er -> H2. simpl. rewrite Er. simpl.
    rewrite await_eq. simpl. rewrite H2. simpl.
    eexists. repeat split.
Qed.

Lemma seller_profile_can_be_left_half_created_witness :
  let u := AuthUser.mk "u1" "ann@example.org" None None in
  let s := Store.mk [] [] [] [] [] [] [] 7 in
  let w := mkWorld s [false; true] [] "t1" None [] in
  let w' := snd (handleProfileCheck (Some u) (Some "seller") w) in
  map User.role (Store.users (db w')) = ["seller"]
  /\ Store.sellers (db w') = [] /\ ui w' = [].
Proof.
  intros u s w.
  destruct (seller_profile_can_be_left_half_created u (Some "seller") w
              eq_refl) as (_ & H).
  destruct (H eq_refl eq_refl eq_refl) as (row & Hr & _ & Hrole & Hs & Hui).
  split; [|split; [exact Hs|exact Hui]].
  rewrite Hr. simpl. now rewrite Hrole.
Defined.

(** ** Review page: loading the form and storing the reviews *)

Lemma lookup_set {V} (k k' : string) (v : V) (o : JS.Obj V) :
  JS.lookup k (JS.set k' v o) = if k =? k' then Some v else JS.lookup k o.
Proof.
  induction o as [|[k0 v0] o IH]; simpl.
  - reflexivity.
  - destruct (String.eqb_spec k' k0) as [->|Hne]; simpl.
    + destruct (k =? k0); reflexivity.
    + rewrite IH. destruct (String.eqb_spec k k0) as [->|];
        [|reflexivity].
      destruct (String.eqb_spec k0 k'); congruence.
Qed.

Lemma initialReviews_lookup (d : Draft) items :
  forall acc k,
    JS.lookup k (fold_left (fun acc item =>
                              JS.set (OrderItem.productId item) d acc)
                   items acc)
    = if existsb (fun item => OrderItem.productId item =? k) items
      then Some d else JS.lookup k acc.
Proof.
  induction items as [|item items IH]; intros acc k; simpl; [reflexivity|].
  rewrite IH, lookup_set.
  destruct (existsb _ items); [now rewrite orb_true_r|].
  rewrite orb_false_r, (String.eqb_sym k). reflexivity.
Qed.

(** X17.  [loadOrder] never writes to the store.  When its calls are served
    and the order is stored, the page state it yields is the order with
    exactly the stored order items filed under its id, and a form that holds
    rating 5 and an empty comment for the product of every one of them and
    nothing for any other product.  When no order is stored under the id,
    the state is kept, "Order not found" is shown and the page navigates
    to [/orders]. *)
Theorem loadOrder_fills_default_ratings orderId prev w :
  let r := loadOrder (Some orderId) prev w in
  let items := filter (fun oi => OrderItem.orderId oi =? orderId)
                      (Store.orderItems (db w)) in
  db (snd r) = db w
  /\ (calm w ->
      forall o, Store.getById Order.id orderId (Store.orders (db w)) = Some o ->
        exists reviews,
          fst r = inr (Some (OrderWithItems.mk o (Some items)), reviews)
          /\ (forall item, In item items ->
                JS.lookup (OrderItem.productId item) reviews
                = Some (mkDraft 5 ""))
          /\ (forall k, ~ In k (map OrderItem.productId items) ->
                JS.lookup k reviews = None)
          /\ ui (snd r) = ui w)
  /\ (calm w ->
      Store.getById Order.id orderId (Store.orders (db w)) = None ->
      fst r = inr prev
      /\ ui (snd r) = Navigate "/orders" :: ToastError "Order not found"
                      :: ui w).
Proof.
  intros r items. subst r. unfold loadOrder, tryCatch, bind.
  rewrite await_eq. simpl.
  destruct (hd false (faults w)) eqn:H1; simpl.
  { split; [reflexivity|].
    split; intros Hc; apply all_false_hd in Hc; congruence. }
  destruct (Store.getById Order.id orderId (Store.orders (db w))) as [o|];
    simpl.
  - rewrite await_eq. simpl. fold items.
    destruct (hd false (tl (faults w))) eqn:H2; simpl.
    { split; [reflexivity|]. split; [|discriminate].
      intros Hc. apply all_false_tl in Hc. apply all_false_hd in Hc.
      congruence. }
    split; [reflexivity|]. split; [|discriminate].
    intros _ o' E. injection E as <-.
    eexists. split; [reflexivity|]. split; [|split; [|reflexivity]].
    + intros item Hin. rewrite initialReviews_lookup.
      assert (E : existsb (fun i => OrderItem.productId i
                                    =? OrderItem.productId item) items = true).
      { apply existsb_exists. exists item. split; [exact Hin|].
        apply String.eqb_refl. }
      now rewrite E.
    + intros k Hk. rewrite initialReviews_lookup.
      destruct (existsb _ items) eqn:E; [|reflexivity].
      apply existsb_exists in E. destruct E as (item & Hin & E).
      apply String.eqb_eq in E. exfalso. apply Hk. rewrite <- E.
      now apply in_map.
  - split; [reflexivity|]. split; [discriminate|]. intros _ _. now split.
Qed.

Lemma loadOrder_fills_default_ratings_witness :
  let o := Order.mk "o1" "u1" "CRFT-K3J9" "seller1" "Ann" "555-0101"
             "12 Hill Road" (260 # 1) delivered online ps_paid "t0" "t0" in
  let i1 := OrderItem.mk "i1" "u1" "o1" "pA" "Plum jam" (100 # 1) 2 (200 # 1)
              "t0" in
  let i2 := OrderItem.mk "i2" "u1" "o2" "pB" "Quince jelly" (60 # 1) 1
              (60 # 1) "t0" in
  let s := Store.mk [] [] [] [] [o] [i1; i2] [] 7 in
  let w := mkWorld s [] [] "t1" None [] in
  exists reviews,
    fst (loadOrder (Some "o1") (None, []) w)
    = inr (Some (OrderWithItems.mk o (Some [i1])), reviews)
    /\ JS.lookup "pA" reviews = Some (mkDraft 5 "")
    /\ JS.lookup "pB" reviews = None.
Proof.
  intros o i1 i2 s w.
  destruct (loadOrder_fills_default_ratings "o1" (None, []) w)
    as (_ & H & _).
  destruct (H (Forall_nil _) o eq_refl) as (reviews & E & Hin & Hout & _).
  exists reviews. split; [exact E|]. split.
  - apply (Hin i1). now left.
  - apply Hout. simpl. intuition discriminate.
Defined.

Section Reviews.
Variables (o : Order.t) (user : AuthUser.t) (reviews : JS.Obj Draft).

Lemma reviewItem_review item w w1 :
  reviewItem o user reviews item w = (inr tt, w1) ->
  exists r, Store.reviews (db w1) = Store.reviews (db w) ++ [r]
            /\ reviewFor o user reviews item r.
Proof.
  unfold reviewItem.
  destruct (JS.lookup (OrderItem.productId item) reviews) as [review|] eqn:El;
    [|discriminate].
  unfold bind, isoNow. rewrite await_eq. simpl.
  destruct (hd false (faults w)); [discriminate|]. simpl.
  rewrite await_eq. simpl.
  destruct (hd false (tl (faults w))); [discriminate|]. simpl.
  destruct (Store.getById Product.id (OrderItem.productId item)
              (Store.products (db w))) as [product|].
  - rewrite await_eq. simpl.
    destruct (hd false (tl (tl (faults w)))); [discriminate|]. simpl.
    intros H. injection H as <-. simpl. eexists. split; [reflexivity|].
    unfold reviewFor. simpl. repeat split. exists review. now rewrite El.
  - unfold ret. intros H. injection H as <-. simpl.
    eexists. split; [reflexivity|].
    unfold reviewFor. simpl. repeat split. exists review. now rewrite El.
Qed.

Lemma reviewItems_reviews items :
  forall w w1,
    forEachM (reviewItem o user reviews) items w = (inr tt, w1) ->
    exists rs, Store.reviews (db w1) = Store.reviews (db w) ++ rs
               /\ Forall2 (reviewFor o user reviews) items rs.
Proof.
  induction items as [|it items IH]; intros w w1; simpl.
  - unfold ret. intros H. injection H as <-. exists [].
    now rewrite app_nil_r.
  - unfold bind.
    destruct (reviewItem o user reviews it w) as [[e|[]] w0] eqn:E;
      [discriminate|].
    intros H. apply reviewItem_review in E. destruct E as (r & Er & Hr).
    destruct (IH _ _ H) as (rs & Ers & Hrs).
    exists (r :: rs). rewrite Ers, Er, <- app_assoc. simpl.
    split; [reflexivity|now constructor].
Qed.

(** Whatever its outcome, an iteration leaves orders, order items, cart,
    users and sellers alone and changes no catalogue field of a product. *)
Lemma reviewItem_frame item w :
  let w1 := snd (reviewItem o user reviews item w) in
  Store.orders (db w1) = Store.orders (db w)
  /\ Store.orderItems (db w1) = Store.orderItems (db w)
  /\ Store.cart (db w1) = Store.cart (db w)
  /\ Store.users (db w1) = Store.users (db w)
  /\ Store.sellers (db w1) = Store.sellers (db w)
  /\ map catalogue (Store.products (db w1))
     = map catalogue (Store.products (db w))
  /\ ui w1 = ui w.
Proof.
  unfold reviewItem.
  destruct (JS.lookup (OrderItem.productId item) reviews) as [review|];
    [|simpl; auto 10].
  unfold bind, isoNow. rewrite await_eq. simpl.
  destruct (hd false (faults w)); simpl; [auto 10|].
  rewrite await_eq. simpl.
  destruct (hd false (tl (faults w))); simpl; [auto 10|].
  destruct (Store.getById Product.id (OrderItem.productId item)
              (Store.products (db w))) as [product|]; simpl; [|auto 10].
  rewrite await_eq. simpl.
  destruct (hd false (tl (tl (faults w)))); simpl; [auto 10|].
  repeat split. unfold Store.updateById. rewrite map_map. apply map_ext.
  intros p. now destruct (Product.id p =? OrderItem.productId item).
Qed.

Lemma reviewItems_frame items :
  forall w,
    let w1 := snd (forEachM (reviewItem o user reviews) items w) in
    Store.orders (db w1) = Store.orders (db w)
    /\ Store.orderItems (db w1) = Store.orderItems (db w)
    /\ Store.cart (db w1) = Store.cart (db w)
    /\ Store.users (db w1) = Store.users (db w)
    /\ Store.sellers (db w1) = Store.sellers (db w)
    /\ map catalogue (Store.products (db w1))
       = map catalogue (Store.products (db w))
    /\ ui w1 = ui w.
Proof.
  induction items as [|it items IH]; intros w; simpl; [auto 10|].
  unfold bind. pose proof (reviewItem_frame it w) as F.
  destruct (reviewItem o user reviews it w) as [[e|[]] w0]; simpl in F.
  - exact F.
  - specialize (IH w0). simpl in IH.
    destruct F as (F1 & F2 & F3 & F4 & F5 & F6 & F7).
    destruct IH as (I1 & I2 & I3 & I4 & I5 & I6 & I7).
    repeat split; congruence.
Qed.

Lemma reviewItem_calm item w :
  calm w -> JS.lookup (OrderItem.productId item) reviews <> None ->
  exists w1, reviewItem o user reviews item w = (inr tt, w1) /\ calm w1.
Proof.
  unfold calm. intros Hc Hl.
  pose proof (all_false_hd _ Hc) as H1.
  pose proof (all_false_tl _ Hc) as Hc1.
  pose proof (all_false_hd _ Hc1) as H2.
  pose proof (all_false_tl _ Hc1) as Hc2.
  pose proof (all_false_hd _ Hc2) as H3.
  pose proof (all_false_tl _ Hc2) as Hc3.
  unfold reviewItem.
  destruct (JS.lookup (OrderItem.productId item) reviews) as [review|];
    [|congruence].
  unfold bind, isoNow. rewrite await_eq. simpl. rewrite H1. simpl.
  rewrite await_eq. simpl. rewrite H2. simpl.
  destruct (Store.getById Product.id (OrderItem.productId item)
              (Store.products (db w))) as [product|].
  - rewrite await_eq. simpl. rewrite H3. simpl.
    eexists. split; [reflexivity|exact Hc3].
  - eexists. split; [reflexivity|exact Hc2].
Qed.

Lemma reviewItems_calm items :
  forall w,
    calm w ->
    Forall (fun item => JS.lookup (OrderItem.productId item) reviews <> None)
           items ->
    exists w1,
      forEachM (reviewItem o user reviews) items w = (inr tt, w1) /\ calm w1.
Proof.
  induction items as [|it items IH]; intros w Hc Hall; simpl.
  - exists w. now split.
  - inversion Hall as [|? ? H1 H2]; subst. unfold bind.
    destruct (reviewItem_calm it w Hc H1) as (w0 & -> & Hc0).
    now apply IH.
Qed.

End Reviews.

Lemma submitted_loop order user reviews w :
  let w' := snd (handleSubmit (Some order) (Some user) reviews w) in
  submitted w w' ->
  exists w1,
    forEachM (reviewItem (OrderWithItems.order order) user reviews)
      (itemsOf order) w = (inr tt, w1)
    /\ Store.reviews (db w') = Store.reviews (db w1).
Proof.
  cbv zeta. unfold submitted, handleSubmit, tryCatch, bind.
  destruct (forEachM _ (itemsOf order) w) as [[e|[]] w1]; simpl;
    [discriminate|].
  rewrite await_eq. simpl.
  destruct (hd false (faults w1)); simpl; [discriminate|].
  destruct (Store.getById Seller.id _ (Store.sellers (db w1))) as [seller|].
  - rewrite await_eq. simpl.
    destruct (hd false (tl (faults w1))); simpl; [discriminate|].
    intros _. exists w1. now split.
  - simpl. intros _. exists w1. now split.
Qed.

Lemma one_review_rows order user reviews w :
  let w' := snd (handleSubmit (Some order) (Some user) reviews w) in
  submitted w w' ->
  exists rs,
    Store.reviews (db w') = Store.reviews (db w) ++ rs
    /\ length rs = length (itemsOf order).
Proof.
  intros w' Hs.
  destruct (submitted_loop order user reviews w Hs) as (w1 & El & Er).
  fold w' in Er.
  destruct (reviewItems_reviews _ _ _ _ _ _ El) as (rs & Ers & Hrs).
  exists rs. rewrite Er. split; [exact Ers|].
  symmetry. eapply Forall2_length. exact Hrs.
Qed.

(** X18.  A submission that reports success has appended exactly one review
    per order item, in the order of the items: each for the signed-in user,
    the order, the item's product and the order's seller, with the rating
    and the comment the form holds for that product. *)
Theorem one_review_per_order_item order user reviews w :
  let w' := snd (handleSubmit (Some order) (Some user) reviews w) in
  submitted w w' ->
  exists rs,
    Store.reviews (db w') = Store.reviews (db w) ++ rs
    /\ Forall2 (reviewFor (OrderWithItems.order order) user reviews)
               (itemsOf order) rs
    /\ length rs = length (itemsOf order).
Proof.
  intros w' Hs.
  destruct (submitted_loop order user reviews w Hs) as (w1 & El & Er).
  fold w' in Er.
  destruct (reviewItems_reviews _ _ _ _ _ _ El) as (rs & Ers & Hrs).
  exists rs. rewrite Er. split; [exact Ers|]. split; [exact Hrs|].
  symmetry. eapply Forall2_length. exact Hrs.
Qed.

Lemma one_review_per_order_item_witness :
  let u := AuthUser.mk "u1" "ann@example.org" (Some "Ann") None in
  let o := Order.mk "o1" "u1" "CRFT-K3J9" "seller1" "Ann" "555-0101"
             "12 Hill Road" (260 # 1) delivered online ps_paid "t0" "t0" in
  let i1 := OrderItem.mk "i1" "u1" "o1" "pA" "Plum jam" (100 # 1) 2 (200 # 1)
              "t0" in
  let i2 := OrderItem.mk "i2" "u1" "o1" "pB" "Quince jelly" (60 # 1) 1
              (60 # 1) "t0" in
  let s := Store.mk [] [] [] [] [o] [i1; i2] [] 7 in
  let w := mkWorld s [] [] "t1" (Some u) [] in
  let w' := snd (handleSubmit (Some (OrderWithItems.mk o (Some [i1; i2])))
                   (Some u)
                   [("pA", mkDraft 4 "Good"); ("pB", mkDraft 2 "")] w) in
  map (fun r => (Review.productId r, Review.rating r))
      (Store.reviews (db w')) = [("pA", 4%Z); ("pB", 2%Z)]
  /\ length (Store.reviews (db w')) = 2%nat.
Proof.
  intros u o i1 i2 s w.
  destruct (one_review_per_order_item (OrderWithItems.mk o (Some [i1; i2])) u
              [("pA", mkDraft 4 "Good"); ("pB", mkDraft 2 "")] w)
    as (rs & E & _ & Hl).
  - vm_compute. reflexivity.
  - split; [vm_compute; reflexivity|]. rewrite E. simpl. exact Hl.
Defined.

(** The served [loadOrder] of a stored order, as an equation. *)
Lemma loadOrder_served orderId w o :
  calm w ->
  Store.getById Order.id orderId (Store.orders (db w)) = Some o ->
  let items := filter (fun oi => OrderItem.orderId oi =? orderId)
                      (Store.orderItems (db w)) in
  exists reviews w1,
    loadOrder (Some orderId) (None, []) w
    = (inr (Some (OrderWithItems.mk o (Some items)), reviews), w1)
    /\ db w1 = db w /\ ui w1 = ui w /\ calm w1
    /\ forall item, In item items ->
          JS.lookup (OrderItem.productId item) reviews = Some (mkDraft 5 "").
Proof.
  intros Hc Hg items. unfold calm in Hc.
  pose proof (all_false_hd _ Hc) as H1.
  pose proof (all_false_tl _ Hc) as Hc1.
  pose proof (all_false_hd _ Hc1) as H2.
  pose proof (all_false_tl _ Hc1) as Hc2.
  unfold loadOrder, tryCatch, bind. rewrite await_eq. simpl.
  rewrite H1. simpl. rewrite Hg. rewrite await_eq. simpl. rewrite H2. simpl.
  fold items. do 2 eexists. split; [reflexivity|]. simpl.
  repeat split; trivial.
  intros item Hin. rewrite initialReviews_lookup.
  assert (E : existsb (fun i => OrderItem.productId i
                                =? OrderItem.productId item) items = true).
  { apply existsb_exists. exists item. split; [exact Hin|].
    apply String.eqb_refl. }
  now rewrite E.
Qed.

Lemma getById_id {R} (rid : R -> string) id rows r :
  Store.getById rid id rows = Some r -> rid r = id.
Proof.
  unfold Store.getById. intros H. apply find_some in H.
  now apply String.eqb_eq.
Qed.

(** With a draft for every line and no rejecting call, a submission reports
    success. *)
Lemma handleSubmit_calm order user reviews w :
  calm w ->
  Forall (fun item => JS.lookup (OrderItem.productId item) reviews <> None)
         (itemsOf order) ->
  submitted w (snd (handleSubmit (Some order) (Some user) reviews w)).
Proof.
  intros Hc Hall. unfold submitted, handleSubmit, tryCatch, bind.
  destruct (reviewItems_calm (OrderWithItems.order order) user reviews
              (itemsOf order) w Hc Hall) as (w1 & E & Hc1).
  pose proof (reviewItems_frame (OrderWithItems.order order) user reviews
                (itemsOf order) w) as F.
  rewrite E in *. simpl in F. destruct F as (_ & _ & _ & _ & _ & _ & Fui).
  unfold calm in Hc1.
  pose proof (all_false_hd _ Hc1) as H1.
  pose proof (all_false_hd _ (all_false_tl _ Hc1)) as H2.
  rewrite await_eq. simpl. rewrite H1. simpl.
  destruct (Store.getById Seller.id _ (Store.sellers (db w1))) as [seller|].
  - rewrite await_eq. simpl. rewrite H2. simpl. now rewrite Fui.
  - simpl. now rewrite Fui.
Qed.

(** X19.  Opening the review page for a stored order and submitting the
    form as it was loaded, every call being served, reports success and
    stores one review per stored order item of the order, each with the
    default rating 5 and an empty comment. *)
Theorem untouched_form_submits_five_stars orderId user w o :
  calm w ->
  Store.getById Order.id orderId (Store.orders (db w)) = Some o ->
  let w' := snd (loadAndSubmit orderId user w) in
  let items := filter (fun oi => OrderItem.orderId oi =? orderId)
                      (Store.orderItems (db w)) in
  submitted w w'
  /\ exists rs,
       Store.reviews (db w') = Store.reviews (db w) ++ rs
       /\ length rs = length items
       /\ Forall (fun r => Review.rating r = 5%Z /\ Review.comment r = ""
                           /\ Review.orderId r = orderId
                           /\ Review.userId r = AuthUser.id user) rs.
Proof.
  intros Hc Hg w' items.
  pose proof (loadOrder_served orderId w o) as L.
  destruct (L Hc Hg) as (reviews & w1 & El & Hdb & Hui & Hc1 & Hin).
  fold items in El, Hin.
  subst w'. unfold loadAndSubmit, bind. rewrite El.
  cbv beta iota. cbn [fst snd].
  set (order := OrderWithItems.mk o (Some items)).
  assert (Hall : Forall (fun item => JS.lookup (OrderItem.productId item)
                                       reviews <> None) (itemsOf order)).
  { rewrite Forall_forall. intros item Hi. rewrite (Hin item Hi).
    discriminate. }
  pose proof (handleSubmit_calm order user reviews w1 Hc1 Hall) as Hs.
  split.
  { unfold submitted in *. now rewrite <- Hui. }
  destruct (submitted_loop order user reviews w1 Hs) as (w2 & Eloop & Er).
  destruct (reviewItems_reviews _ _ _ _ _ _ Eloop) as (rs & Ers & Hrs).
  exists rs. rewrite Er, Ers, Hdb. split; [reflexivity|]. split.
  { symmetry. apply (Forall2_length Hrs). }
  clear - Hrs Hin Hg. simpl in Hrs.
  assert (Hsub : forall item, In item (itemsOf order) -> In item items)
    by (intros; assumption).
  revert Hsub. induction Hrs as [|item r its rs' Hr _ IH]; intros Hsub;
    constructor.
  - destruct Hr as (Hu & Ho & _ & _ & d & Hd & Hrt & Hcm).
    rewrite (Hin item) in Hd by (apply Hsub; now left).
    injection Hd as <-. repeat split; trivial.
    rewrite Ho. simpl. eapply getById_id. exact Hg.
  - apply IH. intros x Hx. apply Hsub. now right.
Qed.

Lemma untouched_form_submits_five_stars_witness :
  let u := AuthUser.mk "u1" "ann@example.org" (Some "Ann") None in
  let pA := Product.mk "pA" "u7" "seller1" "Plum jam" None None (100 # 1) None
              "1" 5 (3 # 1) 1 "t0" "t0" in
  let o := Order.mk "o1" "u1" "CRFT-K3J9" "seller1" "Ann" "555-0101"
             "12 Hill Road" (200 # 1) delivered online ps_paid "t0" "t0" in
  let i1 := OrderItem.mk "i1" "u1" "o1" "pA" "Plum jam" (100 # 1) 2 (200 # 1)
              "t0" in
  let s := Store.mk [] [] [pA] [] [o] [i1] [] 7 in
  let w := mkWorld s [] [] "t1" (Some u) [] in
  let w' := snd (loadAndSubmit "o1" u w) in
  submitted w w'
  /\ map Review.rating (Store.reviews (db w')) = [5%Z]
  /\ map Product.ratingAverage (Store.products (db w')) = [8 # 2].
Proof.
  intros u pA o i1 s w.
  destruct (untouched_form_submits_five_stars "o1" u w o) as (H & _).
  - constructor.
  - reflexivity.
  - split; [exact H|]. split; vm_compute; reflexivity.
Defined.


Lemma handleSubmit_seller order user reviews w seller :
  let w' := snd (handleSubmit (Some order) (Some user) reviews w) in
  let sid := Order.sellerId (OrderWithItems.order order) in
  submitted w w' ->
  Store.getById Seller.id sid (Store.sellers (db w)) = Some seller ->
  Store.getById Seller.id sid (Store.sellers (db w'))
  = Some (Seller.patchTotalReviews
            (Seller.totalReviews seller + Z.of_nat (length (itemsOf order)))
            seller).
Proof.
  intros w' sid Hsub Hget.
  destruct (submitted_inv order user reviews w Hsub)
    as (w1 & Eloop & _ & Es). fold w' sid in Es.
  destruct (reviewItems_ok _ _ _ _ _ _ Eloop) as (Hs & _).
  rewrite Hs, Hget in Es.
  rewrite Es, getById_update by reflexivity.
  now rewrite String.eqb_refl, Hget.
Qed.

Lemma handleSubmit_product order user reviews w item product review :
  let w' := snd (handleSubmit (Some order) (Some user) reviews w) in
  let pid := OrderItem.productId item in
  submitted w w' ->
  NoDup (map OrderItem.productId (itemsOf order)) ->
  In item (itemsOf order) ->
  Store.getById Product.id pid (Store.products (db w)) = Some product ->
  JS.lookup pid reviews = Some review ->
  Store.getById Product.id pid (Store.products (db w'))
  = Some (reviewed review product).
Proof.
  intros w' pid Hsub Hnd Hin Hget Hl.
  destruct (submitted_inv order user reviews w Hsub)
    as (w1 & Eloop & Ep & _). fold w' in Ep.
  destruct (reviewItems_ok _ _ _ _ _ _ Eloop) as (_ & _ & Hone).
  specialize (Hone Hnd item review Hin Hl). fold pid in Hone.
  rewrite Hget in Hone. now rewrite Ep.
Qed.

(** X21.  Nothing prevents a second submission for the same order, and it
    counts again: after two submissions that report success, a product
    named by one line of the order (lines naming pairwise different
    products) has the running-mean rule applied twice with the same rating
    and [totalReviews] raised by 2, the seller's [totalReviews] is raised by
    twice the number of order items, and twice as many reviews are
    stored. *)
Theorem resubmission_counts_twice
    order user reviews w item product review seller :
  let submit := handleSubmit (Some order) (Some user) reviews in
  let w1 := snd (submit w) in
  let w2 := snd (submit w1) in
  let pid := OrderItem.productId item in
  let sid := Order.sellerId (OrderWithItems.order order) in
  let n := Z.of_nat (length (itemsOf order)) in
  submitted w w1 -> submitted w1 w2 ->
  NoDup (map OrderItem.productId (itemsOf order)) ->
  In item (itemsOf order) ->
  Store.getById Product.id pid (Store.products (db w)) = Some product ->
  JS.lookup pid reviews = Some review ->
  Store.getById Seller.id sid (Store.sellers (db w)) = Some seller ->
  Store.getById Product.id pid (Store.products (db w2))
  = Some (reviewed review (reviewed review product))
  /\ option_map Product.totalReviews
       (Store.getById Product.id pid (Store.products (db w2)))
     = Some (Product.totalReviews product + 2)%Z
  /\ option_map Seller.totalReviews
       (Store.getById Seller.id sid (Store.sellers (db w2)))
     = Some (Seller.totalReviews seller + 2 * n)%Z
  /\ length (Store.reviews (db w2))
     = (length (Store.reviews (db w)) + 2 * length (itemsOf order))%nat.
Proof.
  intros submit w1 w2 pid sid n. subst submit w1 w2 pid sid n.
  intros H1 H2 Hnd Hin Hp Hl Hs.
  pose proof (handleSubmit_product order user reviews w item product review
                H1 Hnd Hin Hp Hl) as P1.
  pose proof (handleSubmit_product order user reviews _ item _ review
                H2 Hnd Hin P1 Hl) as P2.
  pose proof (handleSubmit_seller order user reviews w seller H1 Hs) as S1.
  pose proof (handleSubmit_seller order user reviews _ _ H2 S1) as S2.
  destruct (one_review_rows order user reviews w H1) as (rs1 & E1 & L1).
  destruct (one_review_rows order user reviews _ H2) as (rs2 & E2 & L2).
  cbv zeta in *.
  split; [exact P2|]. split; [|split].
  - rewrite P2. unfold reviewed. simpl. f_equal. lia.
  - rewrite S2. unfold Seller.patchTotalReviews.
    cbn [option_map Seller.totalReviews]. f_equal. lia.
  - rewrite E2, E1, !length_app, L1, L2. lia.
Qed.

Lemma resubmission_counts_twice_witness :
  let u := AuthUser.mk "u1" "ann@example.org" (Some "Ann") None in
  let sl := Seller.mk "seller1" "u7" (Some "Ann's pantry") vs_approved
              (9 # 2) 10 4 (800 # 1) "1" "t0" "t0" in
  let pA := Product.mk "pA" "u7" "seller1" "Plum jam" None None (100 # 1) None
              "1" 5 (4 # 1) 2 "t0" "t0" in
  let o := Order.mk "o1" "u1" "CRFT-K3J9" "seller1" "Ann" "555-0101"
             "12 Hill Road" (200 # 1) delivered online ps_paid "t0" "t0" in
  let i1 := OrderItem.mk "i1" "u1" "o1" "pA" "Plum jam" (100 # 1) 2 (200 # 1)
              "t0" in
  let s := Store.mk [] [sl] [pA] [] [o] [i1] [] 7 in
  let w := mkWorld s [] [] "t1" (Some u) [] in
  let submit := handleSubmit (Some (OrderWithItems.mk o (Some [i1]))) (Some u)
                  [("pA", mkDraft 5 "Lovely")] in
  let w2 := snd (submit (snd (submit w))) in
  option_map Product.totalReviews
    (Store.getById Product.id "pA" (Store.products (db w2))) = Some 4%Z
  /\ option_map Seller.totalReviews
       (Store.getById Seller.id "seller1" (Store.sellers (db w2)))
     = Some 12%Z
  /\ length (Store.reviews (db w2)) = 2%nat.
Proof.
  intros u sl pA o i1 s w submit w2.
  destruct (resubmission_counts_twice (OrderWithItems.mk o (Some [i1])) u
              [("pA", mkDraft 5 "Lovely")] w i1 pA (mkDraft 5 "Lovely") sl)
    as (_ & Hp & Hs & Hr).
  - vm_compute. reflexivity.
  - vm_compute. reflexivity.
  - repeat constructor. simpl. tauto.
  - now left.
  - reflexivity.
  - reflexivity.
  - reflexivity.
  - split; [exact Hp|]. split; [exact Hs|exact Hr].
Defined.

(** ** Product form: the image lists *)

Section ImageLists.
Context {F : Type}.
Import EditProduct.

Lemma dropAt_negative {A} (xs : list A) :
  forall z, (z < 0)%Z -> dropAt z xs = xs.
Proof.
  induction xs as [|x xs IH]; intros z Hz; simpl; [reflexivity|].
  destruct (Z.eqb_spec z 0); [lia|]. rewrite IH by lia. reflexivity.
Qed.

Lemma dropAt_without {A} (xs : list A) :
  forall i, dropAt (Z.of_nat i) xs = without i xs.
Proof.
  unfold without.
  induction xs as [|x xs IH]; intros i; simpl.
  - now destruct i.
  - destruct i as [|i].
    + simpl. now apply dropAt_negative.
    + destruct (Z.eqb_spec (Z.of_nat (S i)) 0); [lia|].
      replace (Z.of_nat (S i) - 1)%Z with (Z.of_nat i) by lia.
      rewrite IH. reflexivity.
Qed.

Lemma without_beyond {A} (i : nat) (xs : list A) :
  (length xs <= i)%nat -> without i xs = xs.
Proof.
  intros H. unfold without.
  rewrite firstn_all2 by exact H. rewrite skipn_all2 by lia.
  apply app_nil_r.
Qed.

Lemma without_app {A} (i : nat) (xs ys : list A) :
  without i (xs ++ ys)
  = if (i <? length xs)%nat then without i xs ++ ys
    else xs ++ without (i - length xs) ys.
Proof.
  unfold without. destruct (Nat.ltb_spec i (length xs)) as [H|H].
  - rewrite firstn_app, skipn_app.
    replace (i - length xs)%nat with 0%nat by lia.
    replace (S i - length xs)%nat with 0%nat by lia.
    simpl. now rewrite app_nil_r, <- app_assoc.
  - rewrite firstn_app, skipn_app.
    rewrite firstn_all2 by exact H. rewrite skipn_all2 by lia.
    replace (S i - length xs)%nat with (S (i - length xs)) by lia.
    simpl. now rewrite <- app_assoc.
Qed.

Lemma without_length {A B} (i : nat) (xs : list A) (ys : list B) :
  length xs = length ys -> length (without i xs) = length (without i ys).
Proof.
  intros H. unfold without.
  rewrite !length_app, !length_firstn, !length_skipn. lia.
Qed.

Lemma without_incl {A} (xs : list A) x :
  forall i, In x (without i xs) -> In x xs.
Proof.
  unfold without.
  induction xs as [|y xs IH]; intros i H; [now destruct i|].
  destruct i as [|i]; simpl in *.
  - now right.
  - destruct H as [H|H]; [now left|right; eauto].
Qed.

Lemma without_NoDup {A} (xs : list A) :
  forall i, NoDup xs -> NoDup (without i xs).
Proof.
  induction xs as [|y xs IH]; intros i H; [now destruct i|].
  inversion H as [|? ? Hn Hd]; subst.
  destruct i as [|i]; [exact Hd|].
  change (NoDup (y :: without i xs)). constructor; [|now apply IH].
  intros Hin. apply Hn. eapply without_incl. exact Hin.
Qed.

Lemma filter_keeps_all {A} (f : A -> bool) (xs : list A) :
  (forall x, In x xs -> f x = true) -> filter f xs = xs.
Proof.
  induction xs as [|x xs IH]; intros H; simpl; [reflexivity|].
  rewrite (H x (or_introl eq_refl)). f_equal. apply IH.
  intros y Hy. apply H. now right.
Qed.

(** In a list without repetition, filtering out the value at a position
    removes that position only. *)
Lemma filter_out_nth (xs : list string) :
  forall i url,
    NoDup xs -> nth_error xs i = Some url ->
    filter (fun img => negb (img =? url)) xs = without i xs.
Proof.
  unfold without.
  induction xs as [|x xs IH]; intros i url Hnd Hn; [now destruct i|].
  inversion Hnd as [|? ? Hnotin Hnd']; subst.
  destruct i as [|i]; simpl in *.
  - injection Hn as ->. rewrite String.eqb_refl. simpl.
    apply filter_keeps_all. intros y Hy.
    destruct (String.eqb_spec y url); [subst; contradiction|reflexivity].
  - destruct (String.eqb_spec x url) as [->|Hne]; simpl.
    + exfalso. apply Hnotin. eapply nth_error_In. exact Hn.
    + f_equal. now apply IH.
Qed.

Lemma includes_in url xs : includes url xs = true <-> In url xs.
Proof.
  unfold includes. rewrite existsb_exists. split.
  - intros (x & Hx & E). apply String.eqb_eq in E. now subst.
  - intros H. exists url. split; [exact H|apply String.eqb_refl].
Qed.

(** The two cases of [removeImage] on an aligned form: the preview of a
    stored image, and any later index. *)
Lemma removeImage_cases index (st : Images F) newPreviews :
  aligned st newPreviews ->
  let st' := removeImage index st in
  let k := length (existingImages st) in
  imagePreviews st' = without index (imagePreviews st)
  /\ ((index < k)%nat ->
      existingImages st' = without index (existingImages st)
      /\ newImageFiles st' = newImageFiles st
      /\ aligned st' newPreviews)
  /\ ((k <= index)%nat ->
      existingImages st' = existingImages st
      /\ newImageFiles st' = without (index - k) (newImageFiles st)
      /\ aligned st' (without (index - k) newPreviews)).
Proof.
  intros (Hp & Hl & Hnd & Hout) st' k. subst st'.
  assert (Epre : imagePreviews (removeImage index st)
                 = without index (imagePreviews st)).
  { unfold removeImage.
    destruct (nth_error (imagePreviews st) index) as [url|];
      [destruct (includes url (existingImages st))|];
      simpl; apply dropAt_without. }
  split; [exact Epre|]. split.
  - intros Hi. fold k in Hi.
    assert (Hn : exists url, nth_error (existingImages st) index = Some url).
    { destruct (nth_error (existingImages st) index) eqn:E; [eauto|].
      apply nth_error_None in E. unfold k in Hi. lia. }
    destruct Hn as (url & Hn).
    assert (Hn' : nth_error (imagePreviews st) index = Some url).
    { rewrite Hp, nth_error_app1 by exact Hi. exact Hn. }
    assert (Hinc : includes url (existingImages st) = true).
    { apply includes_in. eapply nth_error_In. exact Hn. }
    assert (Eex : existingImages (removeImage index st)
                  = without index (existingImages st)).
    { unfold removeImage. rewrite Hn', Hinc. simpl.
      now apply filter_out_nth. }
    assert (Efi : newImageFiles (removeImage index st) = newImageFiles st).
    { unfold removeImage. now rewrite Hn', Hinc. }
    split; [exact Eex|]. split; [exact Efi|].
    unfold aligned. rewrite Epre, Eex, Efi, Hp, without_app.
    apply Nat.ltb_lt in Hi. unfold k in Hi. rewrite Hi.
    split; [reflexivity|]. split; [exact Hl|]. split.
    + now apply without_NoDup.
    + eapply Forall_impl; [|exact Hout]. simpl.
      intros u Hu Hin. apply Hu. eapply without_incl. exact Hin.
  - intros Hi. fold k in Hi.
    assert (Hinc : forall url, nth_error (imagePreviews st) index = Some url ->
                               includes url (existingImages st) = false).
    { intros url Hn. destruct (includes url (existingImages st)) eqn:E;
        [|reflexivity].
      apply includes_in in E. exfalso.
      rewrite Hp, nth_error_app2 in Hn by exact Hi.
      apply nth_error_In in Hn. rewrite Forall_forall in Hout.
      exact (Hout _ Hn E). }
    assert (Ez : (Z.of_nat index - Z.of_nat k)%Z = Z.of_nat (index - k))
      by lia.
    assert (Eex : existingImages (removeImage index st) = existingImages st).
    { unfold removeImage.
      destruct (nth_error (imagePreviews st) index) as [url|] eqn:En;
        [rewrite (Hinc url eq_refl)|]; reflexivity. }
    assert (Efi : newImageFiles (removeImage index st)
                  = without (index - k) (newImageFiles st)).
    { unfold removeImage.
      destruct (nth_error (imagePreviews st) index) as [url|] eqn:En;
        [rewrite (Hinc url eq_refl)|]; simpl; fold k; rewrite Ez;
        apply dropAt_without. }
    split; [exact Eex|]. split; [exact Efi|].
    unfold aligned. rewrite Epre, Eex, Efi, Hp, without_app.
    assert (Hlt : (index <? length (existingImages st))%nat = false)
      by (apply Nat.ltb_ge; exact Hi).
    rewrite Hlt. fold k.
    split; [reflexivity|]. split; [now apply without_length|].
    split; [exact Hnd|].
    rewrite Forall_forall in *. intros u Hu. apply Hout.
    eapply without_incl. exact Hu.
Qed.

(** X22.  On the edit form, whose previews are the kept stored images
    (without repetition) followed by one preview per picked file (none of
    them a stored image), a click on the remove button of the preview at
    [index] removes that preview and what it stands for, and keeps the
    lists aligned: a stored image is dropped from the images to keep and
    the picked files are untouched; the preview of a picked file drops that
    file and no stored image; an index beyond the previews changes
    nothing. *)
Theorem remove_image_keeps_lists_aligned index (st : Images F) newPreviews :
  aligned st newPreviews ->
  let st' := removeImage index st in
  let k := length (existingImages st) in
  imagePreviews st' = without index (imagePreviews st)
  /\ ((index < k)%nat ->
      existingImages st' = without index (existingImages st)
      /\ newImageFiles st' = newImageFiles st
      /\ aligned st' newPreviews)
  /\ ((k <= index)%nat ->
      existingImages st' = existingImages st
      /\ newImageFiles st' = without (index - k) (newImageFiles st)
      /\ aligned st' (without (index - k) newPreviews))
  /\ ((length (imagePreviews st) <= index)%nat -> st' = st).
Proof.
  intros Ha st' k.
  destruct (removeImage_cases index st newPreviews Ha) as (Hp & Hin & Hout).
  fold st' in Hp, Hin, Hout. fold k in Hin, Hout.
  split; [exact Hp|]. split; [exact Hin|]. split; [exact Hout|].
  intros Hi. destruct Ha as (Ep & El & _ & _).
  assert (Hk : (k <= index)%nat).
  { unfold k. rewrite Ep, length_app in Hi. lia. }
  destruct (Hout Hk) as (Ee & Ef & _).
  rewrite without_beyond in Hp by exact Hi.
  rewrite without_beyond in Ef
    by (rewrite Ep, length_app in Hi; unfold k; lia).
  destruct st', st. simpl in *. now subst.
Qed.

End ImageLists.

Lemma remove_image_keeps_lists_aligned_witness :
  let st := EditProduct.mkImages ["a.png"; "b.png"; "blob:1"; "blob:2"]
              ["a.png"; "b.png"] [1%nat; 2%nat] in
  EditProduct.removeImage 1 st
  = EditProduct.mkImages ["a.png"; "blob:1"; "blob:2"] ["a.png"]
      [1%nat; 2%nat]
  /\ aligned (EditProduct.removeImage 1 st) ["blob:1"; "blob:2"]
  /\ aligned (EditProduct.removeImage 3 st) ["blob:1"].
Proof.
  intros st.
  assert (H : aligned st ["blob:1"; "blob:2"]).
  { unfold aligned. simpl. split; [reflexivity|]. split; [reflexivity|].
    split.
    - repeat constructor; simpl; intuition discriminate.
    - repeat constructor; simpl; intuition discriminate. }
  split; [reflexivity|]. split.
  - destruct (remove_image_keeps_lists_aligned 1 st _ H) as (_ & Hin & _).
    apply Hin. simpl. lia.
  - destruct (remove_image_keeps_lists_aligned 3 st _ H) as (_ & _ & Hout).
    apply Hout. simpl. lia.
Defined.

Section PickAndRemove.
Context {F : Type}.
Import EditProduct.

(** X23.  On an aligned edit form, picking one file and then removing the
    preview it was given puts the three image lists back as they were,
    provided the new preview's address is not that of a stored image. *)
Theorem pick_then_remove_restores_images
    (st : Images F) newPreviews (file : F) (url : string) :
  aligned st newPreviews ->
  ~ In url (existingImages st) ->
  removeImage (length (imagePreviews st))
              (handleImageChange [file] [url] st) = st.
Proof.
  intros (Hp & Hl & _ & _) Hurl.
  destruct st as [previews existing files]. simpl in *.
  unfold removeImage, handleImageChange. simpl.
  rewrite nth_error_app2 by lia. rewrite Nat.sub_diag. simpl.
  assert (Hinc : includes url existing = false).
  { destruct (includes url existing) eqn:E; [|reflexivity].
    apply includes_in in E. contradiction. }
  rewrite Hinc.
  assert (Ek : (Z.of_nat (length previews) - Z.of_nat (length existing))%Z
               = Z.of_nat (length files)).
  { rewrite Hp, length_app. lia. }
  rewrite Ek, !dropAt_without, !without_app, !Nat.ltb_irrefl, !Nat.sub_diag.
  unfold without. simpl. now rewrite !app_nil_r.
Qed.

End PickAndRemove.

Lemma pick_then_remove_restores_images_witness :
  let st := EditProduct.mkImages ["a.png"; "blob:1"] ["a.png"] [1%nat] in
  EditProduct.removeImage 2
    (EditProduct.handleImageChange [2%nat] ["blob:2"] st) = st.
Proof.
  intros st.
  apply (pick_then_remove_restores_images st ["blob:1"] 2%nat "blob:2").
  - unfold aligned. simpl. split; [reflexivity|]. split; [reflexivity|].
    split; repeat constructor; simpl; intuition discriminate.
  - simpl. intuition discriminate.
Defined.


(** ** Checkout: a seller id that names an inherited member *)

(** X24.  [itemsBySeller] is a plain object, so a seller id that is the name
    of a member of [Object.prototype] ("constructor", "toString",
    "__proto__", ...) finds that member instead of an array and the
    [push] throws.  With both delivery fields filled in, a cart that holds a
    line with such a seller id makes [handlePlaceOrder] fail before any
    service call: it shows "Failed to place order" and nothing else
    happens, so that no order is created and the cart is kept, also for the
    lines of the other sellers. *)
Theorem clashing_seller_id_aborts_checkout
    user address phone pm cartItems w line sellerId :
  address <> "" -> phone <> "" ->
  In line cartItems ->
  sellerIdOf line = Some sellerId ->
  In sellerId JS.inherited ->
  let w' := snd (handlePlaceOrder user address phone pm cartItems w) in
  w' = emit (ToastError "Failed to place order") w
  /\ db w' = db w
  /\ faults w' = faults w.
Proof.
  intros Ha Hp Hin Hs Hk w'. subst w'.
  rewrite RunFacts.handlePlaceOrder_eq.
  apply RunFacts.truthy_true in Ha, Hp. rewrite Ha, Hp. simpl.
  assert (E : existsb clashes cartItems = true).
  { apply existsb_exists. exists line. split; [exact Hin|].
    unfold clashes. rewrite Hs. unfold JS.inherits.
    apply existsb_exists. exists sellerId.
    split; [exact Hk|apply String.eqb_refl]. }
  rewrite E. simpl. repeat split.
Qed.

Lemma clashing_seller_id_aborts_checkout_witness :
  let u := AuthUser.mk "u1" "ann@example.org" (Some "Ann") None in
  let pA := Product.mk "pA" "u7" "seller1" "Plum jam" None None (100 # 1) None
              "1" 5 (4 # 1) 2 "t0" "t0" in
  let pB := Product.mk "pB" "u8" "constructor" "Olive soap" None None (50 # 1)
              None "1" 9 0 0 "t0" "t0" in
  let cA := CartItem.mk "c1" "u1" "pA" 2 "t0" "t0" in
  let cB := CartItem.mk "c2" "u1" "pB" 1 "t0" "t0" in
  let cart := [CartLine.mk cA (Some pA); CartLine.mk cB (Some pB)] in
  let s := Store.mk [] [] [pA; pB] [cA; cB] [] [] [] 7 in
  let w := mkWorld s [] ["K3J9"; "Q0ZT"] "t1" (Some u) [] in
  let w' := snd (handlePlaceOrder u "12 Hill Road" "555-0101" online cart w) in
  ui w' = [ToastError "Failed to place order"]
  /\ Store.orders (db w') = []
  /\ Store.cart (db w') = [cA; cB].
Proof.
  intros u pA pB cA cB cart s w w'.
  destruct (clashing_seller_id_aborts_checkout u "12 Hill Road" "555-0101"
              online cart w (CartLine.mk cB (Some pB)) "constructor")
    as (E & _).
  - discriminate.
  - discriminate.
  - right. now left.
  - reflexivity.
  - now left.
  - fold w' in E. rewrite E. repeat split.
Defined.
